(** * ReNamerPy: a shallow embedding of [renamer.py]

    The script walks a source directory, collects the files whose extension
    is in a filter list, and copies each one into a flat destination
    directory under the name [<basename>.txt], inserting a counter when that
    name is taken.

    Python strings are modelled by [string]; a character is a code point
    below 256.  The [os.path] functions are the ones of [posixpath].  The
    file system is a tree of directories and files addressed by path
    strings, together with a schedule of injected I/O faults and the text
    written to standard output.

    The script is modelled twice.  The first part has it on a file system
    whose entries are directories that can be listed and regular files,
    with a standard output that takes every line: [os.makedirs] and
    [shutil.copy2] are the calls that can fail, on the state of the tree or
    on an injected fault, and [main] starts from the value of
    [parser.parse_args()].  The second part (the definitions in [_in])
    places the same code in its surroundings: lines that standard output
    refuses, directories that cannot be listed, entries that are not
    regular files, the recursion limit of [os.walk], and a command line
    that the parser rejects.  Where the surroundings put no obstacle the
    two parts agree ([main_in_plain]).  In both parts a name can have any
    length, and a directory lists its entries in the order in which they
    were made. *)

From Stdlib Require Import String Ascii List Bool Arith ZArith Lia.
From Stdlib Require Import DecimalString DecimalNat FinFun.
Import ListNotations.
Open Scope string_scope.
Open Scope list_scope.
Open Scope nat_scope.

Infix "+:+" := String.append (at level 60, right associativity).

(** ** Python string operations *)

Module PyStr.

(** [s.startswith(c)] for a one-character [c]. *)
Definition starts_with (c : ascii) (s : string) : bool :=
  match s with
  | EmptyString => false
  | String a _ => Ascii.eqb a c
  end.

(** [s.endswith(c)] for a one-character [c]. *)
Fixpoint ends_with (c : ascii) (s : string) : bool :=
  match s with
  | EmptyString => false
  | String a EmptyString => Ascii.eqb a c
  | String _ s' => ends_with c s'
  end.

(** [s.split(c)]: the fields between the occurrences of [c]; never empty. *)
Fixpoint split (c : ascii) (s : string) : list string :=
  match s with
  | EmptyString => [EmptyString]
  | String a s' =>
      if Ascii.eqb a c then EmptyString :: split c s'
      else match split c s' with
           | x :: xs => String a x :: xs
           | [] => [String a EmptyString]
           end
  end.

(** [s.rfind(c)]: the index of the last occurrence of [c], or -1. *)
Fixpoint rfind_from (c : ascii) (s : string) (i : Z) (found : Z) : Z :=
  match s with
  | EmptyString => found
  | String a s' => rfind_from c s' (i + 1) (if Ascii.eqb a c then i else found)
  end.

Definition rfind (c : ascii) (s : string) : Z := rfind_from c s 0 (-1).

(** [s[:i]] and [s[i:]] for [0 <= i]. *)
Fixpoint take (i : nat) (s : string) : string :=
  match i, s with
  | S i', String a s' => String a (take i' s')
  | _, _ => EmptyString
  end.

Fixpoint drop (i : nat) (s : string) : string :=
  match i, s with
  | S i', String _ s' => drop i' s'
  | _, _ => s
  end.

(** [s[i:i+1]]. *)
Definition char_at (i : nat) (s : string) : string := take 1 (drop i s).

(** [c.lower()] on the code points below 256: A-Z and the upper-case
    letters of U+00C0..U+00DE, the multiplication sign U+00D7 apart. *)
Definition lower_char (c : ascii) : ascii :=
  let n := nat_of_ascii c in
  if ((65 <=? n) && (n <=? 90)) ||
     ((192 <=? n) && (n <=? 222) && negb (n =? 215))
  then ascii_of_nat (n + 32) else c.

Fixpoint lower (s : string) : string :=
  match s with
  | EmptyString => EmptyString
  | String a s' => String (lower_char a) (lower s')
  end.

(** [c.isspace()] on the code points below 256. *)
Definition is_space (c : ascii) : bool :=
  let n := nat_of_ascii c in
  ((9 <=? n) && (n <=? 13)) || ((28 <=? n) && (n <=? 32)) ||
  (n =? 133) || (n =? 160).

Fixpoint lstrip (s : string) : string :=
  match s with
  | EmptyString => EmptyString
  | String a s' => if is_space a then lstrip s' else s
  end.

Fixpoint rstrip (s : string) : string :=
  match s with
  | EmptyString => EmptyString
  | String a s' =>
      match rstrip s' with
      | EmptyString => if is_space a then EmptyString else String a EmptyString
      | r => String a r
      end
  end.

(** [s.strip()]. *)
Definition strip (s : string) : string := rstrip (lstrip s).

(** [str(n)] for a non-negative integer. *)
Definition of_nat (n : nat) : string :=
  NilEmpty.string_of_uint (Nat.to_uint n).

(** [x in l] for a list of strings. *)
Definition mem (x : string) (l : list string) : bool :=
  existsb (String.eqb x) l.

End PyStr.

(** ** [os.path] (posixpath) *)

Definition sep : ascii := "/"%char.
Definition extsep : ascii := "."%char.

(** [os.path.join(a, b)]. *)
Definition os_path_join (a b : string) : string :=
  if PyStr.starts_with sep b then b
  else if orb (String.eqb a "") (PyStr.ends_with sep a) then a +:+ b
  else a +:+ String sep b.

(** [os.path.basename(p)]: [p[p.rfind('/') + 1:]]. *)
Definition os_path_basename (p : string) : string :=
  PyStr.drop (Z.to_nat (PyStr.rfind sep p + 1)) p.

(** The loop of [genericpath._splitext] that skips the leading dots:
    is there a character other than a dot in [p[filenameIndex:dotIndex]]? *)
Fixpoint splitext_scan (p : string) (filenameIndex : nat) (steps : nat) : bool :=
  match steps with
  | O => false
  | S steps' =>
      if negb (String.eqb (PyStr.char_at filenameIndex p) (String extsep ""))
      then true
      else splitext_scan p (S filenameIndex) steps'
  end.

(** [os.path.splitext(p)]. *)
Definition os_path_splitext (p : string) : string * string :=
  let sepIndex := PyStr.rfind sep p in
  let dotIndex := PyStr.rfind extsep p in
  if (sepIndex <? dotIndex)%Z then
    let filenameIndex := Z.to_nat (sepIndex + 1) in
    if splitext_scan p filenameIndex (Z.to_nat dotIndex - filenameIndex)
    then (PyStr.take (Z.to_nat dotIndex) p, PyStr.drop (Z.to_nat dotIndex) p)
    else (p, "")
  else (p, "").

(** ** The file system *)

#[local] Set Warnings "-register-all".

(** A node is a file with its bytes or a directory with its entries in
    listing order.  [os.walk] sorts every entry that is not a directory under
    [files]; the files of the model are those entries. *)
Inductive node : Type :=
| File (data : string)
| Dir (entries : list (string * node)).

Definition is_dir (o : option node) : bool :=
  match o with
  | Some (Dir _) => true
  | _ => false
  end.

Definition is_file (n : node) : bool :=
  match n with
  | File _ => true
  | Dir _ => false
  end.

(** The entry called [name] in a listing. *)
Fixpoint lookup (name : string) (es : list (string * node)) : option node :=
  match es with
  | [] => None
  | (k, n) :: es' => if String.eqb k name then Some n else lookup name es'
  end.

(** Replace the entry called [name], or add it at the end of the listing. *)
Fixpoint set_entry (name : string) (n : node) (es : list (string * node))
  : list (string * node) :=
  match es with
  | [] => [(name, n)]
  | (k, m) :: es' =>
      if String.eqb k name then (k, n) :: es' else (k, m) :: set_entry name n es'
  end.

(** The node at a canonical path (a list of names from the root). *)
Fixpoint get (n : node) (q : list string) : option node :=
  match q with
  | [] => Some n
  | c :: q' =>
      match n with
      | File _ => None
      | Dir es =>
          match lookup c es with
          | Some m => get m q'
          | None => None
          end
      end
  end.

(** Store [new] at a canonical path whose parent is a directory. *)
Fixpoint put (n : node) (q : list string) (new : node) : option node :=
  match q with
  | [] => Some new
  | c :: q' =>
      match n with
      | File _ => None
      | Dir es =>
          match q', lookup c es with
          | [], _ => Some (Dir (set_entry c new es))
          | _, Some m =>
              match put m q' new with
              | Some m' => Some (Dir (set_entry c m' es))
              | None => None
              end
          | _, None => None
          end
      end
  end.

(** Number of nodes of a tree. *)
Fixpoint size (n : node) : nat :=
  match n with
  | File _ => 1
  | Dir es => S (list_sum (map (fun e => size (snd e)) es))
  end.

(** What an injected fault does to one I/O operation: nothing, a failure
    before anything is written, or a failure after part of the work was
    done: [written] reached the destination of a copy (a full disk, an
    interrupted write), or the parents of a directory were made. *)
Inductive fault : Type :=
| NoFault
| FailEarly
| FailLate (written : string).

(** Python exceptions raised by the modelled calls; all are subclasses of
    [Exception]. *)
Inductive exn : Type :=
| FileNotFoundError
| FileExistsError
| IsADirectoryError
| NotADirectoryError
| SameFileError
| OSError
| UnicodeEncodeError
| RecursionError.

(** What the script prints, one constructor per message; the banner of
    [main] and the summary of the copy are several [print]s each. *)
Inductive msg : Type :=
| MsgBanner (source destination : string) (formats : list string)
| MsgDestReady (dest_path : string)
| MsgDestError (dest_path : string) (e : exn)
| MsgSourceMissing (source_dir : string)
| MsgSearching (source_dir : string)
| MsgFormats (file_formats : list string)
| MsgFound (count : nat)
| MsgNothingToCopy
| MsgCopied (file_name new_file_name : string)
| MsgCopyError (file_path : string) (e : exn)
| MsgSummary (copied_count error_count : nat)
| MsgDone.

Record world : Type := mkWorld {
  root : node;                (* the tree under "/" *)
  cwd : list string;          (* canonical path of the working directory *)
  faults : list fault;        (* faults of the I/O operations to come *)
  out : list msg              (* standard output, oldest line first *)
}.

(** One step of path resolution from the directory [cur]. *)
Definition step (cur : list string) (c : string) : list string :=
  if String.eqb c "" || String.eqb c "." then cur
  else if String.eqb c ".." then removelast cur
  else cur ++ [c].

(** Resolve the components [cs] from [cur]; every component is looked up in
    a directory. *)
Fixpoint canon (r : node) (cur : list string) (cs : list string)
  : option (list string) :=
  match cs with
  | [] => Some cur
  | c :: cs' =>
      if is_dir (get r cur) then canon r (step cur c) cs' else None
  end.

(** The canonical path a path string denotes; its last name need not exist. *)
Definition canon_path (w : world) (p : string) : option (list string) :=
  if String.eqb p "" then None
  else canon (root w) (if PyStr.starts_with sep p then [] else cwd w)
             (PyStr.split sep p).

(** [os.stat(p)], without the metadata. *)
Definition resolve (w : world) (p : string) : option node :=
  match canon_path w p with
  | Some q => get (root w) q
  | None => None
  end.

(** [os.path.exists(p)]. *)
Definition os_path_exists (w : world) (p : string) : bool :=
  match resolve w p with
  | Some _ => true
  | None => false
  end.

(** [os.path.isdir(p)]. *)
Definition os_path_isdir (w : world) (p : string) : bool :=
  is_dir (resolve w p).

(** Names of the sub-directories and of the other entries of a listing. *)
Definition dir_names (es : list (string * node)) : list string :=
  map fst (filter (fun e => negb (is_file (snd e))) es).

Definition file_names (es : list (string * node)) : list string :=
  map fst (filter (fun e => is_file (snd e)) es).

(** [os.walk] below a node: one triple [(root, dirs, files)] per directory,
    top-down. *)
Fixpoint walk_node (top : string) (n : node)
  : list (string * list string * list string) :=
  match n with
  | File _ => []
  | Dir es =>
      (top, dir_names es, file_names es)
      :: flat_map (fun e => walk_node (os_path_join top (fst e)) (snd e)) es
  end.

(** [os.walk(top)]; a [top] that cannot be listed yields nothing. *)
Definition os_walk (w : world) (top : string)
  : list (string * list string * list string) :=
  match resolve w top with
  | Some n => walk_node top n
  | None => []
  end.

(** ** Effects: state, exceptions and exit *)

(** The outcome of a computation: a value, a Python exception, a
    [SystemExit], or a loop that used up its fuel. *)
Inductive result (A : Type) : Type :=
| Ok (a : A) (w : world)
| Raised (e : exn) (w : world)
| Exited (code : nat) (w : world)
| OutOfFuel.

Arguments Ok {A} a w.
Arguments Raised {A} e w.
Arguments Exited {A} code w.
Arguments OutOfFuel {A}.

Definition M (A : Type) : Type := world -> result A.

Definition ret {A} (a : A) : M A := fun w => Ok a w.

Definition bind {A B} (m : M A) (k : A -> M B) : M B :=
  fun w =>
    match m w with
    | Ok a w' => k a w'
    | Raised e w' => Raised e w'
    | Exited c w' => Exited c w'
    | OutOfFuel => OutOfFuel
    end.

Notation "x <- m ;; k" := (bind m (fun x => k))
  (at level 61, m at next level, right associativity).
Notation "m ;; k" := (bind m (fun _ => k))
  (at level 61, right associativity).

Definition raise {A} (e : exn) : M A := fun w => Raised e w.

(** [sys.exit(code)]: a [SystemExit], which [except Exception] lets through. *)
Definition sys_exit {A} (code : nat) : M A := fun w => Exited code w.

Definition out_of_fuel {A} : M A := fun _ => OutOfFuel.

(** [try: body / except Exception as e: handler]. *)
Definition try_except {A} (body : M A) (handler : exn -> M A) : M A :=
  fun w =>
    match body w with
    | Raised e w' => handler e w'
    | r => r
    end.

Definition get_world : M world := fun w => Ok w w.

Definition set_root (r : node) : M unit :=
  fun w => Ok tt (mkWorld r (cwd w) (faults w) (out w)).

Definition print (m : msg) : M unit :=
  fun w => Ok tt (mkWorld (root w) (cwd w) (faults w) (out w ++ [m])).

(** The fault of the next I/O operation. *)
Definition next_fault : M fault :=
  fun w =>
    match faults w with
    | [] => Ok NoFault w
    | f :: fs => Ok f (mkWorld (root w) (cwd w) fs (out w))
    end.

(** The exit status of the process for the outcome of [main]. *)
Definition exit_status {A} (r : result A) : option nat :=
  match r with
  | Ok _ _ => Some 0
  | Exited code _ => Some code
  | Raised _ _ => Some 1
  | OutOfFuel => None
  end.

(** ** [os.makedirs] and [shutil.copy2] *)

(** Create the directories of [cs] that are missing, from [cur] on: the
    tree reached, and the exception of the [mkdir] that failed, if one did.
    The directories made before that one stay.  A component below a file is
    [ENOTDIR]; trailing separators after a file leave [EEXIST]. *)
Fixpoint mkdirs (r : node) (cur : list string) (cs : list string)
  : node * option exn :=
  match cs with
  | [] => (r, if is_dir (get r cur) then None else Some FileExistsError)
  | c :: cs' =>
      if is_dir (get r cur) then
        let next := step cur c in
        match get r next with
        | Some _ => mkdirs r next cs'
        | None =>
            match put r next (Dir []) with
            | Some r' => mkdirs r' next cs'
            | None => (r, Some NotADirectoryError)
            end
        end
      else if forallb (String.eqb "") cs then (r, Some FileExistsError)
      else (r, Some NotADirectoryError)
  end.

(** [os.makedirs(name, exist_ok=True)].  A fault strikes before the first
    [mkdir], or at the last one, once the parents are made. *)
Definition os_makedirs (name : string) : M unit :=
  f <- next_fault ;;
  w <- get_world ;;
  let start := if PyStr.starts_with sep name then [] else cwd w in
  match f with
  | NoFault =>
      if String.eqb name "" then raise FileNotFoundError
      else
        let made := mkdirs (root w) start (PyStr.split sep name) in
        set_root (fst made) ;;
        match snd made with
        | None => ret tt
        | Some e => raise e
        end
  | FailEarly => raise OSError
  | FailLate _ =>
      let made := mkdirs (root w) start (removelast (PyStr.split sep name)) in
      set_root (fst made) ;;
      raise OSError
  end.

(** [shutil.copy2(src, dst)]: a [dst] that is a directory receives the file
    under the base name of [src]; an existing file is overwritten. *)
Definition shutil_copy2 (src dst : string) : M unit :=
  w <- get_world ;;
  let dst := if os_path_isdir w dst
             then os_path_join dst (os_path_basename src) else dst in
  f <- next_fault ;;
  match f, canon_path w src, canon_path w dst with
  | FailEarly, _, _ => raise OSError
  | _, Some qs, Some qd =>
      match get (root w) qs with
      | Some (File data) =>
          if is_dir (get (root w) qd) then raise IsADirectoryError
          else if list_eq_dec string_dec qs qd then raise SameFileError
          else
            let written := match f with FailLate part => part | _ => data end in
            match put (root w) qd (File written) with
            | Some r' =>
                set_root r' ;;
                match f with FailLate _ => raise OSError | _ => ret tt end
            | None => raise NotADirectoryError
            end
      | Some (Dir _) => raise IsADirectoryError
      | None => raise FileNotFoundError
      end
  | _, _, _ => raise FileNotFoundError
  end.

(** ** The script *)

(** [create_destination_dir(dest_path)]. *)
Definition create_destination_dir (dest_path : string) : M unit :=
  try_except
    (os_makedirs dest_path ;;
     print (MsgDestReady dest_path))
    (fun e =>
       print (MsgDestError dest_path e) ;;
       sys_exit 1).

(** The inner loop of [find_files_by_format]: [for file in files]. *)
Definition scan_files (file_formats : list string) (root : string)
    (files : list string) (found_files : list string) : list string :=
  fold_left
    (fun found_files file =>
       let file_ext := PyStr.lower (snd (os_path_splitext file)) in
       if PyStr.mem file_ext file_formats then
         let file_path := os_path_join root file in
         found_files ++ [file_path]
       else found_files)
    files found_files.

(** The outer loop: [for root, dirs, files in os.walk(source_dir)]. *)
Definition scan_walk (file_formats : list string)
    (triples : list (string * list string * list string))
    (found_files : list string) : list string :=
  fold_left
    (fun found_files '(root, _, files) =>
       scan_files file_formats root files found_files)
    triples found_files.

(** [find_files_by_format(source_dir, file_formats)]. *)
Definition find_files_by_format (source_dir : string)
    (file_formats : list string) : M (list string) :=
  let found_files := [] in
  w <- get_world ;;
  if negb (os_path_exists w source_dir) then
    print (MsgSourceMissing source_dir) ;;
    ret found_files
  else
    print (MsgSearching source_dir) ;;
    print (MsgFormats file_formats) ;;
    let found_files := scan_walk file_formats (os_walk w source_dir) found_files in
    print (MsgFound (length found_files)) ;;
    ret found_files.

(** The name tried when the counter is [counter]:
    [f"{name_without_ext}_{counter}{ext}.txt"]. *)
Definition numbered_name (file_name : string) (counter : nat) : string :=
  let name_without_ext := fst (os_path_splitext file_name) in
  let ext := snd (os_path_splitext file_name) in
  name_without_ext +:+ "_" +:+ PyStr.of_nat counter +:+ ext +:+ ".txt".

(** [while os.path.exists(dest_file_path): ...], on the local variables
    [new_file_name], [dest_file_path] and [counter]. *)
Fixpoint free_name_loop (fuel : nat) (w : world)
    (destination_dir file_name new_file_name dest_file_path : string)
    (counter : nat) : option (string * string * nat) :=
  match fuel with
  | O => None
  | S fuel' =>
      if os_path_exists w dest_file_path then
        let new_file_name := numbered_name file_name counter in
        let dest_file_path := os_path_join destination_dir new_file_name in
        free_name_loop fuel' w destination_dir file_name
                       new_file_name dest_file_path (counter + 1)
      else Some (new_file_name, dest_file_path, counter)
  end.

(** Lines 82-97: the destination name and path chosen for [file_path]. *)
Definition choose_dest (fuel : nat) (w : world)
    (destination_dir file_path : string) : option (string * string * nat) :=
  let file_name := os_path_basename file_path in
  let new_file_name := file_name +:+ ".txt" in
  let dest_file_path := os_path_join destination_dir new_file_name in
  let counter := 1 in
  free_name_loop fuel w destination_dir file_name
                 new_file_name dest_file_path counter.

(** The body of the [try] for one [file_path]. *)
Definition copy_one (fuel : nat) (destination_dir file_path : string)
    (copied_count : nat) : M nat :=
  w <- get_world ;;
  match choose_dest fuel w destination_dir file_path with
  | None => out_of_fuel
  | Some (new_file_name, dest_file_path, _) =>
      shutil_copy2 file_path dest_file_path ;;
      print (MsgCopied (os_path_basename file_path) new_file_name) ;;
      ret (copied_count + 1)
  end.

(** One turn of [for file_path in files_list]:
    [try: ... except Exception as e: ...], on the counters [copied_count]
    and [error_count]. *)
Definition copy_step (fuel : nat) (destination_dir file_path : string)
    (copied_count error_count : nat) : M (nat * nat) :=
  try_except
    (c <- copy_one fuel destination_dir file_path copied_count ;;
     ret (c, error_count))
    (fun e =>
       print (MsgCopyError file_path e) ;;
       ret (copied_count, error_count + 1)).

(** [for file_path in files_list: ...]. *)
Fixpoint copy_loop (fuel : nat) (destination_dir : string)
    (files_list : list string) (copied_count error_count : nat)
  : M (nat * nat) :=
  match files_list with
  | [] => ret (copied_count, error_count)
  | file_path :: rest =>
      counts <- copy_step fuel destination_dir file_path
                          copied_count error_count ;;
      copy_loop fuel destination_dir rest (fst counts) (snd counts)
  end.

(** [copy_and_rename_files(files_list, destination_dir)]. *)
Definition copy_and_rename_files (fuel : nat) (files_list : list string)
    (destination_dir : string) : M unit :=
  match files_list with
  | [] => print MsgNothingToCopy
  | _ =>
      counts <- copy_loop fuel destination_dir files_list 0 0 ;;
      print (MsgSummary (fst counts) (snd counts))
  end.

(** [parse_file_formats(formats_str)]. *)
Definition parse_file_formats (formats_str : string) : list string :=
  let formats := map PyStr.strip (PyStr.split ","%char formats_str) in
  let formats :=
    map (fun f => if PyStr.starts_with extsep f then f else "." +:+ f) formats in
  formats.

(** The values of [parser.parse_args()]. *)
Record args : Type := mkArgs {
  source : string;
  destination : string;
  formats : string
}.

(** [main()], from the parsed arguments on (lines 159-182). *)
Definition main (fuel : nat) (a : args) : M unit :=
  let source_directory := source a in
  let destination_directory := destination a in
  let file_formats := parse_file_formats (formats a) in
  print (MsgBanner source_directory destination_directory file_formats) ;;
  create_destination_dir destination_directory ;;
  files_to_copy <- find_files_by_format source_directory file_formats ;;
  copy_and_rename_files fuel files_to_copy destination_directory ;;
  print MsgDone.

(** ** Vocabulary of the statements *)

(** Does the character [c] occur in [s]? *)
Fixpoint has_char (c : ascii) (s : string) : bool :=
  match s with
  | EmptyString => false
  | String a s' => Ascii.eqb a c || has_char c s'
  end.

(** The names the copy loop tries for [file_name], in order: the base name
    with [.txt] first, then the numbered names from counter 1 on. *)
Definition candidate (file_name : string) (j : nat) : string :=
  match j with
  | O => file_name +:+ ".txt"
  | S _ => numbered_name file_name j
  end.

(** The entries of the directory that [os.path.join(d, name)] looks into. *)
Definition listing (w : world) (d : string) : list (string * node) :=
  match resolve w (if String.eqb d "" then "." else d) with
  | Some (Dir es) => es
  | _ => []
  end.

(** [in_tree cs t n]: following the names [cs] from [t] leads to [n]. *)
Inductive in_tree : list string -> node -> node -> Prop :=
| in_tree_here : forall t, in_tree [] t t
| in_tree_below : forall name m es cs n,
    In (name, m) es -> in_tree cs m n -> in_tree (name :: cs) (Dir es) n.

(** [os.path.join] along a list of names. *)
Definition join_all (top : string) (cs : list string) : string :=
  fold_left os_path_join cs top.

(** A name as a directory entry bears it: not empty, without a separator,
    and neither [.] nor [..]. *)
Definition plain_name (c : string) : bool :=
  negb (String.eqb c "") && negb (String.eqb c ".") &&
  negb (String.eqb c "..") && negb (has_char sep c).

(** No name occurs twice in [l]. *)
Fixpoint distinct (l : list string) : bool :=
  match l with
  | [] => true
  | x :: l' => negb (PyStr.mem x l') && distinct l'
  end.

(** Every entry of the tree has a plain name, and no directory lists a name
    twice. *)
Fixpoint valid_tree (n : node) : bool :=
  match n with
  | File _ => true
  | Dir es =>
      forallb (fun e => plain_name (fst e) && valid_tree (snd e)) es &&
      distinct (map fst es)
  end.

(** Fuel that is enough for a run of [main]. *)
Definition main_fuel (destination_directory : string) (w : world) : nat :=
  2 * (size (root w) + S (String.length destination_directory)).

(** The value a computation returns, when it returns one. *)
Definition returned {A} (r : result A) : option A :=
  match r with
  | Ok a _ => Some a
  | _ => None
  end.

(** The lines of a log that report a copy, and those that report a failure. *)
Definition count_copied (l : list msg) : nat :=
  List.length (filter (fun m => match m with MsgCopied _ _ => true | _ => false end) l).

Definition count_errors (l : list msg) : nat :=
  List.length (filter (fun m => match m with MsgCopyError _ _ => true | _ => false end) l).

(** The world after [m] was printed. *)
Definition printed (w : world) (l : list msg) : world :=
  mkWorld (root w) (cwd w) (faults w) (out w ++ l).

(** The entry [name] of a node that is a directory. *)
Definition child (o : option node) (name : string) : option node :=
  match o with
  | Some (Dir es) => lookup name es
  | _ => None
  end.

(** [extends r r']: every file of [r] is in [r'] with the same bytes, and
    every directory of [r] is a directory of [r']. *)
Definition extends (r r' : node) : Prop :=
  forall q,
    match get r q with
    | Some (File d) => get r' q = Some (File d)
    | Some (Dir _) => is_dir (get r' q) = true
    | None => True
    end.

(** [grows w w']: the tree of [w'] extends the one of [w] by at most [k]
    nodes, from the same working directory. *)
Definition grows (k : nat) (w w' : world) : Prop :=
  cwd w' = cwd w /\ extends (root w) (root w') /\
  size (root w') <= size (root w) + k.

(** Induction on trees, with the hypothesis for every entry of a directory. *)
Fixpoint node_induction (P : node -> Prop)
    (HF : forall d, P (File d))
    (HD : forall es, Forall (fun e => P (snd e)) es -> P (Dir es))
    (n : node) : P n :=
  match n with
  | File d => HF d
  | Dir es =>
      HD es
        ((fix all (l : list (string * node)) : Forall (fun e => P (snd e)) l :=
            match l with
            | [] => Forall_nil _
            | e :: l' =>
                Forall_cons e
                  (match e return P (snd e) with
                   | (_, m) => node_induction P HF HD m
                   end)
                  (all l')
            end) es)
  end.

(** ** Example worlds *)

Definition world_of (r : node) : world := mkWorld r [] [] [].

(** [/src] holds [a.py], [b.js], [c.md] and [sub/d.PY]; [/dst] is empty. *)
Definition demo_src : node :=
  Dir [("a.py", File "A"); ("b.js", File "B"); ("c.md", File "C");
       ("sub", Dir [("d.PY", File "D")])].

Definition demo_root : node := Dir [("src", demo_src); ("dst", Dir [])].

(** [/src] holds [a.py], [b.js] and [c.md]. *)
Definition flat_root : node :=
  Dir [("src", Dir [("a.py", File "A"); ("b.js", File "B"); ("c.md", File "C")])].

(** Two files called [a.py] at different depths, and [b.py]; [/dst] already
    holds [b.py.txt]. *)
Definition twin_root : node :=
  Dir [("src", Dir [("a.py", File "one"); ("b.py", File "B");
                    ("sub", Dir [("a.py", File "two")])]);
       ("dst", Dir [("b.py.txt", File "old")])].

(** An empty source directory. *)
Definition empty_root : node := Dir [("src", Dir [])].



(** A run whose destination path is taken by a file. *)
Definition blocked_args : args := mkArgs "/src" "/dst/a.py.txt" "py".

(** [/dst] already holds [a.py.txt]. *)
Definition taken_root : node :=
  Dir [("src", Dir [("a.py", File "new")]);
       ("dst", Dir [("a.py.txt", File "old")])].


(** ** Further vocabulary *)

(** Number of occurrences of [c] in [s]. *)
Fixpoint count_char (c : ascii) (s : string) : nat :=
  match s with
  | EmptyString => 0
  | String a s' => (if Ascii.eqb a c then 1 else 0) + count_char c s'
  end.

(** [sep.join(l)]. *)
Definition str_join (sep : string) (l : list string) : string :=
  String.concat sep l.

(** Line 16. *)
Definition DEFAULT_FILE_FORMATS : list string :=
  [".php"; ".js"; ".py"; ".html"; ".css"; ".txt"].

(** The default of the [--formats] argument: [','.join(DEFAULT_FILE_FORMATS)]. *)
Definition default_formats_arg : string := str_join "," DEFAULT_FILE_FORMATS.


(** The world once the fault of one I/O operation is consumed. *)
Definition after_io (w : world) : world :=
  mkWorld (root w) (cwd w) (tl (faults w)) (out w).

(** The new names of the copies a log reports. *)
Definition copied_names (l : list msg) : list string :=
  flat_map (fun m => match m with MsgCopied _ n => [n] | _ => [] end) l.

(** The components of a path that a joined name is appended to. *)
Definition path_front (d : string) : list string :=
  if PyStr.ends_with sep d then removelast (PyStr.split sep d)
  else PyStr.split sep d.

(** The test of line 57 on a file name. *)
Definition selected (file_formats : list string) (file : string) : bool :=
  PyStr.mem (PyStr.lower (snd (os_path_splitext file))) file_formats.

(** What the two loops of [find_files_by_format] collect below a node that
    [os.walk] is started on under the path [top]. *)
Definition located (file_formats : list string) (top : string) (n : node)
  : list string :=
  scan_walk file_formats (walk_node top n) [].


(** ** The script in its surroundings *)

(** What the tree and the fault schedule do not tell: the lines that
    standard output cannot take (a name it cannot encode, a closed pipe),
    with the exception [print] raises on them; the directories that
    [os.scandir] cannot list (no permission, a path beyond [PATH_MAX]); the
    entries that are neither directories nor regular files (FIFOs, sockets,
    devices, dangling links); and the number of nested directories that
    [os.walk] descends before its recursion ends in a [RecursionError].
    Directories and entries are named by their canonical path.  What
    [shutil.copy2] does with an entry that is no regular file is left to
    the fault schedule. *)
Record surroundings : Type := mkSurroundings {
  refuses : msg -> option exn;
  unlistable : list string -> bool;
  irregular : list string -> bool;
  walk_limit : nat
}.

(** [print(...)] on a standard output that may refuse the line. *)
Definition print_in (s : surroundings) (m : msg) : M unit :=
  match refuses s m with
  | Some e => raise e
  | None => print m
  end.

(** [os.walk] below a node of canonical path [q]: a directory that cannot
    be listed yields nothing ([onerror] is [None]); every entry that is not
    a directory goes to [files], regular or not. *)
Fixpoint walk_seen (s : surroundings) (q : list string) (top : string)
    (n : node) : list (string * list string * list string) :=
  match n with
  | File _ => []
  | Dir es =>
      if unlistable s q then []
      else
        (top, dir_names es, file_names es)
        :: flat_map
             (fun e =>
                walk_seen s (q ++ [fst e]) (os_path_join top (fst e)) (snd e))
             es
  end.

(** The number of nested calls of [os.walk] below a node. *)
Fixpoint walk_depth (s : surroundings) (q : list string) (n : node) : nat :=
  match n with
  | File _ => 0
  | Dir es =>
      if unlistable s q then 1
      else
        S (fold_right Nat.max 0
             (map (fun e => walk_depth s (q ++ [fst e]) (snd e)) es))
  end.

(** [os.walk(top)]: the triples, or [None] when the recursion limit is hit
    before the walk is over. *)
Definition os_walk_in (s : surroundings) (w : world) (top : string)
  : option (list (string * list string * list string)) :=
  match canon_path w top with
  | Some q =>
      match get (root w) q with
      | Some n =>
          if walk_limit s <? walk_depth s q n then None
          else Some (walk_seen s q top n)
      | None => Some []
      end
  | None => Some []
  end.

(** The outcome of [parser.parse_args()]: the values of the arguments, or
    the [SystemExit] of argparse (status 2 on a command line it rejects,
    0 after [--help]). *)
Inductive command_line : Type :=
| Parsed (a : args)
| Rejected (code : nat).

Definition parse_args (cmd : command_line) : M args :=
  match cmd with
  | Parsed a => ret a
  | Rejected code => sys_exit code
  end.

(** [os.getcwd()]: the working directory, as long as it exists. *)
Definition os_getcwd : M (list string) :=
  fun w =>
    if is_dir (get (root w) (cwd w)) then Ok (cwd w) w
    else Raised FileNotFoundError w.

Section InSurroundings.

Variable s : surroundings.

(** [create_destination_dir(dest_path)]. *)
Definition create_destination_dir_in (dest_path : string) : M unit :=
  try_except
    (os_makedirs dest_path ;;
     print_in s (MsgDestReady dest_path))
    (fun e =>
       print_in s (MsgDestError dest_path e) ;;
       sys_exit 1).

(** [find_files_by_format(source_dir, file_formats)]. *)
Definition find_files_by_format_in (source_dir : string)
    (file_formats : list string) : M (list string) :=
  let found_files := [] in
  w <- get_world ;;
  if negb (os_path_exists w source_dir) then
    print_in s (MsgSourceMissing source_dir) ;;
    ret found_files
  else
    print_in s (MsgSearching source_dir) ;;
    print_in s (MsgFormats file_formats) ;;
    match os_walk_in s w source_dir with
    | None => raise RecursionError
    | Some triples =>
        let found_files := scan_walk file_formats triples found_files in
        print_in s (MsgFound (length found_files)) ;;
        ret found_files
    end.

(** The body of the [try] for one [file_path]. *)
Definition copy_one_in (fuel : nat) (destination_dir file_path : string)
    (copied_count : nat) : M nat :=
  w <- get_world ;;
  match choose_dest fuel w destination_dir file_path with
  | None => out_of_fuel
  | Some (new_file_name, dest_file_path, _) =>
      shutil_copy2 file_path dest_file_path ;;
      print_in s (MsgCopied (os_path_basename file_path) new_file_name) ;;
      ret (copied_count + 1)
  end.

(** One turn of [for file_path in files_list]. *)
Definition copy_step_in (fuel : nat) (destination_dir file_path : string)
    (copied_count error_count : nat) : M (nat * nat) :=
  try_except
    (c <- copy_one_in fuel destination_dir file_path copied_count ;;
     ret (c, error_count))
    (fun e =>
       print_in s (MsgCopyError file_path e) ;;
       ret (copied_count, error_count + 1)).

(** [for file_path in files_list: ...]. *)
Fixpoint copy_loop_in (fuel : nat) (destination_dir : string)
    (files_list : list string) (copied_count error_count : nat)
  : M (nat * nat) :=
  match files_list with
  | [] => ret (copied_count, error_count)
  | file_path :: rest =>
      counts <- copy_step_in fuel destination_dir file_path
                             copied_count error_count ;;
      copy_loop_in fuel destination_dir rest (fst counts) (snd counts)
  end.

(** [copy_and_rename_files(files_list, destination_dir)]. *)
Definition copy_and_rename_files_in (fuel : nat) (files_list : list string)
    (destination_dir : string) : M unit :=
  match files_list with
  | [] => print_in s MsgNothingToCopy
  | _ =>
      counts <- copy_loop_in fuel destination_dir files_list 0 0 ;;
      print_in s (MsgSummary (fst counts) (snd counts))
  end.

(** [main()], with line 157. *)
Definition main_in (fuel : nat) (cmd : command_line) : M unit :=
  a <- parse_args cmd ;;
  let source_directory := source a in
  let destination_directory := destination a in
  let file_formats := parse_file_formats (formats a) in
  print_in s (MsgBanner source_directory destination_directory file_formats) ;;
  create_destination_dir_in destination_directory ;;
  files_to_copy <- find_files_by_format_in source_directory file_formats ;;
  copy_and_rename_files_in fuel files_to_copy destination_directory ;;
  print_in s MsgDone.

(** The script as it is run: the module is loaded, which calls
    [os.getcwd()] at line 17, then [main()] is called (lines 184-185). *)
Definition script_in (fuel : nat) (cmd : command_line) : M unit :=
  os_getcwd ;;
  main_in fuel cmd.

End InSurroundings.

(** Surroundings in which standard output takes every line. *)
Definition accepts_all (s : surroundings) : Prop :=
  forall m, refuses s m = None.

(** Surroundings without any obstacle: every line is printed, every
    directory can be listed, every entry that is not a directory is a
    regular file, and [os.walk] descends [limit] directories. *)
Definition plain_surroundings (limit : nat) : surroundings :=
  mkSurroundings (fun _ => None) (fun _ => false) (fun _ => false) limit.

(** Every directory from [q] down along [cs] can be listed. *)
Fixpoint all_listable (s : surroundings) (q : list string) (cs : list string)
  : bool :=
  negb (unlistable s q) &&
  match cs with
  | [] => true
  | c :: cs' => all_listable s (q ++ [c]) cs'
  end.

(** A computation that ends, in a world that satisfies [P]. *)
Definition ends_in {A} (P : world -> Prop) (r : result A) : Prop :=
  match r with
  | Ok _ w' => P w'
  | Raised _ w' => P w'
  | Exited _ w' => P w'
  | OutOfFuel => False
  end.

(** The strings a line of output shows. *)
Definition msg_texts (m : msg) : list string :=
  match m with
  | MsgBanner source destination formats => source :: destination :: formats
  | MsgDestReady dest_path => [dest_path]
  | MsgDestError dest_path _ => [dest_path]
  | MsgSourceMissing source_dir => [source_dir]
  | MsgSearching source_dir => [source_dir]
  | MsgFormats file_formats => file_formats
  | MsgCopied file_name new_file_name => [file_name; new_file_name]
  | MsgCopyError file_path _ => [file_path]
  | MsgFound _ | MsgNothingToCopy | MsgSummary _ _ | MsgDone => []
  end.

(** The code points below 256 that KOI8-R encodes: ASCII and six others. *)
Definition koi8r_has (a : ascii) : bool :=
  let n := Ascii.nat_of_ascii a in
  (n <? 128) || existsb (Nat.eqb n) [160; 169; 176; 178; 183; 247].

Fixpoint encodable (t : string) : bool :=
  match t with
  | EmptyString => true
  | String a t' => koi8r_has a && encodable t'
  end.

Definition is_path (q1 q2 : list string) : bool :=
  if list_eq_dec string_dec q1 q2 then true else false.

(** A standard output in KOI8-R, which has the Cyrillic letters of the
    messages: a line that shows a name with a character outside of it
    raises [UnicodeEncodeError]. *)
Definition koi8r_stdout : surroundings :=
  mkSurroundings
    (fun m => if forallb encodable (msg_texts m) then None
              else Some UnicodeEncodeError)
    (fun _ => false) (fun _ => false) 1000.

(** Surroundings of [demo_root] in which the entry [a.py] of [/src] is a
    FIFO and the directory [/src/sub] cannot be listed. *)
Definition rough_tree : surroundings :=
  mkSurroundings (fun _ => None)
    (is_path ["src"; "sub"]) (is_path ["src"; "a.py"]) 1000.

(** An interpreter whose recursion limit lets [os.walk] list one level. *)
Definition shallow_walk : surroundings :=
  mkSurroundings (fun _ => None) (fun _ => false) (fun _ => false) 1.

(** The file name [caf\233.py], with the code point 233 of Latin-1. *)
Definition cafe_py : string := "caf" +:+ String (Ascii.ascii_of_nat 233) ".py".

(** [/src] holds that file; [/dst] is empty. *)
Definition cafe_root : node :=
  Dir [("src", Dir [(cafe_py, File "C")]); ("dst", Dir [])].

Definition demo_args : args := mkArgs "/src" "/dst" "py".

(** [demo_root], seen from a working directory that was removed. *)
Definition lost_cwd : world := mkWorld demo_root ["gone"] [] [].

(** * Properties *)

(** ** Strings *)

Section Strings.

Lemma length_append (a b : string) :
  String.length (a +:+ b) = String.length a + String.length b.
Proof. induction a as [|x a IH]; simpl; [reflexivity | now rewrite IH]. Qed.

Lemma append_assoc (a b c : string) : (a +:+ b) +:+ c = a +:+ b +:+ c.
Proof. induction a as [|x a IH]; simpl; [reflexivity | now rewrite IH]. Qed.

Lemma append_nil_r (a : string) : a +:+ "" = a.
Proof. induction a as [|x a IH]; simpl; [reflexivity | now rewrite IH]. Qed.

Lemma append_cancel_l (a x y : string) : a +:+ x = a +:+ y -> x = y.
Proof.
  induction a as [|c a IH]; simpl; intros H; [exact H|].
  injection H as H. now apply IH.
Qed.

Lemma append_cancel_r (t x y : string) : x +:+ t = y +:+ t -> x = y.
Proof.
  revert y. induction x as [|c x IH]; intros [|d y] H; simpl in H.
  - reflexivity.
  - apply (f_equal String.length) in H. simpl in H.
    rewrite length_append in H. lia.
  - apply (f_equal String.length) in H. simpl in H.
    rewrite length_append in H. lia.
  - injection H as Hc H. subst d. f_equal. now apply IH.
Qed.

Lemma has_char_append c (a b : string) :
  has_char c (a +:+ b) = has_char c a || has_char c b.
Proof.
  induction a as [|x a IH]; simpl; [reflexivity|].
  now rewrite IH, orb_assoc.
Qed.

Lemma take_drop i s : PyStr.take i s +:+ PyStr.drop i s = s.
Proof.
  revert s. induction i as [|i IH]; intros [|a s]; simpl; auto.
  now rewrite IH.
Qed.

Lemma split_not_nil c s : PyStr.split c s <> [].
Proof.
  destruct s as [|a s]; simpl; [discriminate|].
  destruct (Ascii.eqb a c); [discriminate|].
  destruct (PyStr.split c s); discriminate.
Qed.

Lemma split_plain c s : has_char c s = false -> PyStr.split c s = [s].
Proof.
  induction s as [|a s IH]; simpl; [reflexivity|].
  intros H. apply orb_false_iff in H as [Ha Hs].
  rewrite Ha, (IH Hs). reflexivity.
Qed.

Lemma split_append c (a b : string) :
  PyStr.split c (a +:+ String c b) = PyStr.split c a ++ PyStr.split c b.
Proof.
  induction a as [|x a IH]; simpl.
  - now rewrite Ascii.eqb_refl.
  - destruct (Ascii.eqb x c); [now rewrite IH|].
    rewrite IH. pose proof (split_not_nil c a) as Hne.
    destruct (PyStr.split c a) as [|y ys]; [congruence|reflexivity].
Qed.

Lemma ends_with_inv c s :
  PyStr.ends_with c s = true -> exists s0, s = s0 +:+ String c "".
Proof.
  induction s as [|a s IH]; [discriminate|].
  destruct s as [|b s].
  - simpl. intros H. apply Ascii.eqb_eq in H. subst a. now exists "".
  - intros H. change (PyStr.ends_with c (String b s) = true) in H.
    destruct (IH H) as [s0 Hs0]. exists (String a s0). simpl. now rewrite <- Hs0.
Qed.

Lemma starts_with_append c (a b : string) :
  a <> "" -> PyStr.starts_with c (a +:+ b) = PyStr.starts_with c a.
Proof. destruct a; [congruence | reflexivity]. Qed.

Lemma starts_with_has_char c s :
  PyStr.starts_with c s = true -> has_char c s = true.
Proof. destruct s; simpl; [discriminate|]. intros ->. reflexivity. Qed.

(** The part after the last [c] holds no [c]. *)
Lemma rfind_from_spec c s i found :
  let r := PyStr.rfind_from c s i found in
  (r = found /\ has_char c s = false) \/
  ((i <= r)%Z /\ has_char c (PyStr.drop (Z.to_nat (r - i + 1)) s) = false).
Proof.
  revert i found. induction s as [|a s IH]; intros i found; simpl.
  - left. split; reflexivity.
  - specialize (IH (i + 1)%Z (if Ascii.eqb a c then i else found)).
    simpl in IH. destruct IH as [[Hr Hs]|[Hr Hs]].
    + destruct (Ascii.eqb a c) eqn:Hac.
      * right. rewrite Hr. split; [lia|].
        replace (Z.to_nat (i - i + 1)) with 1 by lia. exact Hs.
      * left. now rewrite Hr, Hs.
    + right. split; [lia|].
      replace (Z.to_nat (PyStr.rfind_from c s (i + 1)
                 (if Ascii.eqb a c then i else found) - i + 1))
        with (S (Z.to_nat (PyStr.rfind_from c s (i + 1)
                 (if Ascii.eqb a c then i else found) - (i + 1) + 1))) by lia.
      exact Hs.
Qed.

Lemma basename_no_sep p : has_char sep (os_path_basename p) = false.
Proof.
  unfold os_path_basename, PyStr.rfind.
  destruct (rfind_from_spec sep p 0 (-1)) as [[Hr Hs]|[Hr Hs]].
  - rewrite Hr. exact Hs.
  - now rewrite Z.sub_0_r in Hs.
Qed.

Lemma splitext_append p :
  fst (os_path_splitext p) +:+ snd (os_path_splitext p) = p.
Proof.
  unfold os_path_splitext.
  destruct (_ <? _)%Z; simpl; [|apply append_nil_r].
  destruct (splitext_scan _ _ _); simpl; [apply take_drop | apply append_nil_r].
Qed.

Lemma splitext_no_char c p :
  has_char c p = false ->
  has_char c (fst (os_path_splitext p)) = false /\
  has_char c (snd (os_path_splitext p)) = false.
Proof.
  intros H. rewrite <- (splitext_append p), has_char_append in H.
  now apply orb_false_iff in H.
Qed.

Lemma of_nat_inj j k : PyStr.of_nat j = PyStr.of_nat k -> j = k.
Proof.
  unfold PyStr.of_nat. intros H.
  apply Unsigned.to_uint_inj.
  apply (f_equal NilEmpty.uint_of_string) in H.
  rewrite !NilEmpty.usu in H. now injection H.
Qed.

Lemma of_nat_no_sep n : has_char sep (PyStr.of_nat n) = false.
Proof.
  unfold PyStr.of_nat. generalize (Nat.to_uint n). intros d.
  induction d; simpl; auto.
Qed.

End Strings.

(** ** The tree *)

Section Tree.

Lemma lookup_In name es n : lookup name es = Some n -> In (name, n) es.
Proof.
  induction es as [|[k m] es IH]; simpl; [discriminate|].
  destruct (String.eqb_spec k name) as [->|Hk].
  - intros [= ->]. now left.
  - intros H. right. now apply IH.
Qed.

Lemma In_lookup name es n :
  NoDup (map fst es) -> In (name, n) es -> lookup name es = Some n.
Proof.
  induction es as [|[k m] es IH]; simpl; [tauto|].
  intros Hnd [Hin|Hin].
  - injection Hin as -> ->. now rewrite String.eqb_refl.
  - inversion Hnd as [|? ? Hk Hnd']; subst.
    destruct (String.eqb_spec k name) as [->|Hne]; [|now apply IH].
    exfalso. apply Hk. now apply (in_map fst) in Hin.
Qed.

Lemma lookup_set_same name n es : lookup name (set_entry name n es) = Some n.
Proof.
  induction es as [|[k m] es IH]; simpl.
  - now rewrite String.eqb_refl.
  - destruct (String.eqb k name) eqn:Hk; simpl; rewrite Hk; auto.
Qed.

Lemma lookup_set_other name name' n es :
  name <> name' -> lookup name' (set_entry name n es) = lookup name' es.
Proof.
  intros Hne. induction es as [|[k m] es IH]; simpl.
  - apply String.eqb_neq in Hne. now rewrite Hne.
  - destruct (String.eqb_spec k name) as [->|Hk]; simpl.
    + apply String.eqb_neq in Hne. now rewrite Hne.
    + now rewrite IH.
Qed.

Lemma size_pos n : 1 <= size n.
Proof. destruct n; simpl; lia. Qed.

Lemma size_entries (es : list (string * node)) :
  List.length es <= list_sum (map (fun e => size (snd e)) es).
Proof.
  induction es as [|e es IH]; simpl; [lia|].
  pose proof (size_pos (snd e)). lia.
Qed.

Lemma size_lookup name es m :
  lookup name es = Some m ->
  size m <= list_sum (map (fun e => size (snd e)) es).
Proof.
  induction es as [|[k n] es IH]; simpl; [discriminate|].
  destruct (String.eqb k name).
  - intros [= ->]. lia.
  - intros H. specialize (IH H). lia.
Qed.

Lemma size_set_fresh name n es :
  lookup name es = None ->
  list_sum (map (fun e => size (snd e)) (set_entry name n es)) =
  list_sum (map (fun e => size (snd e)) es) + size n.
Proof.
  induction es as [|[k m] es IH]; simpl; [lia|].
  destruct (String.eqb k name); [discriminate|].
  intros H. simpl. rewrite (IH H). lia.
Qed.

Lemma size_set_replace name n es m :
  lookup name es = Some m ->
  list_sum (map (fun e => size (snd e)) (set_entry name n es)) + size m =
  list_sum (map (fun e => size (snd e)) es) + size n.
Proof.
  induction es as [|[k m0] es IH]; simpl; [discriminate|].
  destruct (String.eqb k name).
  - intros [= ->]. simpl. lia.
  - intros H. simpl. specialize (IH H). lia.
Qed.

Lemma get_app r q q' :
  get r (q ++ q') =
  match get r q with Some n => get n q' | None => None end.
Proof.
  revert r. induction q as [|c q IH]; intros r; simpl; [reflexivity|].
  destruct r as [d|es]; [reflexivity|].
  destruct (lookup c es); [apply IH | reflexivity].
Qed.

Lemma get_snoc r q name : get r (q ++ [name]) = child (get r q) name.
Proof.
  rewrite get_app. destruct (get r q) as [[d|es]|]; simpl; try reflexivity.
  now destruct (lookup name es).
Qed.

Lemma get_size r q n : get r q = Some n -> size n <= size r.
Proof.
  revert r. induction q as [|c q IH]; intros r; simpl.
  - intros [= ->]. lia.
  - destruct r as [d|es]; [discriminate|].
    destruct (lookup c es) as [m|] eqn:Hm; [|discriminate].
    intros H. apply IH in H. apply size_lookup in Hm. simpl. lia.
Qed.

Lemma extends_refl r : extends r r.
Proof. intros q. now destruct (get r q) as [[d|es]|]. Qed.

Lemma extends_trans r1 r2 r3 : extends r1 r2 -> extends r2 r3 -> extends r1 r3.
Proof.
  intros H12 H23 q. specialize (H12 q). specialize (H23 q).
  destruct (get r1 q) as [[d|es]|]; auto.
  - now rewrite H12 in H23.
  - destruct (get r2 q) as [[d2|es2]|]; simpl in H12; try discriminate.
    exact H23.
Qed.

(** Storing a node where there was none keeps what was there. *)
Lemma put_fresh r q new r' :
  get r q = None -> put r q new = Some r' ->
  extends r r' /\ size r' = size r + size new.
Proof.
  revert r r'. induction q as [|c q IH]; intros r r'; simpl; [discriminate|].
  destruct r as [d|es]; [discriminate|].
  destruct q as [|c1 q].
  - destruct (lookup c es) as [m|] eqn:Hc; [discriminate|].
    intros _ [= <-]. split.
    + intros [|c0 q0]; simpl; [reflexivity|].
      destruct (String.eqb_spec c c0) as [<-|Hne].
      * now rewrite Hc.
      * rewrite (lookup_set_other _ _ _ _ Hne).
        destruct (lookup c0 es) as [m0|]; [|exact I].
        now destruct (get m0 q0) as [[d|es0]|].
    + simpl. rewrite (size_set_fresh _ _ _ Hc). lia.
  - destruct (lookup c es) as [m|] eqn:Hc; [|discriminate].
    intros Hget Hput.
    destruct (put m (c1 :: q) new) as [m'|] eqn:Hm'; [|discriminate].
    injection Hput as <-.
    destruct (IH m m' Hget Hm') as [Hext Hsize]. split.
    + intros [|c0 q0]; simpl; [reflexivity|].
      destruct (String.eqb_spec c c0) as [<-|Hne].
      * rewrite Hc, lookup_set_same. apply Hext.
      * rewrite (lookup_set_other _ _ _ _ Hne).
        destruct (lookup c0 es) as [m0|]; [|exact I].
        now destruct (get m0 q0) as [[d|es0]|].
    + simpl. pose proof (size_set_replace c m' es m Hc). lia.
Qed.

Lemma canon_app r cur cs c :
  canon r cur (cs ++ [c]) =
  match canon r cur cs with
  | Some q => if is_dir (get r q) then Some (step q c) else None
  | None => None
  end.
Proof.
  revert cur. induction cs as [|x cs IH]; intros cur; simpl.
  - now destruct (is_dir (get r cur)).
  - destruct (is_dir (get r cur)); [apply IH | reflexivity].
Qed.

Lemma canon_extends r r' cur cs q :
  extends r r' -> canon r cur cs = Some q -> canon r' cur cs = Some q.
Proof.
  intros Hext. revert cur. induction cs as [|c cs IH]; intros cur; simpl; auto.
  specialize (Hext cur) as Hcur.
  destruct (get r cur) as [[d|es]|]; simpl; try discriminate.
  rewrite Hcur. apply IH.
Qed.

Lemma step_plain cur c : plain_name c = true -> step cur c = cur ++ [c].
Proof.
  unfold plain_name, step. intros H.
  repeat (apply andb_true_iff in H as [H ?]).
  apply negb_true_iff in H. rewrite H.
  destruct (String.eqb c "."); [discriminate|].
  destruct (String.eqb c ".."); [discriminate|]. reflexivity.
Qed.

Lemma step_stay cur : step cur "" = cur.
Proof. reflexivity. Qed.

End Tree.

(** ** Path resolution *)

Section Resolution.

Lemma plain_name_inv c :
  plain_name c = true -> c <> "" /\ has_char sep c = false.
Proof.
  unfold plain_name. intros H.
  repeat (apply andb_true_iff in H as [H ?]).
  apply negb_true_iff in H. apply String.eqb_neq in H.
  split; [assumption | now apply negb_true_iff].
Qed.

Lemma append_not_nil (a b : string) : a <> "" -> a +:+ b <> "".
Proof. destruct a; [congruence | discriminate]. Qed.

(** A path joined with a plain name denotes the entry of that name in the
    directory the path denotes. *)
Lemma resolve_join w d name :
  plain_name name = true ->
  resolve w (os_path_join d name) =
  child (resolve w (if String.eqb d "" then "." else d)) name.
Proof.
  intros Hp. destruct (plain_name_inv _ Hp) as [Hne Hsep].
  assert (Hst : PyStr.starts_with sep name = false).
  { destruct (PyStr.starts_with sep name) eqn:E; [|reflexivity].
    apply starts_with_has_char in E. congruence. }
  unfold os_path_join. rewrite Hst.
  destruct (String.eqb_spec d "") as [->|Hd]; cbn [orb].
  - change ("" +:+ name) with name. unfold resolve, canon_path.
    apply String.eqb_neq in Hne. rewrite Hne, Hst, (split_plain _ _ Hsep).
    change (PyStr.split sep ".") with ["."]. cbn [String.eqb PyStr.starts_with].
    change (Ascii.eqb "." sep) with false. cbn [canon].
    destruct (is_dir (get (root w) (cwd w))) eqn:E; [|reflexivity].
    rewrite (step_plain _ _ Hp), get_snoc. reflexivity.
  - destruct (PyStr.ends_with sep d) eqn:He.
    + destruct (ends_with_inv _ _ He) as [d0 ->].
      rewrite append_assoc. cbn [String.append].
      unfold resolve, canon_path.
      assert (H1 : String.eqb (d0 +:+ String sep name) "" = false).
      { apply String.eqb_neq. destruct d0; discriminate. }
      assert (H2 : String.eqb (d0 +:+ String sep "") "" = false).
      { apply String.eqb_neq. destruct d0; discriminate. }
      assert (H3 : PyStr.starts_with sep (d0 +:+ String sep name) =
                   PyStr.starts_with sep (d0 +:+ String sep "")).
      { destruct d0; reflexivity. }
      rewrite H1, H2, H3, !split_append, (split_plain _ _ Hsep).
      change (PyStr.split sep "") with [""]. rewrite !canon_app.
      destruct (canon _ _ (PyStr.split sep d0)) as [q|]; [|reflexivity].
      destruct (is_dir (get (root w) q)) eqn:E; [|reflexivity].
      rewrite step_stay, (step_plain _ _ Hp), get_snoc. reflexivity.
    + unfold resolve, canon_path.
      assert (H1 : String.eqb (d +:+ String sep name) "" = false).
      { apply String.eqb_neq. now apply append_not_nil. }
      apply String.eqb_neq in Hd as Hd'.
      rewrite H1, Hd', (starts_with_append _ _ _ Hd), split_append,
        (split_plain _ _ Hsep), canon_app.
      destruct (canon _ _ (PyStr.split sep d)) as [q|]; [|reflexivity].
      destruct (get (root w) q) as [[x|es]|] eqn:Hq; cbn [is_dir];
        try reflexivity.
      now rewrite (step_plain _ _ Hp), get_snoc, Hq.
Qed.

(** What exists under a directory is one of its entries. *)
Lemma exists_join_listed w d name :
  plain_name name = true ->
  os_path_exists w (os_path_join d name) = true ->
  In name (map fst (listing w d)).
Proof.
  intros Hp. unfold os_path_exists, listing. rewrite (resolve_join _ _ _ Hp).
  destruct (resolve w _) as [[x|es]|]; simpl; try discriminate.
  destruct (lookup name es) as [m|] eqn:Hm; [|discriminate].
  intros _. apply lookup_In in Hm. now apply (in_map fst) in Hm.
Qed.

Lemma listing_lt_size w d : List.length (listing w d) < size (root w).
Proof.
  unfold listing, resolve.
  pose proof (size_pos (root w)) as Hpos.
  destruct (canon_path w _) as [q|]; simpl; [|lia].
  destruct (get (root w) q) as [[x|es]|] eqn:Hq; simpl; try lia.
  apply get_size in Hq. simpl in Hq.
  pose proof (size_entries es). lia.
Qed.

Lemma grows_refl w : grows 0 w w.
Proof.
  split; [reflexivity|]. split; [apply extends_refl | lia].
Qed.

Lemma grows_trans a b w1 w2 w3 :
  grows a w1 w2 -> grows b w2 w3 -> grows (a + b) w1 w3.
Proof.
  intros (Hc1 & He1 & Hs1) (Hc2 & He2 & Hs2). split; [congruence|].
  split; [eapply extends_trans; eassumption | lia].
Qed.

Lemma canon_path_grows k w w' p q :
  grows k w w' -> canon_path w p = Some q -> canon_path w' p = Some q.
Proof.
  intros (Hc & He & _). unfold canon_path. rewrite Hc.
  destruct (String.eqb p ""); [discriminate|].
  now apply canon_extends.
Qed.

(** A file that resolves keeps its bytes when the world grows. *)
Lemma resolve_file_grows k w w' p d :
  grows k w w' -> resolve w p = Some (File d) -> resolve w' p = Some (File d).
Proof.
  intros Hg. unfold resolve.
  destruct (canon_path w p) as [q|] eqn:Hq; [|discriminate].
  rewrite (canon_path_grows _ _ _ _ _ Hg Hq).
  destruct Hg as (_ & He & _). specialize (He q).
  intros H. now rewrite H in He.
Qed.

Lemma resolve_dir_grows k w w' p :
  grows k w w' -> is_dir (resolve w p) = true -> is_dir (resolve w' p) = true.
Proof.
  intros Hg. unfold resolve.
  destruct (canon_path w p) as [q|] eqn:Hq; [|discriminate].
  rewrite (canon_path_grows _ _ _ _ _ Hg Hq).
  destruct Hg as (_ & He & _). specialize (He q).
  destruct (get (root w) q) as [[x|es]|]; simpl; try discriminate.
  now intros _.
Qed.

End Resolution.

(** ** The copy engine *)

Section Copy.

Lemma plain_name_intro s :
  has_char "t" s = true -> has_char sep s = false -> plain_name s = true.
Proof.
  intros Ht Hs. unfold plain_name. rewrite Hs.
  destruct (String.eqb_spec s "") as [->|_]; [discriminate|].
  destruct (String.eqb_spec s ".") as [->|_]; [discriminate|].
  destruct (String.eqb_spec s "..") as [->|_]; [discriminate|].
  reflexivity.
Qed.

Lemma numbered_name_plain f j :
  has_char sep f = false -> plain_name (numbered_name f j) = true.
Proof.
  intros Hf. destruct (splitext_no_char sep f Hf) as [H1 H2].
  unfold numbered_name. apply plain_name_intro.
  - rewrite !has_char_append. cbn [has_char].
    change (Ascii.eqb "t" "t") with true. now rewrite !orb_true_r.
  - rewrite !has_char_append, H1, H2, of_nat_no_sep. reflexivity.
Qed.

(** Distinct counters give distinct numbered names. *)
Lemma numbered_name_inj f j k :
  numbered_name f j = numbered_name f k -> j = k.
Proof.
  unfold numbered_name. intros H.
  apply append_cancel_l in H. cbn [String.append] in H.
  injection H as H. apply append_cancel_r in H. now apply of_nat_inj.
Qed.

Lemma numbered_names_NoDup f start n :
  NoDup (map (numbered_name f) (seq start n)).
Proof.
  apply Injective_map_NoDup; [|apply seq_NoDup].
  intros j k. apply numbered_name_inj.
Qed.

(** What the loop returns: the first name of the sequence that is free. *)
Lemma free_name_loop_some fuel w dest f name path counter name' path' counter' :
  free_name_loop fuel w dest f name path counter = Some (name', path', counter') ->
  os_path_exists w path' = false /\
  ((counter' = counter /\ name' = name /\ path' = path) \/
   (counter < counter' /\
    name' = numbered_name f (counter' - 1) /\
    path' = os_path_join dest name' /\
    os_path_exists w path = true /\
    forall j, counter <= j < counter' - 1 ->
              os_path_exists w (os_path_join dest (numbered_name f j)) = true)).
Proof.
  revert name path counter.
  induction fuel as [|fuel IH]; intros name path counter; simpl; [discriminate|].
  destruct (os_path_exists w path) eqn:Hex.
  - intros H. apply IH in H. destruct H as [Hfree H]. split; [exact Hfree|].
    right. destruct H as [(-> & -> & ->)|(Hlt & -> & -> & Hfirst & Hall)].
    + replace (counter + 1 - 1) with counter by lia.
      repeat split; auto; try lia.
    + repeat split; auto; try lia.
      intros j Hj. destruct (Nat.eq_dec j counter) as [->|Hne]; [exact Hfirst|].
      apply Hall. lia.
  - intros [= <- <- <-]. split; [exact Hex|]. left. auto.
Qed.

(** A loop that used up its fuel found every name it tried. *)
Lemma free_name_loop_none fuel w dest f name path counter :
  free_name_loop fuel w dest f name path counter = None ->
  forall j, counter <= j < counter + (fuel - 1) ->
            os_path_exists w (os_path_join dest (numbered_name f j)) = true.
Proof.
  revert name path counter.
  induction fuel as [|fuel IH]; intros name path counter; simpl; [lia|].
  destruct (os_path_exists w path) eqn:Hex; [|discriminate].
  intros H j Hj. destruct fuel as [|fuel]; [lia|].
  destruct (Nat.eq_dec j counter) as [->|Hne].
  - simpl in H.
    destruct (os_path_exists w (os_path_join dest (numbered_name f counter)));
      [reflexivity | discriminate].
  - apply (IH _ _ _ H). simpl. lia.
Qed.

(** The loop ends: the numbered names are distinct, and the ones that
    exist are entries of the destination directory. *)
Lemma free_name_loop_total fuel w dest f name path counter :
  has_char sep f = false ->
  List.length (listing w dest) + 1 < fuel ->
  free_name_loop fuel w dest f name path counter <> None.
Proof.
  intros Hf Hfuel Hnone.
  pose proof (free_name_loop_none _ _ _ _ _ _ _ Hnone) as Hall.
  set (n := S (List.length (listing w dest))).
  assert (Hincl : incl (map (numbered_name f) (seq counter n))
                       (map fst (listing w dest))).
  { intros x Hx. apply in_map_iff in Hx as (j & <- & Hj).
    apply in_seq in Hj. apply exists_join_listed.
    - now apply numbered_name_plain.
    - apply Hall. unfold n in Hj. lia. }
  apply NoDup_incl_length in Hincl; [|apply numbered_names_NoDup].
  rewrite !length_map, length_seq in Hincl. unfold n in Hincl. lia.
Qed.

(** The destination chosen for a file: the first free candidate. *)
Lemma choose_dest_spec fuel w dest file_path :
  List.length (listing w dest) + 1 < fuel ->
  exists k,
    choose_dest fuel w dest file_path =
      Some (candidate (os_path_basename file_path) k,
            os_path_join dest (candidate (os_path_basename file_path) k),
            S k) /\
    os_path_exists w
      (os_path_join dest (candidate (os_path_basename file_path) k)) = false /\
    forall j, j < k ->
      os_path_exists w
        (os_path_join dest (candidate (os_path_basename file_path) j)) = true.
Proof.
  intros Hfuel. unfold choose_dest.
  set (f := os_path_basename file_path).
  destruct (free_name_loop fuel w dest f (f +:+ ".txt")
              (os_path_join dest (f +:+ ".txt")) 1)
    as [[[name' path'] counter']|] eqn:Hloop.
  - apply free_name_loop_some in Hloop.
    destruct Hloop as [Hfree [(-> & -> & ->)|(Hlt & -> & -> & Hfirst & Hall)]].
    + exists 0. repeat split; auto. intros j Hj. lia.
    + exists (counter' - 1).
      replace (S (counter' - 1)) with counter' by lia.
      assert (Hc : candidate f (counter' - 1) = numbered_name f (counter' - 1)).
      { unfold candidate. destruct (counter' - 1) eqn:E; [lia | reflexivity]. }
      rewrite Hc. repeat split; auto.
      intros j Hj. destruct j as [|j]; [exact Hfirst|].
      apply Hall. lia.
  - exfalso. revert Hloop. apply free_name_loop_total; [|exact Hfuel].
    apply basename_no_sep.
Qed.

Lemma grows_same_tree w w' :
  root w' = root w -> cwd w' = cwd w -> grows 1 w w'.
Proof.
  intros Hr Hc. split; [exact Hc|]. rewrite Hr.
  split; [apply extends_refl | lia].
Qed.

(** A copy to a path that does not exist adds at most one file and
    changes nothing else, whether it succeeds or fails. *)
Lemma shutil_copy2_fresh w src dst :
  os_path_exists w dst = false ->
  exists w',
    grows 1 w w' /\ out w' = out w /\
    (shutil_copy2 src dst w = Ok tt w' \/
     exists e, shutil_copy2 src dst w = Raised e w').
Proof.
  intros Hex.
  assert (Hdir : os_path_isdir w dst = false).
  { unfold os_path_isdir. unfold os_path_exists in Hex.
    now destruct (resolve w dst). }
  assert (Hget : forall qd, canon_path w dst = Some qd -> get (root w) qd = None).
  { intros qd Hqd. unfold os_path_exists, resolve in Hex. rewrite Hqd in Hex.
    now destruct (get (root w) qd). }
  unfold shutil_copy2, bind, get_world. rewrite Hdir.
  set (w1 := match faults w with
             | [] => w
             | _ :: fs => mkWorld (root w) (cwd w) fs (out w)
             end).
  assert (Hw1 : grows 1 w w1 /\ out w1 = out w).
  { unfold w1. destruct (faults w); split; try reflexivity;
      now apply grows_same_tree. }
  destruct Hw1 as [Hg1 Ho1].
  assert (Hnf : exists f, next_fault w = Ok f w1).
  { unfold next_fault, w1. destruct (faults w) as [|f fs]; eauto. }
  destruct Hnf as [f ->].
  assert (Hstay : forall e, exists w',
             grows 1 w w' /\ out w' = out w /\
             (@raise unit e w1 = Ok tt w' \/
              exists e', @raise unit e w1 = Raised e' w')).
  { intros e. exists w1. split; [exact Hg1|]. split; [exact Ho1|].
    right. now exists e. }
  destruct (canon_path w src) as [qs|] eqn:Hqs;
    destruct (canon_path w dst) as [qd|] eqn:Hqd;
    try (destruct f; apply Hstay).
  destruct (get (root w) qs) as [[data|es]|] eqn:Hsrc;
    try (destruct f; apply Hstay).
  rewrite (Hget qd eq_refl). cbn [is_dir].
  destruct (list_eq_dec string_dec qs qd) as [Heq|Hne];
    [destruct f; apply Hstay|].
  assert (Hput : forall written,
             match put (root w) qd (File written) with
             | Some r' => grows 1 w (mkWorld r' (cwd w1) (faults w1) (out w1))
             | None => True
             end).
  { intros written.
    destruct (put (root w) qd (File written)) as [r'|] eqn:Hp; [|exact I].
    destruct (put_fresh _ _ _ _ (Hget qd eq_refl) Hp) as [He Hs].
    destruct Hg1 as (Hc1 & _ & _).
    split; [exact Hc1|]. split; [exact He|]. simpl in *. lia. }
  destruct f as [| |part]; [|apply Hstay|].
  - specialize (Hput data).
    destruct (put (root w) qd (File data)) as [r'|]; [|apply Hstay].
    eexists. split; [exact Hput|]. split; [exact Ho1|]. left. reflexivity.
  - specialize (Hput part).
    destruct (put (root w) qd (File part)) as [r'|]; [|apply Hstay].
    eexists. split; [exact Hput|]. split; [exact Ho1|]. right.
    eexists. reflexivity.
Qed.

(** One turn of the batch: the file is copied under the first free
    candidate, or the failure is reported; either way the turn ends
    normally and one counter moves. *)
Lemma copy_step_spec fuel dest file_path c e w :
  size (root w) < fuel ->
  exists k w' m,
    choose_dest fuel w dest file_path =
      Some (candidate (os_path_basename file_path) k,
            os_path_join dest (candidate (os_path_basename file_path) k),
            S k) /\
    os_path_exists w
      (os_path_join dest (candidate (os_path_basename file_path) k)) = false /\
    (forall j, j < k ->
       os_path_exists w
         (os_path_join dest (candidate (os_path_basename file_path) j)) = true) /\
    grows 1 w w' /\ out w' = out w ++ [m] /\
    ((copy_step fuel dest file_path c e w = Ok (c + 1, e) w' /\
      m = MsgCopied (os_path_basename file_path)
                    (candidate (os_path_basename file_path) k)) \/
     (copy_step fuel dest file_path c e w = Ok (c, e + 1) w' /\
      exists ex, m = MsgCopyError file_path ex)).
Proof.
  intros Hfuel.
  pose proof (listing_lt_size w dest) as Hl.
  destruct (choose_dest_spec fuel w dest file_path) as (k & Hk & Hfree & Hmin);
    [lia|].
  exists k.
  destruct (shutil_copy2_fresh w file_path _ Hfree)
    as (w1 & Hg & Ho & [Hcp|[ex Hcp]]).
  - eexists (printed w1 [_]), _. split; [exact Hk|].
    split; [exact Hfree|]. split; [exact Hmin|].
    split; [exact Hg|]. split; [simpl; now rewrite Ho|].
    left. split; [|reflexivity].
    unfold copy_step, try_except, copy_one, bind, get_world.
    rewrite Hk, Hcp. reflexivity.
  - eexists (printed w1 [_]), _. split; [exact Hk|].
    split; [exact Hfree|]. split; [exact Hmin|].
    split; [exact Hg|]. split; [simpl; now rewrite Ho|].
    right. split; [|now exists ex].
    unfold copy_step, try_except, copy_one, bind, get_world.
    rewrite Hk, Hcp. reflexivity.
Qed.

Lemma copy_loop_app fuel dest pre post c e w :
  copy_loop fuel dest (pre ++ post) c e w =
  bind (copy_loop fuel dest pre c e)
       (fun counts => copy_loop fuel dest post (fst counts) (snd counts)) w.
Proof.
  revert c e w. induction pre as [|f pre IH]; intros c e w; simpl.
  - reflexivity.
  - unfold bind.
    destruct (copy_step fuel dest f c e w) as [[c1 e1] w1| | |];
      try reflexivity.
    apply IH.
Qed.

(** The whole batch: every item is tried, and each one moves exactly one
    of the two counters. *)
Lemma copy_loop_spec fuel dest files c e w :
  size (root w) + List.length files <= fuel ->
  exists w' log,
    copy_loop fuel dest files c e w =
      Ok (c + count_copied log, e + count_errors log) w' /\
    grows (List.length files) w w' /\
    out w' = out w ++ log /\
    List.length log = List.length files /\
    count_copied log + count_errors log = List.length files.
Proof.
  revert c e w. induction files as [|f files IH]; intros c e w Hfuel.
  - exists w, []. cbn. rewrite !Nat.add_0_r, app_nil_r.
    split; [reflexivity|]. split; [apply grows_refl|]. repeat split.
  - simpl in Hfuel.
    destruct (copy_step_spec fuel dest f c e w)
      as (k & w1 & m & _ & _ & _ & Hg & Ho & Hstep);
      [lia|].
    assert (Hs1 : size (root w1) + List.length files <= fuel).
    { destruct Hg as (_ & _ & Hs). lia. }
    destruct Hstep as [[Hstep ->]|[Hstep [ex ->]]].
    + destruct (IH (c + 1) e w1 Hs1)
        as (w' & log & Hrun & Hg' & Ho' & Hlen & Hcount).
      exists w', (MsgCopied (os_path_basename f)
                            (candidate (os_path_basename f) k) :: log).
      simpl. unfold bind. rewrite Hstep. simpl. rewrite Hrun.
      split; [f_equal; f_equal; unfold count_copied, count_errors; simpl; lia|].
      split; [apply (grows_trans 1 _ _ _ _ Hg Hg')|].
      split; [rewrite Ho', Ho, <- app_assoc; reflexivity|].
      split; [simpl; lia|].
      unfold count_copied, count_errors in *. simpl. lia.
    + destruct (IH c (e + 1) w1 Hs1)
        as (w' & log & Hrun & Hg' & Ho' & Hlen & Hcount).
      exists w', (MsgCopyError f ex :: log).
      simpl. unfold bind. rewrite Hstep. simpl. rewrite Hrun.
      split; [f_equal; f_equal; unfold count_copied, count_errors; simpl; lia|].
      split; [apply (grows_trans 1 _ _ _ _ Hg Hg')|].
      split; [rewrite Ho', Ho, <- app_assoc; reflexivity|].
      split; [simpl; lia|].
      unfold count_copied, count_errors in *. simpl. lia.
Qed.

(** The state in which the batch reaches one of its files, and what it
    does there. *)
Lemma batch_turn fuel dest pre f post w :
  size (root w) + List.length (pre ++ f :: post) <= fuel ->
  exists c e w_mid k w_next m,
    copy_loop fuel dest pre 0 0 w = Ok (c, e) w_mid /\
    grows (List.length pre) w w_mid /\
    choose_dest fuel w_mid dest f =
      Some (candidate (os_path_basename f) k,
            os_path_join dest (candidate (os_path_basename f) k), S k) /\
    os_path_exists w_mid
      (os_path_join dest (candidate (os_path_basename f) k)) = false /\
    (forall j, j < k ->
       os_path_exists w_mid
         (os_path_join dest (candidate (os_path_basename f) j)) = true) /\
    out w_next = out w_mid ++ [m] /\
    ((copy_step fuel dest f c e w_mid = Ok (c + 1, e) w_next /\
      m = MsgCopied (os_path_basename f) (candidate (os_path_basename f) k)) \/
     (copy_step fuel dest f c e w_mid = Ok (c, e + 1) w_next /\
      exists ex, m = MsgCopyError f ex)) /\
    copy_loop fuel dest (pre ++ f :: post) 0 0 w =
      bind (copy_step fuel dest f c e)
           (fun counts => copy_loop fuel dest post (fst counts) (snd counts))
           w_mid.
Proof.
  rewrite length_app. simpl. intros Hfuel.
  destruct (copy_loop_spec fuel dest pre 0 0 w) as (w_mid & log & Hrun & Hg & _);
    [lia|].
  simpl in Hrun.
  assert (Hsize : size (root w_mid) < fuel).
  { destruct Hg as (_ & _ & Hs). lia. }
  destruct (copy_step_spec fuel dest f (count_copied log) (count_errors log)
              w_mid Hsize)
    as (k & w_next & m & Hk & Hfree & Hmin & _ & Ho & Hstep).
  exists (count_copied log), (count_errors log), w_mid, k, w_next, m.
  repeat (split; [assumption|]).
  rewrite copy_loop_app. unfold bind at 1. rewrite Hrun. reflexivity.
Qed.

(** The names that were tried and found taken are entries of the
    destination directory. *)
Lemma tried_bound w dest f k :
  has_char sep f = false ->
  (forall j, j < k ->
     os_path_exists w (os_path_join dest (candidate f j)) = true) ->
  k <= List.length (listing w dest) + 1.
Proof.
  intros Hf Hall.
  assert (Hincl : incl (map (numbered_name f) (seq 1 (k - 1)))
                       (map fst (listing w dest))).
  { intros x Hx. apply in_map_iff in Hx as (j & <- & Hj).
    apply in_seq in Hj. apply exists_join_listed.
    - now apply numbered_name_plain.
    - destruct j as [|j]; [lia|]. apply (Hall (S j)). lia. }
  apply NoDup_incl_length in Hincl; [|apply numbered_names_NoDup].
  rewrite !length_map, length_seq in Hincl. lia.
Qed.

Lemma copy_and_rename_files_spec fuel files dest w :
  size (root w) + List.length files <= fuel ->
  exists w' log,
    copy_and_rename_files fuel files dest w =
      Ok tt (printed w'
               [match files with
                | [] => MsgNothingToCopy
                | _ => MsgSummary (count_copied log) (count_errors log)
                end]) /\
    copy_loop fuel dest files 0 0 w =
      Ok (count_copied log, count_errors log) w' /\
    grows (List.length files) w w' /\
    out w' = out w ++ log /\
    List.length log = List.length files /\
    count_copied log + count_errors log = List.length files.
Proof.
  intros Hfuel.
  destruct (copy_loop_spec fuel dest files 0 0 w Hfuel)
    as (w' & log & Hrun & Hg & Ho & Hlen & Hcount).
  simpl in Hrun. exists w', log.
  split; [|split; [exact Hrun|]; split; [exact Hg|]; repeat split; assumption].
  destruct files as [|f files].
  - simpl in Hrun. unfold ret in Hrun. injection Hrun as _ _ <-. reflexivity.
  - unfold copy_and_rename_files, bind. rewrite Hrun. reflexivity.
Qed.

End Copy.

(** ** The locator *)

Section Locator.

Variable file_formats : list string.

(** The test of line 57 on a file name. *)
Let matches (file : string) : Prop :=
  In (PyStr.lower (snd (os_path_splitext file))) file_formats.

Lemma mem_In x l : PyStr.mem x l = true <-> In x l.
Proof.
  unfold PyStr.mem. rewrite existsb_exists. split.
  - intros (y & Hy & Heq). apply String.eqb_eq in Heq. now subst.
  - intros H. exists x. split; [exact H | apply String.eqb_refl].
Qed.

Lemma scan_files_In top files acc p :
  In p (scan_files file_formats top files acc) <->
  In p acc \/ exists f, In f files /\ matches f /\ p = os_path_join top f.
Proof.
  unfold scan_files.
  revert acc. induction files as [|f files IH]; intros acc; simpl.
  - split; [auto | intros [H|(f & [] & _)]; exact H].
  - rewrite IH. clear IH.
    destruct (PyStr.mem _ file_formats) eqn:Hm.
    + apply mem_In in Hm. rewrite in_app_iff. simpl. split.
      * intros [[H|[<-|[]]]|(g & Hg & Hmg & ->)]; eauto 7.
      * intros [H|(g & [<-|Hg] & Hmg & ->)]; eauto 7.
    + split.
      * intros [H|(g & Hg & Hmg & ->)]; eauto 7.
      * intros [H|(g & [<-|Hg] & Hmg & ->)]; eauto 7.
        exfalso. apply mem_In in Hmg. congruence.
Qed.

Lemma scan_walk_In triples acc p :
  In p (scan_walk file_formats triples acc) <->
  In p acc \/
  exists top ds fs f,
    In (top, ds, fs) triples /\ In f fs /\ matches f /\ p = os_path_join top f.
Proof.
  unfold scan_walk.
  revert acc. induction triples as [|[[top ds] fs] triples IH]; intros acc; simpl.
  - split; [auto | intros [H|(? & ? & ? & ? & [] & _)]; exact H].
  - rewrite IH, scan_files_In. clear IH. split.
    + intros [[H|(f & Hf & Hm & ->)]|(t & d & l & f & Ht & Hf & Hm & ->)].
      * now left.
      * right. exists top, ds, fs, f. auto.
      * right. exists t, d, l, f. auto.
    + intros [H|(t & d & l & f & [Ht|Ht] & Hf & Hm & ->)].
      * auto.
      * injection Ht as -> -> ->. left. right. eauto.
      * right. exists t, d, l, f. auto.
Qed.

Lemma file_names_In es f :
  In f (file_names es) <-> exists d, In (f, File d) es.
Proof.
  unfold file_names. rewrite in_map_iff. split.
  - intros ([k n] & <- & Hin). apply filter_In in Hin as [Hin Hfile].
    destruct n as [d|]; [|discriminate]. now exists d.
  - intros (d & Hin). exists (f, File d). split; [reflexivity|].
    apply filter_In. split; [exact Hin | reflexivity].
Qed.

Lemma in_tree_snoc cs f t n :
  in_tree (cs ++ [f]) t n <-> exists es, in_tree cs t (Dir es) /\ In (f, n) es.
Proof.
  revert t. induction cs as [|c cs IH]; intros t; simpl.
  - split.
    + intros H. inversion H as [|? ? ? ? ? Hin Hrest]; subst.
      inversion Hrest; subst. eexists. split; [constructor | exact Hin].
    + intros (es & Ht & Hin). inversion Ht; subst.
      econstructor; [exact Hin | constructor].
  - split.
    + intros H. inversion H as [|? ? ? ? ? Hin Hrest]; subst.
      apply IH in Hrest as (es' & Hm & Hf).
      exists es'. split; [econstructor; eassumption | exact Hf].
    + intros (es' & Ht & Hf). inversion Ht as [|? ? ? ? ? Hin Hrest]; subst.
      econstructor; [exact Hin|]. apply IH. eauto.
Qed.

(** [os.walk] visits exactly the directories of the tree, each under the
    path that leads to it. *)
Lemma walk_node_In n : forall top top' ds fs,
  In (top', ds, fs) (walk_node top n) <->
  exists cs es,
    in_tree cs n (Dir es) /\ top' = join_all top cs /\
    ds = dir_names es /\ fs = file_names es.
Proof.
  induction n as [d|es IH] using node_induction; intros top top' ds fs.
  - simpl. split; [tauto|]. intros (cs & es & H & _). inversion H.
  - rewrite Forall_forall in IH. simpl. rewrite in_flat_map. split.
    + intros [Heq|([name m] & Hin & Hsub)].
      * injection Heq as <- <- <-. exists [], es.
        repeat split. constructor.
      * apply (IH _ Hin) in Hsub as (cs & es' & Ht & -> & -> & ->).
        exists (name :: cs), es'. repeat split.
        econstructor; eassumption.
    + intros (cs & es' & Ht & -> & -> & ->).
      inversion Ht as [|name m ? cs' ? Hin Hrest]; subst.
      * now left.
      * right. exists (name, m). split; [exact Hin|].
        apply (IH _ Hin). exists cs', es'. repeat split. exact Hrest.
Qed.

(** The files found below a node: the files of the tree whose lower-cased
    extension is in the filter. *)
Lemma scan_walk_node_In top n p :
  In p (scan_walk file_formats (walk_node top n) []) <->
  exists cs f d,
    in_tree (cs ++ [f]) n (File d) /\ matches f /\
    p = join_all top (cs ++ [f]).
Proof.
  rewrite scan_walk_In. split.
  - intros [[]|(t & ds & fs & f & Hw & Hf & Hm & ->)].
    apply walk_node_In in Hw as (cs & es & Ht & -> & -> & ->).
    apply file_names_In in Hf as (d & Hin).
    exists cs, f, d. split; [apply in_tree_snoc; eauto|].
    split; [exact Hm|]. unfold join_all. now rewrite fold_left_app.
  - intros (cs & f & d & Ht & Hm & ->). right.
    apply in_tree_snoc in Ht as (es & Ht & Hin).
    exists (join_all top cs), (dir_names es), (file_names es), f.
    split; [apply walk_node_In; exists cs, es; auto|].
    split; [apply file_names_In; eauto|].
    split; [exact Hm|]. unfold join_all. now rewrite fold_left_app.
Qed.

(** The locator never fails and leaves the file system as it is. *)
Lemma find_files_by_format_ok source_dir w :
  exists log,
    find_files_by_format source_dir file_formats w =
      Ok (match resolve w source_dir with
          | Some n => scan_walk file_formats (walk_node source_dir n) []
          | None => []
          end)
         (printed w log).
Proof.
  unfold find_files_by_format, bind, get_world, os_path_exists, os_walk.
  destruct (resolve w source_dir) as [n|]; simpl.
  - eexists [_; _; _]. unfold printed. rewrite <- !app_assoc. reflexivity.
  - eexists [_]. reflexivity.
Qed.

End Locator.

(** ** Returned paths and the tree *)

Section Paths.

Lemma distinct_NoDup l : distinct l = true -> NoDup l.
Proof.
  induction l as [|x l IH]; simpl; [constructor|].
  intros H. apply andb_true_iff in H as [Hx Hl].
  constructor; [|now apply IH].
  intros Hin. apply mem_In in Hin. rewrite Hin in Hx. discriminate.
Qed.

Lemma valid_tree_Dir es :
  valid_tree (Dir es) = true ->
  NoDup (map fst es) /\
  forall name m, In (name, m) es ->
                 plain_name name = true /\ valid_tree m = true.
Proof.
  simpl. intros H. apply andb_true_iff in H as [Hall Hnd]. split.
  - now apply distinct_NoDup.
  - intros name m Hin. rewrite forallb_forall in Hall.
    apply Hall in Hin. now apply andb_true_iff in Hin.
Qed.

Lemma in_tree_valid cs t n :
  in_tree cs t n -> valid_tree t = true ->
  get t cs = Some n /\ Forall (fun c => plain_name c = true) cs /\
  valid_tree n = true.
Proof.
  induction 1 as [t|name m es cs n Hin Hrest IH]; intros Hv.
  - auto.
  - destruct (valid_tree_Dir _ Hv) as [Hnd Hall].
    destruct (Hall _ _ Hin) as [Hp Hm].
    destruct (IH Hm) as (Hget & Hcs & Hn).
    simpl. rewrite (In_lookup _ _ _ Hnd Hin). auto.
Qed.

Lemma join_plain d c :
  plain_name c = true -> d <> "" ->
  exists x, os_path_join d c = d +:+ x /\ x <> "" /\
            (PyStr.ends_with sep d = true \/ PyStr.starts_with sep x = true).
Proof.
  intros Hp Hd. destruct (plain_name_inv _ Hp) as [Hne Hsep].
  unfold os_path_join.
  destruct (PyStr.starts_with sep c) eqn:Hst.
  { apply starts_with_has_char in Hst. congruence. }
  apply String.eqb_neq in Hd. rewrite Hd. simpl.
  destruct (PyStr.ends_with sep d).
  - exists c. auto.
  - exists (String sep c). repeat split; [discriminate|].
    right. reflexivity.
Qed.

Lemma join_all_form d cs :
  Forall (fun c => plain_name c = true) cs -> d <> "" ->
  exists rest, join_all d cs = d +:+ rest.
Proof.
  intros Hcs. revert d. induction Hcs as [|c cs Hc Hcs IH]; intros d Hd.
  - exists "". simpl. now rewrite append_nil_r.
  - destruct (join_plain d c Hc Hd) as (x & Hx & _).
    destruct (IH (os_path_join d c)) as (rest & Hrest).
    { rewrite Hx. now apply append_not_nil. }
    exists (x +:+ rest). unfold join_all in *. cbn [fold_left].
    now rewrite Hrest, Hx, append_assoc.
Qed.

Lemma join_all_under d cs :
  Forall (fun c => plain_name c = true) cs -> cs <> [] -> d <> "" ->
  exists rest,
    join_all d cs = d +:+ rest /\ rest <> "" /\
    (PyStr.ends_with sep d = true \/ PyStr.starts_with sep rest = true).
Proof.
  intros Hcs Hne Hd. destruct Hcs as [|c cs Hc Hcs]; [congruence|].
  destruct (join_plain d c Hc Hd) as (x & Hx & Hxne & Hb).
  destruct (join_all_form (os_path_join d c) cs Hcs) as (rest & Hrest).
  { rewrite Hx. now apply append_not_nil. }
  exists (x +:+ rest). unfold join_all in *. cbn [fold_left].
  rewrite Hrest, Hx, append_assoc. split; [reflexivity|].
  split; [now apply append_not_nil|].
  destruct Hb as [Hb|Hb]; [now left|].
  right. now rewrite starts_with_append.
Qed.

Lemma prefix_append (a b : string) : String.prefix a (a +:+ b) = true.
Proof.
  induction a as [|c a IH]; simpl; [now destruct b|].
  destruct (ascii_dec c c); [exact IH | congruence].
Qed.

(** Joining plain names to a path follows them in the tree. *)
Lemma join_all_resolve w d cs :
  Forall (fun c => plain_name c = true) cs -> d <> "" ->
  resolve w (join_all d cs) =
  match resolve w d with Some t => get t cs | None => None end.
Proof.
  intros Hcs. revert d. induction Hcs as [|c cs Hc Hcs IH]; intros d Hd.
  - simpl. now destruct (resolve w d).
  - destruct (join_plain d c Hc Hd) as (x & Hx & _).
    unfold join_all in *. cbn [fold_left]. rewrite IH.
    + rewrite (resolve_join _ _ _ Hc).
      apply String.eqb_neq in Hd. rewrite Hd.
      destruct (resolve w d) as [[data|es]|]; reflexivity.
    + rewrite Hx. now apply append_not_nil.
Qed.

Lemma resolve_not_nil w d t : resolve w d = Some t -> d <> "".
Proof. intros H ->. discriminate. Qed.

End Paths.

(** ** Fuel *)

Section Fuel.

Lemma split_length c s : List.length (PyStr.split c s) <= S (String.length s).
Proof.
  induction s as [|a s IH]; simpl; [lia|].
  destruct (Ascii.eqb a c); simpl; [lia|].
  destruct (PyStr.split c s); simpl in *; lia.
Qed.

Lemma removelast_length {A} (l : list A) :
  List.length (removelast l) <= List.length l.
Proof.
  induction l as [|a l IH]; simpl; [lia|].
  destruct l; simpl in *; lia.
Qed.

Lemma mkdirs_size r cur cs :
  size (fst (mkdirs r cur cs)) <= size r + List.length cs.
Proof.
  revert r cur. induction cs as [|c cs IH]; intros r cur;
    cbn [mkdirs List.length]; [simpl; lia|].
  destruct (is_dir (get r cur)).
  - cbv zeta. destruct (get r (step cur c)) eqn:Hnext.
    + specialize (IH r (step cur c)). lia.
    + destruct (put r (step cur c) (Dir [])) as [r1|] eqn:Hput; [|simpl; lia].
      destruct (put_fresh _ _ _ _ Hnext Hput) as [_ Hs].
      specialize (IH r1 (step cur c)). simpl in Hs. lia.
  - destruct (forallb _ _); simpl; lia.
Qed.

(** What [mkdirs] reaches extends the tree it started from, whether it
    fails or not. *)
Lemma mkdirs_extends r cs : forall cur r' o,
  mkdirs r cur cs = (r', o) -> extends r r'.
Proof.
  revert r. induction cs as [|c cs IH]; intros r cur r' o; cbn [mkdirs].
  - intros [= <- _]. apply extends_refl.
  - destruct (is_dir (get r cur)).
    + cbv zeta. destruct (get r (step cur c)) eqn:Hnext.
      * apply IH.
      * destruct (put r (step cur c) (Dir [])) as [r1|] eqn:Hput.
        -- intros H. apply IH in H.
           destruct (put_fresh _ _ _ _ Hnext Hput) as [He _].
           eapply extends_trans; eassumption.
        -- intros [= <- _]. apply extends_refl.
    + destruct (forallb _ _); intros [= <- _]; apply extends_refl.
Qed.

Lemma scan_files_length F top files acc :
  List.length (scan_files F top files acc) <=
  List.length acc + List.length files.
Proof.
  unfold scan_files. revert acc.
  induction files as [|f files IH]; intros acc; simpl; [lia|].
  destruct (PyStr.mem _ F).
  - specialize (IH (acc ++ [os_path_join top f])).
    rewrite length_app in IH. simpl in IH. lia.
  - specialize (IH acc). lia.
Qed.

Lemma scan_walk_length F triples acc :
  List.length (scan_walk F triples acc) <=
  List.length acc +
  list_sum (map (fun t => List.length (snd t)) triples).
Proof.
  unfold scan_walk. revert acc.
  induction triples as [|[[top ds] fs] triples IH]; intros acc; simpl; [lia|].
  specialize (IH (scan_files F top fs acc)).
  pose proof (scan_files_length F top fs acc). lia.
Qed.

Lemma walk_node_files n : forall top,
  list_sum (map (fun t => List.length (snd t)) (walk_node top n)) +
  (if is_file n then 1 else 0) <= size n.
Proof.
  induction n as [d|es IH] using node_induction; intros top; simpl; [lia|].
  rewrite Nat.add_0_r. apply le_S.
  induction IH as [|[name m] es Hm Hes IHes]; simpl; [lia|].
  rewrite map_app, list_sum_app. specialize (Hm (os_path_join top name)).
  unfold file_names in *. simpl in *.
  destruct (is_file m); simpl; lia.
Qed.

(** The locator returns no more paths than the tree has nodes. *)
Lemma found_length F source_dir w :
  List.length
    (match resolve w source_dir with
     | Some n => scan_walk F (walk_node source_dir n) []
     | None => []
     end) <= size (root w).
Proof.
  unfold resolve. destruct (canon_path w source_dir) as [q|]; simpl; [|lia].
  destruct (get (root w) q) as [n|] eqn:Hq; simpl; [|lia].
  pose proof (scan_walk_length F (walk_node source_dir n) []) as H1.
  pose proof (walk_node_files n source_dir) as H2.
  apply get_size in Hq. simpl in H1. lia.
Qed.

End Fuel.

(** ** The program as a whole *)

Section Main.

(** Every outcome of [os.makedirs] is a return or an exception, in a world
    whose tree extends the old one by at most one directory per component. *)
Lemma os_makedirs_cases name w :
  exists r',
    extends (root w) r' /\
    size r' <= size (root w) + S (String.length name) /\
    (os_makedirs name w = Ok tt (mkWorld r' (cwd w) (tl (faults w)) (out w)) \/
     exists e,
       os_makedirs name w =
         Raised e (mkWorld r' (cwd w) (tl (faults w)) (out w))).
Proof.
  pose proof (split_length sep name) as Hlen.
  pose proof (removelast_length (PyStr.split sep name)) as Hlen'.
  unfold os_makedirs, bind, next_fault, get_world, set_root, raise, ret.
  destruct w as [r c fs o]. cbn [faults root cwd out].
  destruct fs as [|[| |part] fs]; cbn [tl faults root cwd out].
  1, 2: destruct (String.eqb name "");
    [exists r; split; [apply extends_refl|]; split; [lia|]; right; eauto|];
    pose proof (mkdirs_size r (if PyStr.starts_with sep name then [] else c)
                  (PyStr.split sep name)) as Hs;
    destruct (mkdirs r (if PyStr.starts_with sep name then [] else c)
                (PyStr.split sep name)) as [r' oe] eqn:Hmk;
    exists r'; split; [exact (mkdirs_extends _ _ _ _ _ Hmk)|];
    split; [simpl in Hs; lia|];
    cbn [fst snd]; destruct oe as [e|]; [right; eauto | left; reflexivity].
  - exists r. split; [apply extends_refl|]. split; [lia|]. right. eauto.
  - pose proof (mkdirs_size r (if PyStr.starts_with sep name then [] else c)
                  (removelast (PyStr.split sep name))) as Hs.
    destruct (mkdirs r (if PyStr.starts_with sep name then [] else c)
                (removelast (PyStr.split sep name))) as [r' oe] eqn:Hmk.
    exists r'. split; [exact (mkdirs_extends _ _ _ _ _ Hmk)|].
    split; [simpl in Hs; lia|].
    right. exists OSError. reflexivity.
Qed.

Lemma os_makedirs_outcome name w :
  (exists w1,
      os_makedirs name w = Ok tt w1 /\ out w1 = out w /\
      size (root w1) <= size (root w) + S (String.length name)) \/
  (exists e w1, os_makedirs name w = Raised e w1 /\ out w1 = out w).
Proof.
  destruct (os_makedirs_cases name w) as (r' & _ & Hs & [H|[e H]]).
  - left. eexists. split; [exact H|]. split; [reflexivity | exact Hs].
  - right. eexists _, _. split; [exact H | reflexivity].
Qed.

(** Preparing the destination either succeeds or exits with status 1. *)
Lemma create_destination_dir_outcome dest_path w :
  (exists w1,
      os_makedirs dest_path w = Ok tt w1 /\
      create_destination_dir dest_path w =
        Ok tt (printed w1 [MsgDestReady dest_path]) /\
      size (root w1) <= size (root w) + S (String.length dest_path)) \/
  (exists e w1,
      os_makedirs dest_path w = Raised e w1 /\
      create_destination_dir dest_path w =
        Exited 1 (printed w1 [MsgDestError dest_path e])).
Proof.
  unfold create_destination_dir, try_except, bind.
  destruct (os_makedirs_outcome dest_path w)
    as [(w1 & -> & _ & Hs)|(e & w1 & -> & _)].
  - left. exists w1. auto.
  - right. exists e, w1. auto.
Qed.

(** A run of [main] with enough fuel: it ends normally when the
    destination could be prepared, and exits with status 1 when not. *)
Lemma main_outcome fuel a w :
  main_fuel (destination a) w <= fuel ->
  let w0 := printed w [MsgBanner (source a) (destination a)
                                 (parse_file_formats (formats a))] in
  (exists w1 w',
      os_makedirs (destination a) w0 = Ok tt w1 /\
      main fuel a w = Ok tt w') \/
  (exists e w1,
      os_makedirs (destination a) w0 = Raised e w1 /\
      main fuel a w =
        Exited 1 (printed w1 [MsgDestError (destination a) e])).
Proof.
  intros Hfuel w0.
  assert (Hmain : main fuel a w =
            bind (create_destination_dir (destination a))
              (fun _ =>
                 bind (find_files_by_format (source a)
                         (parse_file_formats (formats a)))
                   (fun files_to_copy =>
                      bind (copy_and_rename_files fuel files_to_copy
                              (destination a))
                        (fun _ => print MsgDone))) w0) by reflexivity.
  rewrite Hmain. clear Hmain.
  destruct (create_destination_dir_outcome (destination a) w0)
    as [(w1 & Hmk & Hc & Hs)|(e & w1 & Hmk & Hc)].
  - left. exists w1. unfold bind at 1. rewrite Hc. unfold bind at 1.
    destruct (find_files_by_format_ok (parse_file_formats (formats a))
                (source a) (printed w1 [MsgDestReady (destination a)]))
      as [log ->].
    set (files := match resolve _ (source a) with
                  | Some n => scan_walk _ (walk_node (source a) n) []
                  | None => []
                  end).
    assert (Hlen : List.length files <= size (root w1)).
    { apply (found_length (parse_file_formats (formats a)) (source a)
                          (printed w1 [MsgDestReady (destination a)])). }
    unfold bind.
    destruct (copy_and_rename_files_spec fuel files (destination a)
                (printed (printed w1 [MsgDestReady (destination a)]) log))
      as (w' & log' & -> & _).
    { unfold main_fuel in Hfuel. simpl in *. lia. }
    eexists. split; [exact Hmk | reflexivity].
  - right. exists e, w1. unfold bind at 1. rewrite Hc.
    split; [exact Hmk | reflexivity].
Qed.

Lemma lower_char_idem c : PyStr.lower_char (PyStr.lower_char c) = PyStr.lower_char c.
Proof. destruct c as [[] [] [] [] [] [] [] []]; reflexivity. Qed.

Lemma lower_idem s : PyStr.lower (PyStr.lower s) = PyStr.lower s.
Proof.
  induction s as [|c s IH]; simpl; [reflexivity|].
  now rewrite lower_char_idem, IH.
Qed.

End Main.

(** ** The model on concrete inputs *)

Example splitext_examples :
  os_path_splitext "index.php" = ("index", ".php") /\
  os_path_splitext "archive.tar.gz" = ("archive.tar", ".gz") /\
  os_path_splitext ".bashrc" = (".bashrc", "") /\
  os_path_splitext "Makefile" = ("Makefile", "") /\
  os_path_splitext "a." = ("a", ".") /\
  os_path_splitext "d.x/abc" = ("d.x/abc", "").
Proof. repeat split. Qed.

Example path_examples :
  os_path_basename "/src/sub/a.py" = "a.py" /\
  os_path_basename "a.py" = "a.py" /\
  os_path_basename "/src/" = "" /\
  os_path_join "/dst" "a.py.txt" = "/dst/a.py.txt" /\
  os_path_join "/dst/" "a.py.txt" = "/dst/a.py.txt" /\
  os_path_join "" "a.py.txt" = "a.py.txt" /\
  os_path_join "/dst" "/etc" = "/etc".
Proof. repeat split. Qed.

Example parse_file_formats_examples :
  parse_file_formats ".php,.js,.py,.html,.css,.txt" =
    [".php"; ".js"; ".py"; ".html"; ".css"; ".txt"] /\
  parse_file_formats "php, js ,html" = [".php"; ".js"; ".html"] /\
  parse_file_formats "" = ["."].
Proof. repeat split. Qed.

Example candidate_examples :
  candidate "index.php" 0 = "index.php.txt" /\
  candidate "index.php" 1 = "index_1.php.txt" /\
  candidate "index.php" 12 = "index_12.php.txt" /\
  candidate "Makefile" 2 = "Makefile_2.txt".
Proof. repeat split. Qed.

(** Three files, two of them in the filter. *)
Example locate_flat :
  returned (find_files_by_format "/src" [".py"; ".js"] (world_of flat_root)) =
    Some ["/src/a.py"; "/src/b.js"].
Proof. reflexivity. Qed.

(** The extension of the file is lower-cased, at any depth. *)
Example locate_demo :
  returned (find_files_by_format "/src" [".py"] (world_of demo_root)) =
    Some ["/src/a.py"; "/src/sub/d.PY"].
Proof. reflexivity. Qed.

(** Two sources with the same base name are both kept, and the counter of
    [b.py] starts at 1 although [a.py] used 1 before it. *)
Example run_twins :
  main 20 (mkArgs "/src" "/dst" "py") (world_of twin_root) =
    Ok tt
      (mkWorld
         (Dir [("src", Dir [("a.py", File "one"); ("b.py", File "B");
                            ("sub", Dir [("a.py", File "two")])]);
               ("dst", Dir [("b.py.txt", File "old"); ("a.py.txt", File "one");
                            ("b_1.py.txt", File "B"); ("a_1.py.txt", File "two")])])
         [] []
         [MsgBanner "/src" "/dst" [".py"]; MsgDestReady "/dst";
          MsgSearching "/src"; MsgFormats [".py"]; MsgFound 3;
          MsgCopied "a.py" "a.py.txt"; MsgCopied "b.py" "b_1.py.txt";
          MsgCopied "a.py" "a_1.py.txt"; MsgSummary 3 0; MsgDone]).
Proof. reflexivity. Qed.

(** A copy that fails is counted and the batch goes on. *)
Example run_with_faults :
  main 20 (mkArgs "/src" "/dst" "py")
       (mkWorld twin_root [] [NoFault; FailEarly; FailLate "B"] []) =
    Ok tt
      (mkWorld
         (Dir [("src", Dir [("a.py", File "one"); ("b.py", File "B");
                            ("sub", Dir [("a.py", File "two")])]);
               ("dst", Dir [("b.py.txt", File "old"); ("b_1.py.txt", File "B");
                            ("a.py.txt", File "two")])])
         [] []
         [MsgBanner "/src" "/dst" [".py"]; MsgDestReady "/dst";
          MsgSearching "/src"; MsgFormats [".py"]; MsgFound 3;
          MsgCopyError "/src/a.py" OSError; MsgCopyError "/src/b.py" OSError;
          MsgCopied "a.py" "a.py.txt"; MsgSummary 1 2; MsgDone]).
Proof. reflexivity. Qed.

(** An empty source directory: nothing found, nothing copied, status 0; the
    destination is created with its parents. *)
Example run_empty :
  main 20 (mkArgs "/src" "out/txt" "py") (world_of empty_root) =
    Ok tt
      (mkWorld (Dir [("src", Dir []); ("out", Dir [("txt", Dir [])])]) [] []
         [MsgBanner "/src" "out/txt" [".py"]; MsgDestReady "out/txt";
          MsgSearching "/src"; MsgFormats [".py"]; MsgFound 0;
          MsgNothingToCopy; MsgDone]).
Proof. reflexivity. Qed.

(** A destination path taken by a file: status 1, nothing is searched or
    copied. *)
Example run_blocked :
  main 20 blocked_args (world_of taken_root) =
    Exited 1
      (mkWorld taken_root [] []
         [MsgBanner "/src" "/dst/a.py.txt" [".py"];
          MsgDestError "/dst/a.py.txt" FileExistsError]).
Proof. reflexivity. Qed.

(** * The claims *)

(** ** File Locator *)

(** C5, as the code has it: only the extension of the file is lower-cased.
    A filter entry is compared as it was given, so an entry with an
    upper-case letter matches no file: [.PY] does not match [a.py], and the
    entries that are not in lower case can be dropped from any filter
    without changing what is found. *)
Theorem C5_upper_case_entry_matches_nothing :
  parse_file_formats ".PY" = [".PY"] /\
  PyStr.mem (PyStr.lower (snd (os_path_splitext "a.py")))
            (parse_file_formats ".PY") = false /\
  returned (find_files_by_format "/src" (parse_file_formats ".PY")
              (world_of taken_root)) = Some [] /\
  forall file file_formats,
    PyStr.mem (PyStr.lower (snd (os_path_splitext file))) file_formats =
    PyStr.mem (PyStr.lower (snd (os_path_splitext file)))
              (filter (fun x => String.eqb (PyStr.lower x) x) file_formats).
Proof.
  split; [reflexivity|]. split; [reflexivity|]. split; [reflexivity|].
  intros file file_formats.
  generalize (snd (os_path_splitext file)). intros e.
  induction file_formats as [|x l IH]; simpl; [reflexivity|].
  destruct (String.eqb_spec (PyStr.lower x) x) as [Hx|Hx]; simpl.
  - now rewrite IH.
  - rewrite <- IH.
    destruct (String.eqb_spec (PyStr.lower e) x) as [<-|_]; [|reflexivity].
    exfalso. apply Hx. apply lower_idem.
Qed.



(** C10: when the tree under [source_dir] is well formed, every path
    returned by [find_files_by_format] is the join of a directory reached
    from the source root with a file name listed in that directory; it
    consists of [source_dir] followed, at a component boundary, by the names
    that lead to the file, so [source_dir] is a prefix of it, and it denotes
    that file of the source tree. *)
Theorem C10_paths_stay_under_source
    (w : world) (source_dir : string) (file_formats : list string) (t : node)
    (Hroot : resolve w source_dir = Some t)
    (Hvalid : valid_tree t = true) :
  exists found w',
    find_files_by_format source_dir file_formats w = Ok found w' /\
    forall p, In p found ->
      exists cs es f data rest,
        in_tree cs t (Dir es) /\
        In f (file_names es) /\ In (f, File data) es /\
        p = os_path_join (join_all source_dir cs) f /\
        p = source_dir +:+ rest /\ rest <> "" /\
        (PyStr.ends_with sep source_dir = true \/
         PyStr.starts_with sep rest = true) /\
        String.prefix source_dir p = true /\
        resolve w p = Some (File data).
Proof.
  destruct (find_files_by_format_ok file_formats source_dir w) as [log Hrun].
  rewrite Hroot in Hrun. eexists _, _. split; [exact Hrun|].
  intros p Hp. apply scan_walk_node_In in Hp as (cs & f & data & Ht & _ & ->).
  pose proof (resolve_not_nil _ _ _ Hroot) as Hne.
  destruct (in_tree_valid _ _ _ Ht Hvalid) as (Hget & Hplain & _).
  apply in_tree_snoc in Ht as (es & Ht & Hin).
  destruct (join_all_under source_dir (cs ++ [f]) Hplain) as (rest & Hrest & Hr & Hb);
    [now destruct cs | exact Hne |].
  exists cs, es, f, data, rest.
  split; [exact Ht|]. split; [apply file_names_In; eauto|]. split; [exact Hin|].
  split; [unfold join_all; now rewrite fold_left_app|].
  split; [exact Hrest|]. split; [exact Hr|]. split; [exact Hb|].
  split; [rewrite Hrest; apply prefix_append|].
  now rewrite (join_all_resolve _ _ _ Hplain Hne), Hroot.
Qed.

Lemma C10_paths_stay_under_source_witness :
  resolve (world_of demo_root) "/src" = Some demo_src /\
  valid_tree demo_src = true /\
  exists found w',
    find_files_by_format "/src" [".py"; ".js"] (world_of demo_root) = Ok found w' /\
    forall p, In p found -> String.prefix "/src" p = true.
Proof.
  split; [reflexivity|]. split; [reflexivity|].
  destruct (C10_paths_stay_under_source (world_of demo_root) "/src"
              [".py"; ".js"] demo_src eq_refl eq_refl)
    as (found & w' & Hrun & Hall).
  exists found, w'. split; [exact Hrun|].
  intros p Hp. destruct (Hall p Hp) as (cs & es & f & data & rest & H).
  apply H.
Defined.

(** ** Copy-and-Rename Engine *)

(** C9: the collision loop ends.  The numbered names of a file are pairwise
    distinct, every one that is taken is an entry of the destination
    directory, so with more fuel than that directory has entries (plus two)
    the loop returns a free name, after at most one taken name per entry
    and the first candidate. *)
Theorem C9_collision_loop_terminates
    (fuel : nat) (w : world) (destination_dir file_path : string)
    (Hfuel : List.length (listing w destination_dir) + 1 < fuel) :
  let file_name := os_path_basename file_path in
  (forall j k, numbered_name file_name j = numbered_name file_name k -> j = k) /\
  exists k,
    choose_dest fuel w destination_dir file_path =
      Some (candidate file_name k,
            os_path_join destination_dir (candidate file_name k), S k) /\
    os_path_exists w (os_path_join destination_dir (candidate file_name k)) = false /\
    k <= List.length (listing w destination_dir) + 1.
Proof.
  intros file_name. split; [intros j k; apply numbered_name_inj|].
  destruct (choose_dest_spec fuel w destination_dir file_path Hfuel)
    as (k & Hk & Hfree & Hmin).
  exists k. split; [exact Hk|]. split; [exact Hfree|].
  apply (tried_bound w destination_dir file_name); [apply basename_no_sep|].
  exact Hmin.
Qed.

Lemma C9_collision_loop_witness :
  List.length (listing (world_of taken_root) "/dst") + 1 < 3 /\
  exists k,
    choose_dest 3 (world_of taken_root) "/dst" "/src/a.py" =
      Some (candidate "a.py" k, os_path_join "/dst" (candidate "a.py" k), S k) /\
    os_path_exists (world_of taken_root)
      (os_path_join "/dst" (candidate "a.py" k)) = false /\
    k <= List.length (listing (world_of taken_root) "/dst") + 1.
Proof.
  split; [vm_compute; lia|].
  apply (C9_collision_loop_terminates 3 (world_of taken_root) "/dst" "/src/a.py").
  vm_compute; lia.
Defined.

(** C3: the engine writes to free paths only.  Whichever file of the batch
    is reached, the path handed to [shutil.copy2] does not exist in the
    state of that moment; and after the batch every file that existed
    before it, at the destination or elsewhere, is still there with the same
    bytes, and every directory is still a directory. *)
Theorem C3_existing_files_are_kept
    (fuel : nat) (files_list : list string) (destination_dir : string)
    (w : world)
    (Hfuel : size (root w) + List.length files_list <= fuel) :
  exists w',
    copy_and_rename_files fuel files_list destination_dir w = Ok tt w' /\
    (forall p data, resolve w p = Some (File data) ->
                    resolve w' p = Some (File data)) /\
    (forall p, os_path_isdir w p = true -> os_path_isdir w' p = true) /\
    forall pre file_path post,
      files_list = pre ++ file_path :: post ->
      exists c e w_mid new_file_name dest_file_path counter,
        copy_loop fuel destination_dir pre 0 0 w = Ok (c, e) w_mid /\
        choose_dest fuel w_mid destination_dir file_path =
          Some (new_file_name, dest_file_path, counter) /\
        os_path_exists w_mid dest_file_path = false.
Proof.
  destruct (copy_and_rename_files_spec fuel files_list destination_dir w Hfuel)
    as (w' & log & Hrun & _ & Hg & _).
  eexists. split; [exact Hrun|]. split; [|split].
  - intros p data Hp.
    apply (resolve_file_grows (List.length files_list) w); [exact Hg | exact Hp].
  - intros p Hp.
    apply (resolve_dir_grows (List.length files_list) w); [exact Hg | exact Hp].
  - intros pre file_path post ->.
    destruct (batch_turn fuel destination_dir pre file_path post w Hfuel)
      as (c & e & w_mid & k & _ & _ & Hpre & _ & Hk & Hfree & _).
    eexists c, e, w_mid, _, _, _. split; [exact Hpre|].
    split; [exact Hk | exact Hfree].
Qed.

Lemma C3_existing_files_witness :
  size (root (world_of taken_root)) + List.length ["/src/a.py"] <= 8 /\
  exists w',
    copy_and_rename_files 8 ["/src/a.py"] "/dst" (world_of taken_root) = Ok tt w' /\
    resolve w' "/dst/a.py.txt" = Some (File "old").
Proof.
  split; [vm_compute; lia|].
  destruct (C3_existing_files_are_kept 8 ["/src/a.py"] "/dst" (world_of taken_root))
    as (w' & Hrun & Hfiles & _).
  - vm_compute; lia.
  - exists w'. split; [exact Hrun|]. apply Hfiles. reflexivity.
Defined.

(** * Further properties *)

(** ** [parse_file_formats] *)

Section Formats.

Lemma split_count c s : List.length (PyStr.split c s) = S (count_char c s).
Proof.
  induction s as [|a s IH]; simpl; [reflexivity|].
  destruct (Ascii.eqb a c); simpl; [now rewrite IH|].
  destruct (PyStr.split c s); simpl in *; lia.
Qed.

Lemma split_fields c s x : In x (PyStr.split c s) -> has_char c x = false.
Proof.
  revert x. induction s as [|a s IH]; simpl; intros x.
  - intros [<-|[]]. reflexivity.
  - destruct (Ascii.eqb a c) eqn:Ha.
    + intros [<-|H]; [reflexivity | now apply IH].
    + destruct (PyStr.split c s) as [|y ys] eqn:Hs.
      * intros [<-|[]]. simpl. now rewrite Ha.
      * intros [<-|H]; [|apply IH; now right].
        simpl. rewrite Ha. apply IH. now left.
Qed.

Lemma lstrip_no_char c s : has_char c s = false -> has_char c (PyStr.lstrip s) = false.
Proof.
  induction s as [|a s IH]; simpl; [reflexivity|].
  intros H. destruct (PyStr.is_space a); [|exact H].
  apply orb_false_iff in H as [_ H]. now apply IH.
Qed.

Lemma rstrip_no_char c s : has_char c s = false -> has_char c (PyStr.rstrip s) = false.
Proof.
  induction s as [|a s IH]; simpl; [reflexivity|].
  intros H. apply orb_false_iff in H as [Ha H]. specialize (IH H).
  destruct (PyStr.rstrip s) as [|b r].
  - destruct (PyStr.is_space a); simpl; [reflexivity | now rewrite Ha].
  - simpl in *. now rewrite Ha, IH.
Qed.

Lemma lstrip_idem s : PyStr.lstrip (PyStr.lstrip s) = PyStr.lstrip s.
Proof.
  induction s as [|a s IH]; simpl; [reflexivity|].
  destruct (PyStr.is_space a) eqn:Ha; [exact IH|]. simpl. now rewrite Ha.
Qed.

Lemma rstrip_idem s : PyStr.rstrip (PyStr.rstrip s) = PyStr.rstrip s.
Proof.
  induction s as [|a s IH]; simpl; [reflexivity|].
  destruct (PyStr.rstrip s) as [|b r] eqn:Hr.
  - destruct (PyStr.is_space a) eqn:Ha; simpl; [reflexivity | now rewrite Ha].
  - change (PyStr.rstrip (String a (String b r)))
      with (match PyStr.rstrip (String b r) with
            | EmptyString =>
                if PyStr.is_space a then EmptyString else String a EmptyString
            | String _ _ as t => String a t
            end).
    now rewrite IH.
Qed.

Lemma lstrip_rstrip s :
  PyStr.lstrip s = s -> PyStr.lstrip (PyStr.rstrip s) = PyStr.rstrip s.
Proof.
  destruct s as [|a s]; [reflexivity|]. simpl.
  destruct (PyStr.is_space a) eqn:Ha.
  - intros H. exfalso.
    assert (Hlen : forall t, String.length (PyStr.lstrip t) <= String.length t).
    { induction t as [|b t IHt]; simpl; [lia|].
      destruct (PyStr.is_space b); simpl; lia. }
    specialize (Hlen s). rewrite H in Hlen. simpl in Hlen. lia.
  - intros _. destruct (PyStr.rstrip s); simpl; now rewrite Ha.
Qed.

Lemma strip_idem s : PyStr.strip (PyStr.strip s) = PyStr.strip s.
Proof.
  unfold PyStr.strip.
  rewrite (lstrip_rstrip (PyStr.lstrip s) (lstrip_idem s)).
  apply rstrip_idem.
Qed.

Lemma strip_dot t :
  PyStr.rstrip t = t -> PyStr.strip (String extsep t) = String extsep t.
Proof.
  intros Ht. unfold PyStr.strip.
  change (PyStr.lstrip (String extsep t)) with (String extsep t).
  simpl. rewrite Ht. now destruct t.
Qed.

(** The entries [parse_file_formats] returns, one by one. *)
Lemma parse_entry formats_str x :
  In x (parse_file_formats formats_str) ->
  exists f,
    In f (PyStr.split "," formats_str) /\
    x = (if PyStr.starts_with extsep (PyStr.strip f)
         then PyStr.strip f else "." +:+ PyStr.strip f).
Proof.
  unfold parse_file_formats. rewrite map_map, in_map_iff.
  intros (f & <- & Hf). now exists f.
Qed.

End Formats.

Lemma parse_entry_normal formats_str x :
  In x (parse_file_formats formats_str) ->
  PyStr.starts_with extsep x = true /\
  PyStr.strip x = x /\
  has_char "," x = false.
Proof.
  intros Hx. apply parse_entry in Hx as (f & Hf & ->).
  apply split_fields in Hf.
  assert (Hc : has_char "," (PyStr.strip f) = false).
  { unfold PyStr.strip. now apply rstrip_no_char, lstrip_no_char. }
  destruct (PyStr.starts_with extsep (PyStr.strip f)) eqn:Hs.
  - split; [exact Hs|]. split; [apply strip_idem | exact Hc].
  - split; [reflexivity|]. split; [|exact Hc].
    apply strip_dot. unfold PyStr.strip. apply rstrip_idem.
Qed.

Lemma split_concat c l :
  l <> [] -> (forall x, In x l -> has_char c x = false) ->
  PyStr.split c (String.concat (String c "") l) = l.
Proof.
  induction l as [|x l IH]; [congruence|]. intros _ Hall.
  destruct l as [|y l].
  - simpl. apply split_plain. apply Hall. now left.
  - change (String.concat (String c "") (x :: y :: l))
      with (x +:+ String c (String.concat (String c "") (y :: l))).
    rewrite split_append, IH; [|discriminate|intros z Hz; apply Hall; now right].
    rewrite split_plain; [reflexivity|]. apply Hall. now left.
Qed.

Lemma parse_join l :
  l <> [] ->
  (forall x, In x l ->
     PyStr.starts_with extsep x = true /\ PyStr.strip x = x /\
     has_char "," x = false) ->
  parse_file_formats (str_join "," l) = l.
Proof.
  intros Hne Hall. unfold parse_file_formats, str_join.
  rewrite split_concat; [|exact Hne|intros x Hx; now apply Hall].
  rewrite map_map. rewrite <- (map_id l) at 2. apply map_ext_in.
  intros x Hx. destruct (Hall x Hx) as (Hdot & Hstrip & _).
  now rewrite Hstrip, Hdot.
Qed.

(** X1: [parse_file_formats] returns one entry per comma-separated field,
    so never the empty list; every entry starts with a dot, carries no
    white space at either end and holds no comma. *)
Theorem X1_parse_file_formats_shape (formats_str : string) :
  List.length (parse_file_formats formats_str) =
    S (count_char "," formats_str) /\
  forall x, In x (parse_file_formats formats_str) ->
    PyStr.starts_with extsep x = true /\
    PyStr.strip x = x /\
    has_char "," x = false.
Proof.
  split.
  - unfold parse_file_formats. now rewrite !length_map, split_count.
  - apply parse_entry_normal.
Qed.

(** X2: joining a list of formats with commas and parsing the result gives
    the list back, when the list is not empty and its entries are in the
    form [parse_file_formats] produces (a leading dot, no white space at the
    ends, no comma); so parsing the joined result of a parse changes
    nothing.  The default of [--formats] is such a join. *)
Theorem X2_parse_after_join
    (l : list string)
    (Hne : l <> [])
    (Hnormal : forall x, In x l ->
       PyStr.starts_with extsep x = true /\ PyStr.strip x = x /\
       has_char "," x = false) :
  parse_file_formats (str_join "," l) = l /\
  forall formats_str,
    parse_file_formats (str_join "," (parse_file_formats formats_str)) =
    parse_file_formats formats_str.
Proof.
  split; [now apply parse_join|].
  intros formats_str. apply parse_join.
  - unfold parse_file_formats. intros H.
    apply (f_equal (@List.length string)) in H.
    rewrite !length_map, split_count in H. discriminate.
  - apply parse_entry_normal.
Qed.

Lemma X2_parse_after_join_witness :
  DEFAULT_FILE_FORMATS <> [] /\
  parse_file_formats default_formats_arg = DEFAULT_FILE_FORMATS.
Proof.
  split; [discriminate|].
  apply (X2_parse_after_join DEFAULT_FILE_FORMATS); [discriminate|].
  intros x Hx. simpl in Hx.
  repeat (destruct Hx as [<-|Hx]; [repeat split|]). destruct Hx.
Defined.

(** X3: a file name without an extension (no dot, or only leading dots) is
    selected by no filter that [parse_file_formats] returns, whatever the
    [--formats] string: every entry of such a filter starts with a dot. *)
Theorem X3_no_extension_never_selected
    (formats_str file : string)
    (Hext : snd (os_path_splitext file) = "") :
  selected (parse_file_formats formats_str) file = false.
Proof.
  unfold selected. rewrite Hext. simpl PyStr.lower.
  destruct (PyStr.mem "" (parse_file_formats formats_str)) eqn:Hm; [|reflexivity].
  apply mem_In in Hm. apply parse_entry_normal in Hm as (Hdot & _).
  discriminate.
Qed.

Lemma X3_no_extension_witness :
  snd (os_path_splitext "Makefile") = "" /\
  snd (os_path_splitext ".bashrc") = "" /\
  selected (parse_file_formats "py,,txt") "Makefile" = false /\
  selected (parse_file_formats "bashrc") ".bashrc" = false.
Proof.
  split; [reflexivity|]. split; [reflexivity|]. split.
  - apply (X3_no_extension_never_selected "py,,txt" "Makefile"). reflexivity.
  - apply (X3_no_extension_never_selected "bashrc" ".bashrc"). reflexivity.
Defined.

(** ** [create_destination_dir] *)

Section Destination.

Lemma get_put_same r q new r' : put r q new = Some r' -> get r' q = Some new.
Proof.
  revert r r'. induction q as [|c q IH]; intros r r'; simpl.
  - now intros [= <-].
  - destruct r as [d|es]; [discriminate|].
    destruct q as [|c1 q].
    + intros [= <-]. simpl. now rewrite lookup_set_same.
    + destruct (lookup c es) as [m|]; [|discriminate].
      destruct (put m (c1 :: q) new) as [m'|] eqn:Hm'; [|discriminate].
      intros [= <-]. cbn [get]. rewrite lookup_set_same.
      now apply (IH m).
Qed.

(** Directories that exist are left alone: on a path that resolves,
    [mkdirs] creates nothing. *)
Lemma mkdirs_existing r cs : forall cur q n,
  canon r cur cs = Some q -> get r q = Some n ->
  mkdirs r cur cs =
    (r, if is_dir (Some n) then None else Some FileExistsError).
Proof.
  induction cs as [|c cs IH]; intros cur q n; cbn [mkdirs canon].
  - intros [= <-] Hn. now rewrite Hn.
  - destruct (is_dir (get r cur)); [|discriminate].
    intros Hc Hn.
    assert (Hnext : exists m, get r (step cur c) = Some m).
    { destruct cs as [|c' cs'].
      - simpl in Hc. injection Hc as <-. eauto.
      - simpl in Hc. destruct (get r (step cur c)); [eauto | discriminate]. }
    destruct Hnext as [m Hm]. cbv zeta. rewrite Hm. now apply (IH _ q).
Qed.


Lemma extends_is_dir r r' q :
  extends r r' -> is_dir (get r q) = true -> is_dir (get r' q) = true.
Proof.
  intros He. specialize (He q).
  destruct (get r q) as [[d|es]|]; simpl; try discriminate. now intros _.
Qed.

(** After a [mkdirs] that did not fail the path resolves to a directory. *)
Lemma mkdirs_canon r cs : forall cur r',
  mkdirs r cur cs = (r', None) ->
  exists q, canon r' cur cs = Some q /\ is_dir (get r' q) = true.
Proof.
  revert r. induction cs as [|c cs IH]; intros r cur r'; cbn [mkdirs canon].
  - destruct (is_dir (get r cur)) eqn:Hd; [|discriminate].
    intros [= <-]. eauto.
  - destruct (is_dir (get r cur)) eqn:Hd;
      [|destruct (forallb _ _); discriminate].
    cbv zeta. destruct (get r (step cur c)) eqn:Hnext.
    + intros H. rewrite (extends_is_dir _ _ _ (mkdirs_extends _ _ _ _ _ H) Hd).
      now apply IH in H.
    + destruct (put r (step cur c) (Dir [])) as [r1|] eqn:Hput; [|discriminate].
      intros H.
      destruct (put_fresh _ _ _ _ Hnext Hput) as [He _].
      pose proof (extends_trans _ _ _ He (mkdirs_extends _ _ _ _ _ H)) as He'.
      rewrite (extends_is_dir _ _ _ He' Hd). now apply IH in H.
Qed.

Lemma os_makedirs_ok_inv name w w1 :
  os_makedirs name w = Ok tt w1 ->
  hd NoFault (faults w) = NoFault /\ name <> "" /\
  exists r',
    mkdirs (root w) (if PyStr.starts_with sep name then [] else cwd w)
           (PyStr.split sep name) = (r', None) /\
    w1 = mkWorld r' (cwd w) (tl (faults w)) (out w).
Proof.
  unfold os_makedirs, bind, next_fault, get_world, set_root, raise, ret.
  destruct w as [r c fs o]. cbn [faults root cwd out].
  destruct fs as [|[| |part] fs]; cbn [faults root cwd out hd tl];
    try discriminate.
  1, 2: destruct (String.eqb_spec name ""); [discriminate|];
    destruct (mkdirs r _ _) as [r' [e|]]; cbn [fst snd]; [discriminate|];
    intros [= <-]; repeat split; auto; now exists r'.
Qed.

(** [os.makedirs] on a path that exists: nothing happens when it is a
    directory, [FileExistsError] when it is a file. *)
Lemma os_makedirs_existing name w q n :
  canon_path w name = Some q -> get (root w) q = Some n ->
  hd NoFault (faults w) = NoFault ->
  os_makedirs name w =
    if is_dir (Some n) then Ok tt (after_io w)
    else Raised FileExistsError (after_io w).
Proof.
  unfold canon_path, os_makedirs, bind, next_fault, get_world, set_root,
    raise, ret, after_io.
  destruct w as [r c fs o]. cbn [faults root cwd out].
  destruct (String.eqb name ""); [discriminate|].
  intros Hq Hn Hf.
  destruct fs as [|f fs]; cbn [hd tl faults root cwd out] in *; subst;
    rewrite (mkdirs_existing _ _ _ _ _ Hq Hn);
    now destruct n.
Qed.


Lemma create_destination_dir_ok_inv dest_path w w1 :
  create_destination_dir dest_path w = Ok tt w1 ->
  exists w0,
    os_makedirs dest_path w = Ok tt w0 /\
    w1 = printed w0 [MsgDestReady dest_path].
Proof.
  unfold create_destination_dir, try_except, bind.
  destruct (os_makedirs dest_path w) as [[] w0|e w0|c w0|] eqn:Hmk;
    try discriminate.
  intros [= <-]. now exists w0.
Qed.

Lemma create_on_directory w dest_path es :
  resolve w dest_path = Some (Dir es) ->
  hd NoFault (faults w) = NoFault ->
  create_destination_dir dest_path w =
    Ok tt (printed (after_io w) [MsgDestReady dest_path]).
Proof.
  unfold resolve. destruct (canon_path w dest_path) as [q|] eqn:Hq; [|discriminate].
  intros Hn Hf. unfold create_destination_dir, try_except, bind.
  now rewrite (os_makedirs_existing _ _ _ _ Hq Hn Hf).
Qed.


End Destination.





(** X6: after a call of [create_destination_dir] that returns, the
    destination path is a directory, every file that existed keeps its
    bytes and every directory is still one; a second call (without an
    injected fault) returns as well and changes nothing. *)
Theorem X6_destination_prepared
    (w : world) (dest_path : string) (w1 : world)
    (Hok : create_destination_dir dest_path w = Ok tt w1) :
  os_path_isdir w1 dest_path = true /\
  (forall p data, resolve w p = Some (File data) ->
                  resolve w1 p = Some (File data)) /\
  (forall p, os_path_isdir w p = true -> os_path_isdir w1 p = true) /\
  (hd NoFault (faults w1) = NoFault ->
   create_destination_dir dest_path w1 =
     Ok tt (printed (after_io w1) [MsgDestReady dest_path]) /\
   root (printed (after_io w1) [MsgDestReady dest_path]) = root w1).
Proof.
  destruct (create_destination_dir_ok_inv _ _ _ Hok) as (w0 & Hmk & ->).
  destruct (os_makedirs_ok_inv _ _ _ Hmk) as (_ & Hne & r' & Hmkdirs & ->).
  destruct (mkdirs_canon _ _ _ _ Hmkdirs) as (q & Hq & Hd).
  pose proof (mkdirs_extends _ _ _ _ _ Hmkdirs) as Hext.
  set (w1 := printed _ _).
  assert (Hg : grows (size r') w w1).
  { split; [reflexivity|]. split; [exact Hext | simpl; lia]. }
  assert (Hres : exists es, resolve w1 dest_path = Some (Dir es)).
  { unfold resolve, canon_path. apply String.eqb_neq in Hne. rewrite Hne.
    simpl. rewrite Hq. simpl in Hd.
    destruct (get r' q) as [[d|es]|]; try discriminate. now exists es. }
  destruct Hres as [es Hres].
  split; [unfold os_path_isdir; now rewrite Hres|].
  split; [intros p data; now apply (resolve_file_grows (size r') w)|].
  split; [intros p; now apply (resolve_dir_grows (size r') w)|].
  intros Hf. split; [now apply (create_on_directory w1 dest_path es) | reflexivity].
Qed.

Lemma X6_destination_prepared_witness :
  create_destination_dir "out/txt" (world_of empty_root) =
    Ok tt (mkWorld (Dir [("src", Dir []); ("out", Dir [("txt", Dir [])])])
                   [] [] [MsgDestReady "out/txt"]) /\
  os_path_isdir
    (mkWorld (Dir [("src", Dir []); ("out", Dir [("txt", Dir [])])])
             [] [] [MsgDestReady "out/txt"]) "out/txt" = true.
Proof.
  split; [reflexivity|].
  destruct (X6_destination_prepared (world_of empty_root) "out/txt"
              (mkWorld (Dir [("src", Dir []); ("out", Dir [("txt", Dir [])])])
                       [] [] [MsgDestReady "out/txt"]) eq_refl) as [Hdir _].
  exact Hdir.
Defined.

(** ** Order and multiplicity of the located files *)

Section Order.

Variable file_formats : list string.

Lemma scan_files_eq top files acc :
  scan_files file_formats top files acc =
  acc ++ map (os_path_join top) (filter (selected file_formats) files).
Proof.
  unfold scan_files, selected. revert acc.
  induction files as [|f files IH]; intros acc; simpl.
  - now rewrite app_nil_r.
  - rewrite IH. destruct (PyStr.mem _ file_formats); simpl.
    + now rewrite <- app_assoc.
    + reflexivity.
Qed.

Lemma scan_walk_eq triples acc :
  scan_walk file_formats triples acc =
  acc ++ flat_map (fun t => map (os_path_join (fst (fst t)))
                                (filter (selected file_formats) (snd t)))
                  triples.
Proof.
  unfold scan_walk. revert acc.
  induction triples as [|[[top ds] fs] triples IH]; intros acc; simpl.
  - now rewrite app_nil_r.
  - now rewrite IH, scan_files_eq, <- app_assoc.
Qed.

Lemma flat_map_flat_map {A B C} (g : B -> list C) (h : A -> list B) l :
  flat_map g (flat_map h l) = flat_map (fun a => flat_map g (h a)) l.
Proof.
  induction l as [|a l IH]; simpl; [reflexivity|].
  now rewrite flat_map_app, IH.
Qed.

(** The files of a directory come first, in listing order, then what is
    located below each entry, in listing order. *)
Lemma located_Dir top es :
  located file_formats top (Dir es) =
  map (os_path_join top) (filter (selected file_formats) (file_names es)) ++
  flat_map (fun e => located file_formats (os_path_join top (fst e)) (snd e)) es.
Proof.
  unfold located. simpl walk_node. rewrite scan_walk_eq. simpl.
  f_equal. rewrite flat_map_flat_map. apply flat_map_ext.
  intros [name m]. now rewrite scan_walk_eq.
Qed.

Lemma located_In top n p :
  In p (located file_formats top n) <->
  exists cs f d,
    in_tree (cs ++ [f]) n (File d) /\
    In (PyStr.lower (snd (os_path_splitext f))) file_formats /\
    p = join_all top (cs ++ [f]).
Proof. apply scan_walk_node_In. Qed.

Lemma ends_with_has_char c s : PyStr.ends_with c s = true -> has_char c s = true.
Proof.
  intros H. destruct (ends_with_inv _ _ H) as [s0 ->].
  rewrite has_char_append. simpl. rewrite Ascii.eqb_refl. apply orb_true_r.
Qed.

Lemma ends_with_append_plain (a c : string) :
  c <> "" -> has_char sep c = false -> PyStr.ends_with sep (a +:+ c) = false.
Proof.
  intros Hne Hc. induction a as [|x a IH].
  - simpl. destruct (PyStr.ends_with sep c) eqn:He; [|reflexivity].
    apply ends_with_has_char in He. congruence.
  - change (String x a +:+ c) with (String x (a +:+ c)).
    destruct (a +:+ c) as [|y t] eqn:Hac.
    + destruct a; [simpl in Hac; congruence | discriminate].
    + exact IH.
Qed.

Lemma join_not_ends d c :
  plain_name c = true -> d <> "" ->
  os_path_join d c <> "" /\ PyStr.ends_with sep (os_path_join d c) = false.
Proof.
  intros Hp Hd. destruct (plain_name_inv _ Hp) as [Hne Hsep].
  destruct (join_plain d c Hp Hd) as (x & Hx & _).
  split; [rewrite Hx; now apply append_not_nil|].
  unfold os_path_join.
  destruct (PyStr.starts_with sep c) eqn:Hst.
  { apply starts_with_has_char in Hst. congruence. }
  destruct (_ || _).
  - now apply ends_with_append_plain.
  - change (d +:+ String sep c) with (d +:+ (String sep "" +:+ c)).
    rewrite <- append_assoc. now apply ends_with_append_plain.
Qed.

(** The components of a path joined with a plain name. *)
Lemma split_join d c :
  plain_name c = true -> d <> "" ->
  PyStr.split sep (os_path_join d c) = path_front d ++ [c].
Proof.
  intros Hp Hd. destruct (plain_name_inv _ Hp) as [Hne Hsep].
  unfold os_path_join, path_front.
  destruct (PyStr.starts_with sep c) eqn:Hst.
  { apply starts_with_has_char in Hst. congruence. }
  apply String.eqb_neq in Hd. rewrite Hd. cbn [orb].
  destruct (PyStr.ends_with sep d) eqn:He.
  - destruct (ends_with_inv _ _ He) as [d0 ->].
    rewrite append_assoc. cbn [String.append].
    rewrite !split_append, (split_plain _ _ Hsep).
    change (PyStr.split sep "") with [""]. now rewrite removelast_last.
  - now rewrite split_append, (split_plain _ _ Hsep).
Qed.

Lemma split_join_all cs : forall d,
  Forall (fun c => plain_name c = true) cs -> cs <> [] -> d <> "" ->
  PyStr.split sep (join_all d cs) = path_front d ++ cs.
Proof.
  induction cs as [|c cs IH]; intros d Hcs Hne Hd; [congruence|].
  inversion Hcs as [|? ? Hc Hcs']; subst.
  unfold join_all in *. cbn [fold_left].
  destruct cs as [|c' cs].
  - simpl. now apply split_join.
  - destruct (join_not_ends d c Hc Hd) as [Hjne Hje].
    rewrite IH; [|exact Hcs'|discriminate|exact Hjne].
    unfold path_front at 1. rewrite Hje, (split_join _ _ Hc Hd).
    now rewrite <- app_assoc.
Qed.

Lemma join_inj d x y :
  plain_name x = true -> plain_name y = true -> d <> "" ->
  os_path_join d x = os_path_join d y -> x = y.
Proof.
  intros Hx Hy Hd H. apply (f_equal (PyStr.split sep)) in H.
  rewrite !split_join in H by assumption.
  apply app_inv_head in H. now injection H.
Qed.

(** Every path located below a valid tree consists of the components of
    [top] and at least one more name. *)
Lemma located_components top n p :
  valid_tree n = true -> top <> "" ->
  In p (located file_formats top n) ->
  exists cs, cs <> [] /\ PyStr.split sep p = path_front top ++ cs.
Proof.
  intros Hv Hd Hp. apply located_In in Hp as (cs & f & d & Ht & _ & ->).
  destruct (in_tree_valid _ _ _ Ht Hv) as (_ & Hplain & _).
  exists (cs ++ [f]). split; [now destruct cs|].
  apply split_join_all; [exact Hplain | now destruct cs | exact Hd].
Qed.

Lemma NoDup_map_fst_filter (f : string * node -> bool) es :
  NoDup (map fst es) -> NoDup (map fst (filter f es)).
Proof.
  induction es as [|e es IH]; simpl; [auto|].
  intros H. inversion H as [|? ? Hnot Hrest]; subst.
  destruct (f e); simpl; [|now apply IH].
  constructor; [|now apply IH].
  intros Hin. apply Hnot.
  apply in_map_iff in Hin as (e' & He' & Hin).
  apply filter_In in Hin as [Hin _]. rewrite <- He'. now apply in_map.
Qed.

(** Below a valid tree no path is located twice. *)
Lemma located_NoDup n : forall top,
  top <> "" -> valid_tree n = true -> NoDup (located file_formats top n).
Proof.
  induction n as [d|es IH] using node_induction; intros top Hd Hv.
  - constructor.
  - rewrite located_Dir. rewrite Forall_forall in IH.
    destruct (valid_tree_Dir _ Hv) as [Hnd Hall].
    assert (Hfiles : forall f, In f (file_names es) -> plain_name f = true).
    { intros f Hf. apply file_names_In in Hf as (data & Hin).
      now apply (Hall _ _ Hin). }
    apply NoDup_app.
    + apply Injective_map_NoDup_in.
      * intros x y Hx Hy. apply filter_In in Hx as [Hx _].
        apply filter_In in Hy as [Hy _].
        apply join_inj; auto.
      * apply NoDup_filter. unfold file_names. now apply NoDup_map_fst_filter.
    + clear Hfiles Hv. induction es as [|[name m] es IHes]; simpl; [constructor|].
      inversion Hnd as [|? ? Hnot Hnd']; subst.
      destruct (Hall name m (or_introl eq_refl)) as [Hp Hm].
      destruct (join_not_ends top name Hp Hd) as [Hjne Hje].
      apply NoDup_app.
      * apply (IH (name, m)); [now left | exact Hjne | exact Hm].
      * apply IHes; [intros e He; apply IH; now right | exact Hnd' |].
        intros n' m' Hin. apply Hall. now right.
      * intros p Hp1 Hp2.
        apply (located_components _ m p Hm Hjne) in Hp1 as (cs1 & _ & H1).
        unfold path_front at 1 in H1. rewrite Hje, (split_join _ _ Hp Hd) in H1.
        apply in_flat_map in Hp2 as ([name2 m2] & Hin2 & Hp2).
        destruct (Hall name2 m2 (or_intror Hin2)) as [Hp' Hm2].
        destruct (join_not_ends top name2 Hp' Hd) as [Hjne2 Hje2].
        apply (located_components _ m2 p Hm2 Hjne2) in Hp2 as (cs2 & _ & H2).
        unfold path_front at 1 in H2. rewrite Hje2, (split_join _ _ Hp' Hd) in H2.
        rewrite H1, <- !app_assoc in H2. apply app_inv_head in H2.
        injection H2 as Hname _. apply Hnot. rewrite Hname.
        now apply (in_map fst) in Hin2.
    + intros p Hp1 Hp2.
      apply in_map_iff in Hp1 as (f & <- & Hf). apply filter_In in Hf as [Hf _].
      apply in_flat_map in Hp2 as ([name2 m2] & Hin2 & Hp2).
      destruct (Hall name2 m2 Hin2) as [Hp' Hm2].
      destruct (join_not_ends top name2 Hp' Hd) as [Hjne2 Hje2].
      apply (located_components _ m2 _ Hm2 Hjne2) in Hp2 as (cs2 & Hcs2 & H2).
      unfold path_front at 1 in H2. rewrite Hje2, (split_join _ _ Hp' Hd) in H2.
      rewrite (split_join _ _ (Hfiles f Hf) Hd), <- app_assoc in H2.
      apply app_inv_head in H2. injection H2 as _ H2.
      destruct cs2; [congruence | discriminate].
Qed.

End Order.

(** X7: the list [find_files_by_format] returns is in top-down order: for
    a directory, its own selected files come first, in the order of the
    listing and each under the path of the directory joined with its name,
    followed by what is located below each entry, entry by entry; a file
    contributes nothing below itself, so a source path that is a regular
    file gives the empty list. *)
Theorem X7_located_top_down
    (w : world) (source_dir : string) (file_formats : list string) (t : node)
    (Hroot : resolve w source_dir = Some t) :
  returned (find_files_by_format source_dir file_formats w) =
    Some (located file_formats source_dir t) /\
  (forall top data, located file_formats top (File data) = []) /\
  forall top es,
    located file_formats top (Dir es) =
    map (os_path_join top) (filter (selected file_formats) (file_names es)) ++
    flat_map (fun e => located file_formats (os_path_join top (fst e)) (snd e))
             es.
Proof.
  split; [|split].
  - destruct (find_files_by_format_ok file_formats source_dir w) as [log Hrun].
    now rewrite Hrun, Hroot.
  - reflexivity.
  - apply located_Dir.
Qed.

Lemma X7_located_top_down_witness :
  resolve (world_of demo_root) "/src" = Some demo_src /\
  returned (find_files_by_format "/src" [".py"] (world_of demo_root)) =
    Some (located [".py"] "/src" demo_src).
Proof.
  split; [reflexivity|].
  destruct (X7_located_top_down (world_of demo_root) "/src" [".py"] demo_src
              eq_refl) as [Hrun _].
  exact Hrun.
Defined.

(** X8: when the tree under [source_dir] is well formed (plain entry names,
    no name twice in a directory), [find_files_by_format] returns no path
    twice. *)
Theorem X8_located_once
    (w : world) (source_dir : string) (file_formats : list string) (t : node)
    (Hroot : resolve w source_dir = Some t)
    (Hvalid : valid_tree t = true) :
  exists found w',
    find_files_by_format source_dir file_formats w = Ok found w' /\
    NoDup found.
Proof.
  destruct (find_files_by_format_ok file_formats source_dir w) as [log Hrun].
  rewrite Hroot in Hrun. eexists _, _. split; [exact Hrun|].
  apply (located_NoDup file_formats t source_dir); [|exact Hvalid].
  now apply (resolve_not_nil w source_dir t).
Qed.

Lemma X8_located_once_witness :
  resolve (world_of demo_root) "/src" = Some demo_src /\
  valid_tree demo_src = true /\
  exists found w',
    find_files_by_format "/src" [".py"; ".js"] (world_of demo_root) =
      Ok found w' /\
    NoDup found.
Proof.
  split; [reflexivity|]. split; [reflexivity|].
  apply (X8_located_once (world_of demo_root) "/src" [".py"; ".js"] demo_src);
    reflexivity.
Defined.

(** ** Single copies *)

Section Copies.

Lemma candidate_is_plain f j :
  has_char sep f = false -> plain_name (candidate f j) = true.
Proof.
  intros Hf. destruct j as [|j]; [|now apply numbered_name_plain].
  unfold candidate. apply plain_name_intro.
  - rewrite has_char_append. cbn [has_char].
    change (Ascii.eqb "t" "t") with true. now rewrite !orb_true_r.
  - rewrite has_char_append, Hf. reflexivity.
Qed.


Lemma set_entry_fresh name new es :
  lookup name es = None -> set_entry name new es = es ++ [(name, new)].
Proof.
  induction es as [|[k m] es IH]; simpl; [reflexivity|].
  destruct (String.eqb k name); [discriminate|].
  intros H. now rewrite IH.
Qed.

(** Storing an entry in a directory that exists succeeds. *)
Lemma put_snoc name new q : forall r es,
  get r q = Some (Dir es) ->
  exists r',
    put r (q ++ [name]) new = Some r' /\
    get r' q = Some (Dir (set_entry name new es)).
Proof.
  induction q as [|c q IH]; intros r es; simpl.
  - intros [= ->]. eexists. split; reflexivity.
  - destruct r as [d|es0]; [discriminate|].
    destruct (lookup c es0) as [m|] eqn:Hc; [|discriminate].
    intros Hm. destruct (IH m es Hm) as (m' & Hput & Hget).
    destruct (q ++ [name]) as [|x l] eqn:Hq.
    { destruct q; discriminate. }
    rewrite Hput. eexists. split; [reflexivity|].
    simpl. now rewrite lookup_set_same.
Qed.


Lemma exists_grows k w w' p :
  grows k w w' -> os_path_exists w p = true -> os_path_exists w' p = true.
Proof.
  intros Hg. unfold os_path_exists.
  destruct (resolve w p) as [[data|es]|] eqn:Hp; try discriminate; intros _.
  - now rewrite (resolve_file_grows _ _ _ _ _ Hg Hp).
  - assert (Hd : is_dir (resolve w p) = true) by now rewrite Hp.
    apply (resolve_dir_grows _ _ _ _ Hg) in Hd.
    now destruct (resolve w' p).
Qed.

(** What a copy that returns has done. *)
Lemma shutil_copy2_ok_inv w src dst w' :
  os_path_exists w dst = false ->
  shutil_copy2 src dst w = Ok tt w' ->
  hd NoFault (faults w) = NoFault /\
  exists data qd r',
    resolve w src = Some (File data) /\
    canon_path w dst = Some qd /\
    get (root w) qd = None /\
    put (root w) qd (File data) = Some r' /\
    w' = mkWorld r' (cwd w) (tl (faults w)) (out w).
Proof.
  intros Hex.
  assert (Hdir : os_path_isdir w dst = false).
  { unfold os_path_isdir. unfold os_path_exists in Hex.
    now destruct (resolve w dst). }
  assert (Hget : forall qd, canon_path w dst = Some qd -> get (root w) qd = None).
  { intros qd Hqd. unfold os_path_exists, resolve in Hex. rewrite Hqd in Hex.
    now destruct (get (root w) qd). }
  unfold shutil_copy2, bind, get_world, next_fault. rewrite Hdir.
  unfold resolve.
  destruct (canon_path w src) as [qs|] eqn:Hqs;
    destruct (canon_path w dst) as [qd|] eqn:Hqd;
    destruct (faults w) as [|[| |part] fs] eqn:Hf; simpl; try discriminate.
  - destruct (get (root w) qs) as [[data|es]|] eqn:Hsrc; try discriminate.
    rewrite (Hget qd eq_refl). simpl.
    destruct (list_eq_dec string_dec qs qd); [discriminate|].
    destruct (put (root w) qd (File data)) as [r'|] eqn:Hput; [|discriminate].
    simpl. rewrite Hf. intros [= <-]. split; [reflexivity|].
    exists data, qd, r'. repeat split; auto.
  - destruct (get (root w) qs) as [[data|es]|] eqn:Hsrc; try discriminate.
    rewrite (Hget qd eq_refl). simpl.
    destruct (list_eq_dec string_dec qs qd); [discriminate|].
    destruct (put (root w) qd (File data)) as [r'|] eqn:Hput; [|discriminate].
    simpl. intros [= <-]. split; [reflexivity|].
    exists data, qd, r'. repeat split; auto.
  - destruct (get (root w) qs) as [[data|es]|] eqn:Hsrc; try discriminate.
    rewrite (Hget qd eq_refl). simpl.
    destruct (list_eq_dec string_dec qs qd); [discriminate|].
    destruct (put (root w) qd (File part)) as [r'|] eqn:Hput; discriminate.
Qed.

(** A copy of a regular file to a free path in a directory that exists,
    without an injected fault, returns. *)
Lemma shutil_copy2_ok w src dst data qd r' :
  hd NoFault (faults w) = NoFault ->
  resolve w src = Some (File data) ->
  canon_path w dst = Some qd ->
  get (root w) qd = None ->
  put (root w) qd (File data) = Some r' ->
  shutil_copy2 src dst w =
    Ok tt (mkWorld r' (cwd w) (tl (faults w)) (out w)).
Proof.
  intros Hf Hsrc Hqd Hfree Hput.
  assert (Hdir : os_path_isdir w dst = false).
  { unfold os_path_isdir, resolve. now rewrite Hqd, Hfree. }
  unfold shutil_copy2, bind, get_world, next_fault. rewrite Hdir, Hqd.
  unfold resolve in Hsrc.
  destruct (canon_path w src) as [qs|]; [|discriminate].
  rewrite Hsrc, Hfree. simpl.
  assert (Hne : qs <> qd) by (intros ->; congruence).
  destruct (faults w) as [|f fs] eqn:Hfs; simpl in *; subst;
    destruct (list_eq_dec string_dec qs qd); try contradiction;
    rewrite Hput; unfold ret; simpl; now rewrite ?Hfs.
Qed.


(** One turn of the batch, once the destination is chosen. *)
Lemma copy_step_eq fuel dest f c e w name path k :
  choose_dest fuel w dest f = Some (name, path, k) ->
  copy_step fuel dest f c e w =
  match shutil_copy2 f path w with
  | Ok _ w1 => Ok (c + 1, e) (printed w1 [MsgCopied (os_path_basename f) name])
  | Raised ex w1 => Ok (c, e + 1) (printed w1 [MsgCopyError f ex])
  | Exited code w1 => Exited code w1
  | OutOfFuel => OutOfFuel
  end.
Proof.
  intros Hk. unfold copy_step, try_except, copy_one, bind, get_world.
  rewrite Hk. now destruct (shutil_copy2 f path w) as [[] w1|ex w1|code w1|].
Qed.

(** A turn that counts a copy has put the bytes of the source at the
    destination, as an entry of the destination directory. *)
Lemma copy_step_copied fuel dest f c e w w' :
  size (root w) < fuel ->
  copy_step fuel dest f c e w = Ok (c + 1, e) w' ->
  exists k data,
    os_path_exists w
      (os_path_join dest (candidate (os_path_basename f) k)) = false /\
    resolve w f = Some (File data) /\
    resolve w' (os_path_join dest (candidate (os_path_basename f) k)) =
      Some (File data) /\
    In (candidate (os_path_basename f) k, File data) (listing w' dest) /\
    out w' = out w ++ [MsgCopied (os_path_basename f)
                                 (candidate (os_path_basename f) k)] /\
    grows 1 w w'.
Proof.
  intros Hfuel Hstep.
  pose proof (listing_lt_size w dest) as Hl.
  destruct (choose_dest_spec fuel w dest f) as (k & Hk & Hfree & _); [lia|].
  rewrite (copy_step_eq _ _ _ _ _ _ _ _ _ Hk) in Hstep.
  destruct (shutil_copy2 f _ w) as [[] w1|ex w1|code w1|] eqn:Hcp;
    try discriminate; [|injection Hstep as Hc _; lia].
  injection Hstep as <-.
  destruct (shutil_copy2_ok_inv _ _ _ _ Hfree Hcp)
    as (_ & data & qd & r' & Hsrc & Hqd & Hnone & Hput & ->).
  destruct (put_fresh _ _ _ _ Hnone Hput) as [Hext Hsize].
  set (w1 := printed _ _).
  assert (Hg : grows 1 w w1).
  { split; [reflexivity|]. split; [exact Hext | simpl in *; lia]. }
  assert (Hdst : resolve w1 (os_path_join dest (candidate (os_path_basename f) k))
                 = Some (File data)).
  { unfold resolve. rewrite (canon_path_grows _ _ _ _ _ Hg Hqd).
    simpl. now apply get_put_same in Hput. }
  exists k, data. split; [exact Hfree|]. split; [exact Hsrc|].
  split; [exact Hdst|]. split; [|split; [reflexivity | exact Hg]].
  rewrite resolve_join in Hdst
    by (apply candidate_is_plain, basename_no_sep).
  unfold listing.
  destruct (resolve w1 _) as [[x|es]|]; simpl in Hdst; try discriminate.
  now apply lookup_In.
Qed.



End Copies.





(** ** The names of a batch *)

Section Names.

(** The new names of a batch are pairwise distinct, were free before the
    batch and name files after it. *)
Lemma copy_loop_names fuel dest files : forall c e w,
  size (root w) + List.length files <= fuel ->
  exists w' log,
    copy_loop fuel dest files c e w =
      Ok (c + count_copied log, e + count_errors log) w' /\
    out w' = out w ++ log /\
    grows (List.length files) w w' /\
    NoDup (copied_names log) /\
    forall n, In n (copied_names log) ->
      os_path_exists w (os_path_join dest n) = false /\
      exists data, resolve w' (os_path_join dest n) = Some (File data).
Proof.
  induction files as [|f files IH]; intros c e w Hfuel.
  - exists w, []. cbn. rewrite !Nat.add_0_r, app_nil_r.
    split; [reflexivity|]. split; [reflexivity|]. split; [apply grows_refl|].
    split; [constructor | intros n []].
  - simpl in Hfuel.
    destruct (copy_step_spec fuel dest f c e w)
      as (k & w1 & m & _ & Hfree & _ & Hg & Ho & Hstep); [lia|].
    assert (Hs1 : size (root w1) + List.length files <= fuel).
    { destruct Hg as (_ & _ & Hs). lia. }
    destruct Hstep as [[Hstep ->]|[Hstep [ex ->]]].
    + destruct (copy_step_copied fuel dest f c e w w1) as
        (k' & data & Hfree' & _ & Hdst & _ & Ho2 & _); [lia | exact Hstep |].
      assert (Hkk : candidate (os_path_basename f) k' =
                    candidate (os_path_basename f) k).
      { rewrite Ho in Ho2. apply app_inv_head in Ho2. now injection Ho2. }
      rewrite Hkk in *. clear Hkk Hfree' Ho2.
      destruct (IH (c + 1) e w1 Hs1) as (w' & log & Hrun & Ho' & Hg' & Hnd & Hall).
      exists w', (MsgCopied (os_path_basename f)
                            (candidate (os_path_basename f) k) :: log).
      simpl. unfold bind. rewrite Hstep. simpl. rewrite Hrun.
      split; [f_equal; f_equal; unfold count_copied, count_errors; simpl; lia|].
      split; [rewrite Ho', Ho, <- app_assoc; reflexivity|].
      split; [apply (grows_trans 1 _ _ _ _ Hg Hg')|].
      split.
      * constructor; [|exact Hnd]. intros Hin.
        destruct (Hall _ Hin) as [Hnot _].
        unfold os_path_exists in Hnot. now rewrite Hdst in Hnot.
      * intros n [<-|Hin].
        -- split; [exact Hfree|]. exists data.
           now apply (resolve_file_grows (List.length files) w1 w').
        -- destruct (Hall n Hin) as [Hnot Hfile]. split; [|exact Hfile].
           destruct (os_path_exists w (os_path_join dest n)) eqn:Hex;
             [|reflexivity].
           apply (exists_grows 1 w w1 _ Hg) in Hex. congruence.
    + destruct (IH c (e + 1) w1 Hs1) as (w' & log & Hrun & Ho' & Hg' & Hnd & Hall).
      exists w', (MsgCopyError f ex :: log).
      simpl. unfold bind. rewrite Hstep. simpl. rewrite Hrun.
      split; [f_equal; f_equal; unfold count_copied, count_errors; simpl; lia|].
      split; [rewrite Ho', Ho, <- app_assoc; reflexivity|].
      split; [apply (grows_trans 1 _ _ _ _ Hg Hg')|].
      split; [exact Hnd|].
      intros n Hin. destruct (Hall n Hin) as [Hnot Hfile]. split; [|exact Hfile].
      destruct (os_path_exists w (os_path_join dest n)) eqn:Hex; [|reflexivity].
      apply (exists_grows 1 w w1 _ Hg) in Hex. congruence.
Qed.

End Names.

Lemma copied_names_length log :
  List.length (copied_names log) = count_copied log.
Proof.
  unfold copied_names, count_copied.
  induction log as [|m log IH]; simpl; [reflexivity|].
  destruct m; simpl; now rewrite ?IH.
Qed.

(** X11: whichever file of the batch is reached, when its turn counts a
    copy, the source was a regular file, its bytes are the ones the
    destination directory then lists under the reported name, and at the
    end of the batch the destination path still resolves to a file with
    these bytes. *)
Theorem X11_copied_bytes
    (fuel : nat) (destination_dir : string)
    (pre : list string) (file_path : string) (post : list string) (w : world)
    (Hfuel : size (root w) + List.length (pre ++ file_path :: post) <= fuel) :
  let file_name := os_path_basename file_path in
  exists c e w_mid c' e' w_next counts w_end,
    copy_loop fuel destination_dir pre 0 0 w = Ok (c, e) w_mid /\
    copy_step fuel destination_dir file_path c e w_mid = Ok (c', e') w_next /\
    copy_loop fuel destination_dir (pre ++ file_path :: post) 0 0 w =
      Ok counts w_end /\
    (c' = c + 1 ->
     exists k data,
       out w_next =
         out w_mid ++ [MsgCopied file_name (candidate file_name k)] /\
       resolve w_mid file_path = Some (File data) /\
       (forall data0, resolve w file_path = Some (File data0) -> data0 = data) /\
       In (candidate file_name k, File data) (listing w_next destination_dir) /\
       resolve w_end (os_path_join destination_dir (candidate file_name k)) =
         Some (File data)).
Proof.
  intros file_name. rewrite length_app in Hfuel. simpl in Hfuel.
  destruct (copy_loop_spec fuel destination_dir pre 0 0 w)
    as (w_mid & log1 & Hpre & Hg1 & _); [lia|].
  simpl in Hpre.
  assert (Hs1 : size (root w_mid) < fuel).
  { destruct Hg1 as (_ & _ & Hs). lia. }
  destruct (copy_step_spec fuel destination_dir file_path
              (count_copied log1) (count_errors log1) w_mid Hs1)
    as (k0 & w_next & m & _ & _ & _ & Hg2 & _ & Hstep).
  assert (Hstep' : exists c' e',
             copy_step fuel destination_dir file_path
               (count_copied log1) (count_errors log1) w_mid =
             Ok (c', e') w_next).
  { destruct Hstep as [[H _]|[H _]]; eauto. }
  destruct Hstep' as (c' & e' & Hstep').
  destruct (copy_loop_spec fuel destination_dir post c' e' w_next)
    as (w_end & log3 & Hpost & Hg3 & _).
  { destruct Hg1 as (_ & _ & Ha). destruct Hg2 as (_ & _ & Hb). lia. }
  exists (count_copied log1), (count_errors log1), w_mid, c', e', w_next.
  eexists _, w_end. split; [exact Hpre|]. split; [exact Hstep'|]. split.
  { rewrite copy_loop_app. unfold bind at 1. rewrite Hpre.
    cbn [copy_loop fst snd]. unfold bind at 1. rewrite Hstep'. exact Hpost. }
  intros ->.
  assert (He' : e' = count_errors log1).
  { destruct Hstep as [[H _]|[H _]]; rewrite H in Hstep';
      injection Hstep'; intros; lia. }
  subst e'.
  destruct (copy_step_copied _ _ _ _ _ _ _ Hs1 Hstep')
    as (k & data & _ & Hsrc & Hdst & Hin & Ho & _).
  exists k, data. split; [exact Ho|]. split; [exact Hsrc|].
  split; [|split; [exact Hin|]].
  - intros data0 H0.
    apply (resolve_file_grows _ _ _ _ _ Hg1) in H0. congruence.
  - now apply (resolve_file_grows (List.length post) w_next w_end).
Qed.

Lemma X11_copied_bytes_witness :
  size (root (world_of twin_root)) +
    List.length (["/src/a.py"] ++ "/src/sub/a.py" :: []) <= 12 /\
  exists c e w_mid c' e' w_next counts w_end,
    copy_loop 12 "/dst" ["/src/a.py"] 0 0 (world_of twin_root) = Ok (c, e) w_mid /\
    copy_step 12 "/dst" "/src/sub/a.py" c e w_mid = Ok (c', e') w_next /\
    copy_loop 12 "/dst" (["/src/a.py"] ++ "/src/sub/a.py" :: []) 0 0
      (world_of twin_root) = Ok counts w_end.
Proof.
  split; [vm_compute; lia|].
  destruct (X11_copied_bytes 12 "/dst" ["/src/a.py"] "/src/sub/a.py" []
              (world_of twin_root))
    as (c & e & w_mid & c' & e' & w_next & counts & w_end & H1 & H2 & H3 & _).
  - vm_compute; lia.
  - exists c, e, w_mid, c', e', w_next, counts, w_end. auto.
Defined.

(** X13: the new names a batch reports are pairwise distinct, as many as
    the copies it counts; none of them existed at the destination before
    the batch, and each one names a file there after it.  So no copy of
    the batch replaces another one, also when two sources bear the same
    base name or the list holds a path twice. *)
Theorem X13_new_names_are_distinct
    (fuel : nat) (files_list : list string) (destination_dir : string)
    (w : world)
    (Hfuel : size (root w) + List.length files_list <= fuel) :
  exists w' log,
    copy_loop fuel destination_dir files_list 0 0 w =
      Ok (count_copied log, count_errors log) w' /\
    out w' = out w ++ log /\
    NoDup (copied_names log) /\
    List.length (copied_names log) = count_copied log /\
    forall n, In n (copied_names log) ->
      os_path_exists w (os_path_join destination_dir n) = false /\
      exists data,
        resolve w' (os_path_join destination_dir n) = Some (File data).
Proof.
  destruct (copy_loop_names fuel destination_dir files_list 0 0 w Hfuel)
    as (w' & log & Hrun & Ho & _ & Hnd & Hall).
  exists w', log. split; [exact Hrun|]. split; [exact Ho|].
  split; [exact Hnd|]. split; [apply copied_names_length | exact Hall].
Qed.

Lemma X13_new_names_witness :
  size (root (world_of twin_root)) +
    List.length ["/src/a.py"; "/src/a.py"; "/src/sub/a.py"] <= 12 /\
  exists w' log,
    copy_loop 12 "/dst" ["/src/a.py"; "/src/a.py"; "/src/sub/a.py"] 0 0
      (world_of twin_root) = Ok (count_copied log, count_errors log) w' /\
    NoDup (copied_names log).
Proof.
  split; [vm_compute; lia|].
  destruct (X13_new_names_are_distinct 12
              ["/src/a.py"; "/src/a.py"; "/src/sub/a.py"] "/dst"
              (world_of twin_root))
    as (w' & log & Hrun & _ & Hnd & _).
  - vm_compute; lia.
  - exists w', log. auto.
Defined.


(** ** Batches that count no error *)

Section Clean.

(** A batch that leaves the error counter where it was has copied every
    item: after it each source is a regular file whose bytes are at the
    destination under the name reported for it. *)
Lemma copy_loop_no_error fuel dest files : forall c e w c' w',
  size (root w) + List.length files <= fuel ->
  copy_loop fuel dest files c e w = Ok (c', e) w' ->
  exists log,
    out w' = out w ++ log /\
    c' = c + List.length files /\
    grows (List.length files) w w' /\
    Forall2
      (fun f n =>
         exists data,
           resolve w' f = Some (File data) /\
           resolve w' (os_path_join dest n) = Some (File data) /\
           In (MsgCopied (os_path_basename f) n) log)
      files (copied_names log).
Proof.
  induction files as [|f files IH]; intros c e w c' w' Hfuel Hrun.
  - simpl in Hrun. injection Hrun as <- <-. exists [].
    rewrite app_nil_r. split; [reflexivity|]. split; [simpl; lia|].
    split; [apply grows_refl | constructor].
  - simpl in Hfuel. simpl in Hrun. unfold bind in Hrun.
    destruct (copy_step_spec fuel dest f c e w)
      as (k & w1 & m & _ & _ & _ & Hg & Ho & Hstep); [lia|].
    assert (Hs1 : size (root w1) + List.length files <= fuel).
    { destruct Hg as (_ & _ & Hs). lia. }
    destruct Hstep as [[Hstep ->]|[Hstep _]].
    + rewrite Hstep in Hrun. cbn [fst snd] in Hrun.
      destruct (copy_step_copied fuel dest f c e w w1)
        as (k' & data & _ & Hsrc & Hdst & _ & Ho' & _); [lia | exact Hstep |].
      rewrite Ho in Ho'. apply app_inv_head in Ho'.
      injection Ho' as Hname.
      destruct (IH (c + 1) e w1 c' w' Hs1 Hrun)
        as (log & Hout & Hc' & Hg' & Hall).
      exists (MsgCopied (os_path_basename f)
                (candidate (os_path_basename f) k) :: log).
      split; [rewrite Hout, Ho, <- app_assoc; reflexivity|].
      split; [simpl; lia|].
      split; [exact (grows_trans 1 _ _ _ _ Hg Hg')|].
      cbn [copied_names flat_map app]. constructor.
      * exists data.
        split; [apply (resolve_file_grows _ _ _ _ _ (grows_trans 1 _ _ _ _ Hg Hg'));
                exact Hsrc|].
        split; [|now left].
        apply (resolve_file_grows _ _ _ _ _ Hg'). rewrite Hname. exact Hdst.
      * revert Hall. apply Forall2_impl.
        intros g n (d & H1 & H2 & H3). exists d. auto using in_cons.
    + rewrite Hstep in Hrun. cbn [fst snd] in Hrun.
      destruct (copy_loop_spec fuel dest files c (e + 1) w1 Hs1)
        as (w2 & log & Hrun' & _).
      rewrite Hrun' in Hrun. injection Hrun as _ He _. lia.
Qed.

End Clean.

(** X12: when a batch ends without having counted an error, it has counted
    a copy for every item of the list, and after it every source is a
    regular file whose bytes are also found at the destination under the
    name that the batch printed for it. *)
Theorem X12_batch_without_errors
    (fuel : nat) (files_list : list string) (destination_dir : string)
    (w w' : world) (copied_count : nat)
    (Hfuel : size (root w) + List.length files_list <= fuel)
    (Hrun : copy_loop fuel destination_dir files_list 0 0 w =
              Ok (copied_count, 0) w') :
  copied_count = List.length files_list /\
  exists log,
    out w' = out w ++ log /\
    Forall2
      (fun file_path new_file_name =>
         exists data,
           resolve w' file_path = Some (File data) /\
           resolve w' (os_path_join destination_dir new_file_name) =
             Some (File data) /\
           In (MsgCopied (os_path_basename file_path) new_file_name) log)
      files_list (copied_names log).
Proof.
  destruct (copy_loop_no_error fuel destination_dir files_list 0 0 w
              copied_count w' Hfuel Hrun)
    as (log & Hout & Hc & _ & Hall).
  split; [exact Hc|]. now exists log.
Qed.

Lemma X12_batch_without_errors_witness :
  size (root (world_of demo_root)) + List.length ["/src/a.py"; "/src/b.js"] <= 12 /\
  copy_loop 12 "/dst" ["/src/a.py"; "/src/b.js"] 0 0 (world_of demo_root) =
    Ok (2, 0)
       (mkWorld (Dir [("src", demo_src);
                      ("dst", Dir [("a.py.txt", File "A"); ("b.js.txt", File "B")])])
                [] [] [MsgCopied "a.py" "a.py.txt"; MsgCopied "b.js" "b.js.txt"]) /\
  2 = List.length ["/src/a.py"; "/src/b.js"].
Proof.
  split; [vm_compute; lia|]. split; [reflexivity|].
  destruct (X12_batch_without_errors 12 ["/src/a.py"; "/src/b.js"] "/dst"
              (world_of demo_root)
              (mkWorld (Dir [("src", demo_src);
                             ("dst", Dir [("a.py.txt", File "A");
                                          ("b.js.txt", File "B")])])
                       [] [] [MsgCopied "a.py" "a.py.txt"; MsgCopied "b.js" "b.js.txt"])
              2) as [Hc _].
  - vm_compute; lia.
  - reflexivity.
  - exact Hc.
Defined.

(** ** What a turn does with the name it chose *)

Section Turns.

Lemma grows_weaken a b w w' : a <= b -> grows a w w' -> grows b w w'.
Proof.
  intros Hab (Hc & He & Hs). split; [exact Hc|]. split; [exact He | lia].
Qed.

(** A copy that returns has put the bytes of its source under the path it
    was given, when that path was free. *)
Lemma shutil_copy2_written w src dst w1 :
  os_path_exists w dst = false ->
  shutil_copy2 src dst w = Ok tt w1 ->
  exists data,
    resolve w src = Some (File data) /\
    resolve w1 dst = Some (File data) /\
    grows 1 w w1 /\ out w1 = out w.
Proof.
  intros Hfree Hcp.
  destruct (shutil_copy2_ok_inv _ _ _ _ Hfree Hcp)
    as (_ & data & qd & r' & Hsrc & Hqd & Hnone & Hput & ->).
  destruct (put_fresh _ _ _ _ Hnone Hput) as [Hext Hsize].
  assert (Hg : grows 1 w (mkWorld r' (cwd w) (tl (faults w)) (out w))).
  { split; [reflexivity|]. split; [exact Hext | simpl in *; lia]. }
  exists data. split; [exact Hsrc|]. split; [|split; [exact Hg | reflexivity]].
  unfold resolve. rewrite (canon_path_grows _ _ _ _ _ Hg Hqd).
  simpl. now apply get_put_same in Hput.
Qed.

(** The copy of a turn: to the first free candidate, and it returns or
    raises. *)
Lemma turn_copy fuel dest f w :
  size (root w) < fuel ->
  exists k w1,
    choose_dest fuel w dest f =
      Some (candidate (os_path_basename f) k,
            os_path_join dest (candidate (os_path_basename f) k), S k) /\
    os_path_exists w
      (os_path_join dest (candidate (os_path_basename f) k)) = false /\
    (forall j, j < k ->
       os_path_exists w
         (os_path_join dest (candidate (os_path_basename f) j)) = true) /\
    grows 1 w w1 /\ out w1 = out w /\
    (shutil_copy2 f (os_path_join dest (candidate (os_path_basename f) k)) w =
       Ok tt w1 \/
     exists ex,
       shutil_copy2 f (os_path_join dest (candidate (os_path_basename f) k)) w =
         Raised ex w1).
Proof.
  intros Hfuel.
  pose proof (listing_lt_size w dest) as Hl.
  destruct (choose_dest_spec fuel w dest f) as (k & Hk & Hfree & Hmin); [lia|].
  destruct (shutil_copy2_fresh w f _ Hfree) as (w1 & Hg & Ho & Hcp).
  exists k, w1. auto 7.
Qed.

End Turns.


(** * The script in its surroundings *)

Section Surroundings.

Variable s : surroundings.

Lemma print_in_accepts m w :
  refuses s m = None -> print_in s m w = Ok tt (printed w [m]).
Proof. unfold print_in. now intros ->. Qed.

Lemma print_in_refuses m ex w :
  refuses s m = Some ex -> print_in s m w = Raised ex w.
Proof. unfold print_in. now intros ->. Qed.

Lemma ends_in_weaken {A} (P Q : world -> Prop) (r : result A) :
  (forall w, P w -> Q w) -> ends_in P r -> ends_in Q r.
Proof. intros H. destruct r; simpl; auto. Qed.

(** A line printed or refused: the computation goes on from the same tree. *)
Lemma print_in_cases m w :
  print_in s m w = Ok tt (printed w [m]) \/
  exists ex, print_in s m w = Raised ex w.
Proof.
  unfold print_in. destruct (refuses s m) as [ex|]; [right; now exists ex|].
  now left.
Qed.

(** One turn of the batch, once the destination is chosen. *)
Lemma copy_step_in_eq fuel dest f c e w name path k :
  choose_dest fuel w dest f = Some (name, path, k) ->
  copy_step_in s fuel dest f c e w =
  match shutil_copy2 f path w with
  | Ok _ w1 =>
      match refuses s (MsgCopied (os_path_basename f) name) with
      | None => Ok (c + 1, e) (printed w1 [MsgCopied (os_path_basename f) name])
      | Some ex =>
          match refuses s (MsgCopyError f ex) with
          | None => Ok (c, e + 1) (printed w1 [MsgCopyError f ex])
          | Some ex' => Raised ex' w1
          end
      end
  | Raised ex w1 =>
      match refuses s (MsgCopyError f ex) with
      | None => Ok (c, e + 1) (printed w1 [MsgCopyError f ex])
      | Some ex' => Raised ex' w1
      end
  | Exited code w1 => Exited code w1
  | OutOfFuel => OutOfFuel
  end.
Proof.
  intros Hk.
  unfold copy_step_in, try_except, copy_one_in, bind, get_world, print_in.
  rewrite Hk.
  destruct (shutil_copy2 f path w) as [[] w1|ex w1|code w1|]; try reflexivity.
  - destruct (refuses s (MsgCopied _ _)) as [ex|]; [|reflexivity].
    unfold raise. destruct (refuses s (MsgCopyError f ex)); reflexivity.
  - destruct (refuses s (MsgCopyError f ex)); reflexivity.
Qed.

(** A turn ends, with a count or with the exception of a refused line, and
    adds at most one file. *)
Lemma copy_step_in_ends fuel dest f c e w :
  size (root w) < fuel ->
  ends_in (grows 1 w) (copy_step_in s fuel dest f c e w).
Proof.
  intros Hfuel.
  destruct (turn_copy fuel dest f w Hfuel)
    as (k & w1 & Hk & _ & _ & Hg & _ & Hcp).
  rewrite (copy_step_in_eq _ _ _ _ _ _ _ _ _ Hk).
  destruct Hcp as [->|[ex ->]].
  - destruct (refuses s (MsgCopied _ _)) as [ex|]; [|exact Hg].
    destruct (refuses s (MsgCopyError f ex)); exact Hg.
  - destruct (refuses s (MsgCopyError f ex)); exact Hg.
Qed.

(** A turn whose error line can be printed ends with a count. *)
Lemma copy_step_in_spec fuel dest f c e w :
  (forall ex, refuses s (MsgCopyError f ex) = None) ->
  size (root w) < fuel ->
  exists w' m,
    grows 1 w w' /\ out w' = out w ++ [m] /\
    ((copy_step_in s fuel dest f c e w = Ok (c + 1, e) w' /\
      exists n, m = MsgCopied (os_path_basename f) n) \/
     (copy_step_in s fuel dest f c e w = Ok (c, e + 1) w' /\
      exists ex, m = MsgCopyError f ex)).
Proof.
  intros Herr Hfuel.
  destruct (turn_copy fuel dest f w Hfuel)
    as (k & w1 & Hk & _ & _ & Hg & Ho & Hcp).
  rewrite (copy_step_in_eq _ _ _ _ _ _ _ _ _ Hk).
  destruct Hcp as [->|[ex ->]].
  - destruct (refuses s (MsgCopied _ _)) as [ex|].
    + rewrite (Herr ex). eexists (printed w1 [_]), _.
      split; [exact Hg|]. split; [simpl; now rewrite Ho|].
      right. split; [reflexivity | now exists ex].
    + eexists (printed w1 [_]), _.
      split; [exact Hg|]. split; [simpl; now rewrite Ho|].
      left. split; [reflexivity | eauto].
  - rewrite (Herr ex). eexists (printed w1 [_]), _.
    split; [exact Hg|]. split; [simpl; now rewrite Ho|].
    right. split; [reflexivity | now exists ex].
Qed.

Lemma copy_loop_in_app fuel dest pre post c e w :
  copy_loop_in s fuel dest (pre ++ post) c e w =
  bind (copy_loop_in s fuel dest pre c e)
       (fun counts => copy_loop_in s fuel dest post (fst counts) (snd counts)) w.
Proof.
  revert c e w. induction pre as [|f pre IH]; intros c e w; simpl.
  - reflexivity.
  - unfold bind.
    destruct (copy_step_in s fuel dest f c e w) as [[c1 e1] w1| | |];
      try reflexivity.
    apply IH.
Qed.

(** A batch whose error lines can be printed: every item is tried, and
    each one moves exactly one of the two counters. *)
Lemma copy_loop_in_counts fuel dest files : forall c e w,
  (forall f ex, In f files -> refuses s (MsgCopyError f ex) = None) ->
  size (root w) + List.length files <= fuel ->
  exists w' log,
    copy_loop_in s fuel dest files c e w =
      Ok (c + count_copied log, e + count_errors log) w' /\
    grows (List.length files) w w' /\
    out w' = out w ++ log /\
    List.length log = List.length files /\
    count_copied log + count_errors log = List.length files.
Proof.
  induction files as [|f files IH]; intros c e w Herr Hfuel.
  - exists w, []. cbn. rewrite !Nat.add_0_r, app_nil_r.
    split; [reflexivity|]. split; [apply grows_refl|]. repeat split.
  - simpl in Hfuel.
    destruct (copy_step_in_spec fuel dest f c e w)
      as (w1 & m & Hg & Ho & Hstep);
      [intros ex; apply Herr; now left | lia |].
    assert (Hs1 : size (root w1) + List.length files <= fuel).
    { destruct Hg as (_ & _ & Hs). lia. }
    assert (Herr' : forall g ex, In g files -> refuses s (MsgCopyError g ex) = None).
    { intros g ex Hin. apply Herr. now right. }
    destruct Hstep as [[Hstep [n ->]]|[Hstep [ex ->]]].
    + destruct (IH (c + 1) e w1 Herr' Hs1)
        as (w' & log & Hrun & Hg' & Ho' & Hlen & Hcount).
      exists w', (MsgCopied (os_path_basename f) n :: log).
      simpl. unfold bind. rewrite Hstep. simpl. rewrite Hrun.
      split; [f_equal; f_equal; unfold count_copied, count_errors; simpl; lia|].
      split; [apply (grows_trans 1 _ _ _ _ Hg Hg')|].
      split; [rewrite Ho', Ho, <- app_assoc; reflexivity|].
      split; [simpl; lia|].
      unfold count_copied, count_errors in *. simpl. lia.
    + destruct (IH c (e + 1) w1 Herr' Hs1)
        as (w' & log & Hrun & Hg' & Ho' & Hlen & Hcount).
      exists w', (MsgCopyError f ex :: log).
      simpl. unfold bind. rewrite Hstep. simpl. rewrite Hrun.
      split; [f_equal; f_equal; unfold count_copied, count_errors; simpl; lia|].
      split; [apply (grows_trans 1 _ _ _ _ Hg Hg')|].
      split; [rewrite Ho', Ho, <- app_assoc; reflexivity|].
      split; [simpl; lia|].
      unfold count_copied, count_errors in *. simpl. lia.
Qed.

(** Any batch ends, and adds at most one file per item. *)
Lemma copy_loop_in_ends fuel dest files : forall c e w,
  size (root w) + List.length files <= fuel ->
  ends_in (grows (List.length files) w) (copy_loop_in s fuel dest files c e w).
Proof.
  induction files as [|f files IH]; intros c e w Hfuel; simpl.
  - apply grows_refl.
  - simpl in Hfuel. unfold bind.
    pose proof (copy_step_in_ends fuel dest f c e w) as Hstep.
    destruct (copy_step_in s fuel dest f c e w) as [[c1 e1] w1|ex w1|code w1|];
      simpl in Hstep.
    + assert (Hg : grows 1 w w1) by (apply Hstep; lia).
      apply (ends_in_weaken (grows (List.length files) w1)).
      * intros w' Hg'. exact (grows_trans 1 _ _ _ _ Hg Hg').
      * apply IH. destruct Hg as (_ & _ & Hs). lia.
    + apply (grows_weaken 1); [lia | apply Hstep; lia].
    + apply (grows_weaken 1); [lia | apply Hstep; lia].
    + apply Hstep. lia.
Qed.

Lemma copy_and_rename_files_in_ends fuel files dest w :
  size (root w) + List.length files <= fuel ->
  ends_in (grows (List.length files) w)
          (copy_and_rename_files_in s fuel files dest w).
Proof.
  intros Hfuel. destruct files as [|f files].
  - simpl. destruct (print_in_cases MsgNothingToCopy w) as [->|[ex ->]];
      exact (grows_refl w).
  - unfold copy_and_rename_files_in, bind.
    pose proof (copy_loop_in_ends fuel dest (f :: files) 0 0 w Hfuel) as Hloop.
    destruct (copy_loop_in s fuel dest (f :: files) 0 0 w)
      as [[c1 e1] w1|ex w1|code w1|]; try exact Hloop.
    simpl in Hloop. cbn [fst snd].
    destruct (print_in_cases (MsgSummary c1 e1) w1) as [->|[ex ->]];
      exact Hloop.
Qed.

(** Preparing the destination ends, whatever is refused, and keeps what
    exists. *)
Lemma create_destination_dir_in_ends dest_path w :
  ends_in (grows (S (String.length dest_path)) w)
          (create_destination_dir_in s dest_path w).
Proof.
  unfold create_destination_dir_in, try_except, bind.
  destruct (os_makedirs_cases dest_path w) as (r' & Hext & Hs & [->|[e ->]]).
  - set (w1 := mkWorld r' (cwd w) (tl (faults w)) (out w)).
    assert (Hg : grows (S (String.length dest_path)) w w1).
    { split; [reflexivity|]. split; [exact Hext | exact Hs]. }
    destruct (print_in_cases (MsgDestReady dest_path) w1) as [->|[ex ->]];
      [exact Hg|].
    destruct (print_in_cases (MsgDestError dest_path ex) w1) as [->|[ex' ->]];
      exact Hg.
  - set (w1 := mkWorld r' (cwd w) (tl (faults w)) (out w)).
    assert (Hg : grows (S (String.length dest_path)) w w1).
    { split; [reflexivity|]. split; [exact Hext | exact Hs]. }
    destruct (print_in_cases (MsgDestError dest_path e) w1) as [->|[ex' ->]];
      exact Hg.
Qed.

End Surroundings.


(** ** The walk, as far as it gets *)

Section Seen.

Variable s : surroundings.
Variable file_formats : list string.

(** [os.walk] visits exactly the directories that can be listed and are
    reached through directories that can be listed. *)
Lemma walk_seen_In n : forall q top top' ds fs,
  In (top', ds, fs) (walk_seen s q top n) <->
  exists cs es,
    in_tree cs n (Dir es) /\ all_listable s q cs = true /\
    top' = join_all top cs /\ ds = dir_names es /\ fs = file_names es.
Proof.
  induction n as [d|es IH] using node_induction; intros q top top' ds fs.
  - simpl. split; [tauto|]. intros (cs & es & H & _). inversion H.
  - rewrite Forall_forall in IH. cbn [walk_seen].
    destruct (unlistable s q) eqn:Hq.
    + split; [intros []|]. intros (cs & es' & Ht & Hl & _).
      destruct cs; simpl in Hl; rewrite Hq in Hl; discriminate.
    + cbn [In]. rewrite in_flat_map. split.
      * intros [Heq|([name m] & Hin & Hsub)].
        -- injection Heq as <- <- <-. exists [], es. simpl. rewrite Hq.
           repeat split. constructor.
        -- apply (IH _ Hin) in Hsub as (cs & es' & Ht & Hl & -> & -> & ->).
           exists (name :: cs), es'. simpl. rewrite Hq. simpl.
           repeat split; [econstructor; eassumption | exact Hl].
      * intros (cs & es' & Ht & Hl & -> & -> & ->).
        inversion Ht as [|name m ? cs' ? Hin Hrest]; subst.
        -- now left.
        -- right. exists (name, m). split; [exact Hin|].
           apply (IH _ Hin). exists cs', es'.
           simpl in Hl. rewrite Hq in Hl. simpl in Hl. repeat split; auto.
Qed.

(** What is found below a node: the entries that are not directories, in
    the directories the walk reaches, whose lower-cased extension is in the
    filter. *)
Lemma scan_walk_seen_In q top n p :
  In p (scan_walk file_formats (walk_seen s q top n) []) <->
  exists cs f d,
    in_tree (cs ++ [f]) n (File d) /\ all_listable s q cs = true /\
    In (PyStr.lower (snd (os_path_splitext f))) file_formats /\
    p = join_all top (cs ++ [f]).
Proof.
  rewrite scan_walk_In. split.
  - intros [[]|(t & ds & fs & f & Hw & Hf & Hm & ->)].
    apply walk_seen_In in Hw as (cs & es & Ht & Hl & -> & -> & ->).
    apply file_names_In in Hf as (d & Hin).
    exists cs, f, d. split; [apply in_tree_snoc; eauto|].
    split; [exact Hl|].
    split; [exact Hm|]. unfold join_all. now rewrite fold_left_app.
  - intros (cs & f & d & Ht & Hl & Hm & ->). right.
    apply in_tree_snoc in Ht as (es & Ht & Hin).
    exists (join_all top cs), (dir_names es), (file_names es), f.
    split; [apply walk_seen_In; exists cs, es; auto|].
    split; [apply file_names_In; eauto|].
    split; [exact Hm|]. unfold join_all. now rewrite fold_left_app.
Qed.

Lemma walk_seen_files n : forall q top,
  list_sum (map (fun t => List.length (snd t)) (walk_seen s q top n)) +
  (if is_file n then 1 else 0) <= size n.
Proof.
  induction n as [d|es IH] using node_induction; intros q top; simpl; [lia|].
  destruct (unlistable s q); simpl; [lia|].
  rewrite Nat.add_0_r. apply le_S.
  induction IH as [|[name m] es Hm Hes IHes]; simpl; [lia|].
  rewrite map_app, list_sum_app.
  specialize (Hm (q ++ [name]) (os_path_join top name)).
  unfold file_names in *. simpl in *.
  destruct (is_file m); simpl; lia.
Qed.

(** The walk returns no more paths than the tree has nodes. *)
Lemma os_walk_in_length w source_dir triples :
  os_walk_in s w source_dir = Some triples ->
  List.length (scan_walk file_formats triples []) <= size (root w).
Proof.
  unfold os_walk_in.
  destruct (canon_path w source_dir) as [q|];
    [|intros [= <-]; simpl; lia].
  destruct (get (root w) q) as [n|] eqn:Hq; [|intros [= <-]; simpl; lia].
  destruct (walk_limit s <? walk_depth s q n); [discriminate|].
  intros [= <-].
  pose proof (scan_walk_length file_formats (walk_seen s q source_dir n) []) as H1.
  pose proof (walk_seen_files n q source_dir) as H2.
  apply get_size in Hq. simpl in H1. lia.
Qed.

(** The locator on a standard output that takes every line. *)
Lemma find_files_by_format_in_accepts source_dir w :
  accepts_all s ->
  find_files_by_format_in s source_dir file_formats w =
  if negb (os_path_exists w source_dir) then
    Ok [] (printed w [MsgSourceMissing source_dir])
  else
    match os_walk_in s w source_dir with
    | None =>
        Raised RecursionError
          (printed w [MsgSearching source_dir; MsgFormats file_formats])
    | Some triples =>
        Ok (scan_walk file_formats triples [])
           (printed w [MsgSearching source_dir; MsgFormats file_formats;
                       MsgFound (List.length (scan_walk file_formats triples []))])
    end.
Proof.
  intros Hacc. unfold find_files_by_format_in, bind, get_world.
  destruct (negb (os_path_exists w source_dir)).
  - now rewrite (print_in_accepts s _ _ (Hacc _)).
  - rewrite (print_in_accepts s _ _ (Hacc _)).
    rewrite (print_in_accepts s _ _ (Hacc _)).
    change (os_walk_in s (printed w [MsgSearching source_dir]) source_dir)
      with (os_walk_in s w source_dir).
    destruct (os_walk_in s w source_dir) as [triples|].
    + rewrite (print_in_accepts s _ _ (Hacc _)).
      unfold ret, printed. simpl. now rewrite <- !app_assoc.
    + unfold raise, printed. simpl. now rewrite <- !app_assoc.
Qed.

(** The locator ends, whatever is refused, and leaves the tree as it is;
    what it returns is no longer than the tree has nodes. *)
Lemma find_files_by_format_in_ends source_dir w :
  ends_in (fun w' => root w' = root w /\ cwd w' = cwd w)
          (find_files_by_format_in s source_dir file_formats w).
Proof.
  unfold find_files_by_format_in, bind, get_world, print_in, raise, ret, print.
  destruct (negb (os_path_exists w source_dir)).
  - destruct (refuses s (MsgSourceMissing source_dir)); simpl; auto.
  - destruct (refuses s (MsgSearching source_dir)); simpl; auto.
    destruct (refuses s (MsgFormats file_formats)); simpl; auto.
    destruct (os_walk_in s w source_dir) as [triples|]; simpl; auto.
    destruct (refuses s (MsgFound _)); simpl; auto.
Qed.

Lemma find_files_by_format_in_length source_dir w found w' :
  find_files_by_format_in s source_dir file_formats w = Ok found w' ->
  List.length found <= size (root w).
Proof.
  unfold find_files_by_format_in, bind, get_world, print_in, raise, ret, print.
  destruct (negb (os_path_exists w source_dir)).
  - destruct (refuses s (MsgSourceMissing source_dir)); simpl; [discriminate|].
    intros [= <- _]. simpl. lia.
  - destruct (refuses s (MsgSearching source_dir)); simpl; [discriminate|].
    destruct (refuses s (MsgFormats file_formats)); simpl; [discriminate|].
    destruct (os_walk_in s w source_dir) as [triples|] eqn:Hw; simpl;
      [|discriminate].
    destruct (refuses s (MsgFound _)); simpl; [discriminate|].
    intros [= <- _]. now apply (os_walk_in_length w source_dir).
Qed.

End Seen.


(** ** The whole run, in its surroundings *)

Section Run.

Variable s : surroundings.

Lemma create_destination_dir_in_accepts dest_path w :
  accepts_all s ->
  create_destination_dir_in s dest_path w = create_destination_dir dest_path w.
Proof.
  intros Hacc. unfold create_destination_dir_in, create_destination_dir,
    try_except, bind, print_in.
  destruct (os_makedirs dest_path w) as [[] w1|e w1|code w1|];
    rewrite ?Hacc; reflexivity.
Qed.

Lemma copy_step_in_accepts fuel dest f c e w :
  accepts_all s ->
  copy_step_in s fuel dest f c e w = copy_step fuel dest f c e w.
Proof.
  intros Hacc. unfold copy_step_in, copy_step, copy_one_in, copy_one,
    try_except, bind, get_world, print_in.
  destruct (choose_dest fuel w dest f) as [[[name path] k]|]; [|reflexivity].
  destruct (shutil_copy2 f path w) as [[] w1|ex w1|code w1|];
    rewrite ?Hacc; reflexivity.
Qed.

Lemma copy_loop_in_accepts fuel dest files : forall c e w,
  accepts_all s ->
  copy_loop_in s fuel dest files c e w = copy_loop fuel dest files c e w.
Proof.
  induction files as [|f files IH]; intros c e w Hacc; simpl; [reflexivity|].
  unfold bind. rewrite (copy_step_in_accepts _ _ _ _ _ _ Hacc).
  destruct (copy_step fuel dest f c e w) as [[c1 e1] w1| | |]; try reflexivity.
  now apply IH.
Qed.

Lemma copy_and_rename_files_in_accepts fuel files dest w :
  accepts_all s ->
  copy_and_rename_files_in s fuel files dest w =
  copy_and_rename_files fuel files dest w.
Proof.
  intros Hacc. destruct files as [|f files].
  - simpl. unfold print_in. now rewrite Hacc.
  - unfold copy_and_rename_files_in, copy_and_rename_files, bind.
    rewrite (copy_loop_in_accepts _ _ _ _ _ _ Hacc).
    destruct (copy_loop fuel dest (f :: files) 0 0 w) as [[c1 e1] w1| | |];
      try reflexivity.
    unfold print_in. now rewrite Hacc.
Qed.

(** A run from parsed arguments on a standard output that takes every
    line: it ends normally, or with the [RecursionError] of [os.walk], or
    with the exit of [create_destination_dir]. *)
Lemma main_in_outcome fuel a w :
  accepts_all s ->
  main_fuel (destination a) w <= fuel ->
  let w0 := printed w [MsgBanner (source a) (destination a)
                                 (parse_file_formats (formats a))] in
  (exists w1 w',
      os_makedirs (destination a) w0 = Ok tt w1 /\
      os_walk_in s w1 (source a) <> None /\
      main_in s fuel (Parsed a) w = Ok tt w') \/
  (exists w1 w',
      os_makedirs (destination a) w0 = Ok tt w1 /\
      os_walk_in s w1 (source a) = None /\
      main_in s fuel (Parsed a) w = Raised RecursionError w') \/
  (exists e w1,
      os_makedirs (destination a) w0 = Raised e w1 /\
      main_in s fuel (Parsed a) w =
        Exited 1 (printed w1 [MsgDestError (destination a) e])).
Proof.
  intros Hacc Hfuel w0.
  assert (Hmain : main_in s fuel (Parsed a) w =
            bind (create_destination_dir (destination a))
              (fun _ =>
                 bind (find_files_by_format_in s (source a)
                         (parse_file_formats (formats a)))
                   (fun files_to_copy =>
                      bind (copy_and_rename_files_in s fuel files_to_copy
                              (destination a))
                        (fun _ => print_in s MsgDone))) w0).
  { unfold main_in, parse_args, ret. unfold bind at 1 2.
    rewrite (print_in_accepts s _ _ (Hacc _)).
    unfold bind at 1 3.
    now rewrite (create_destination_dir_in_accepts _ _ Hacc). }
  destruct (create_destination_dir_outcome (destination a) w0)
    as [(w1 & Hmk & Hc & Hs)|(e & w1 & Hmk & Hc)].
  - assert (Hrun : main_in s fuel (Parsed a) w =
              match
                find_files_by_format_in s (source a)
                  (parse_file_formats (formats a))
                  (printed w1 [MsgDestReady (destination a)])
              with
              | Ok files w2 =>
                  bind (copy_and_rename_files_in s fuel files (destination a))
                       (fun _ => print_in s MsgDone) w2
              | Raised ex w2 => Raised ex w2
              | Exited code w2 => Exited code w2
              | OutOfFuel => OutOfFuel
              end).
    { rewrite Hmain. unfold bind at 1. rewrite Hc. reflexivity. }
    clear Hmain.
    rewrite (find_files_by_format_in_accepts s _ _ _ Hacc) in Hrun.
    change (os_walk_in s (printed w1 [MsgDestReady (destination a)]) (source a))
      with (os_walk_in s w1 (source a)) in Hrun.
    change (os_path_exists (printed w1 [MsgDestReady (destination a)]) (source a))
      with (os_path_exists w1 (source a)) in Hrun.
    assert (Hcopy : forall files w2,
              root w2 = root w1 ->
              List.length files <= size (root w1) ->
              exists w',
                bind (copy_and_rename_files_in s fuel files (destination a))
                     (fun _ => print_in s MsgDone) w2 = Ok tt w').
    { intros files w2 Hr Hlen. unfold bind.
      rewrite (copy_and_rename_files_in_accepts _ _ _ _ Hacc).
      destruct (copy_and_rename_files_spec fuel files (destination a) w2)
        as (w' & log & -> & _).
      { rewrite Hr. unfold main_fuel in Hfuel. simpl in *. lia. }
      rewrite (print_in_accepts s _ _ (Hacc _)). eauto. }
    destruct (os_path_exists w1 (source a)) eqn:Hex; simpl in Hrun.
    + destruct (os_walk_in s w1 (source a)) as [triples|] eqn:Hwalk.
      * left.
        destruct (Hcopy (scan_walk (parse_file_formats (formats a)) triples [])
                    (printed (printed w1 [MsgDestReady (destination a)])
                       [MsgSearching (source a);
                        MsgFormats (parse_file_formats (formats a));
                        MsgFound (List.length
                          (scan_walk (parse_file_formats (formats a))
                             triples []))]))
          as [w' Hw']; [reflexivity | |].
        { now apply (os_walk_in_length s _ w1 (source a)). }
        exists w1, w'. split; [exact Hmk|].
        split; [rewrite Hwalk; discriminate | now rewrite Hrun].
      * right. left. eexists w1, _. split; [exact Hmk|].
        split; [exact Hwalk | exact Hrun].
    + left.
      destruct (Hcopy [] (printed (printed w1 [MsgDestReady (destination a)])
                            [MsgSourceMissing (source a)]))
        as [w' Hw']; [reflexivity | simpl; lia |].
      exists w1, w'. split; [exact Hmk|]. split; [|now rewrite Hrun].
      unfold os_walk_in. unfold os_path_exists, resolve in Hex.
      destruct (canon_path w1 (source a)) as [q|]; [|discriminate].
      destruct (get (root w1) q); [discriminate Hex | discriminate].
  - right. right. exists e, w1. rewrite Hmain. unfold bind at 1. rewrite Hc.
    split; [exact Hmk | reflexivity].
Qed.

(** Any run ends, whatever is refused, and keeps what exists. *)
Lemma main_in_ends fuel cmd w :
  (forall a, cmd = Parsed a -> main_fuel (destination a) w <= fuel) ->
  exists k, ends_in (grows k w) (main_in s fuel cmd w).
Proof.
  intros Hfuel. destruct cmd as [a|code].
  2: { exists 0. exact (grows_refl w). }
  specialize (Hfuel a eq_refl). unfold main_fuel in Hfuel.
  exists (S (String.length (destination a)) + size (root w) +
          S (String.length (destination a))).
  set (K := S (String.length (destination a))) in *.
  unfold main_in, parse_args, ret. unfold bind at 1 2.
  destruct (print_in_cases s (MsgBanner (source a) (destination a)
                                (parse_file_formats (formats a))) w)
    as [->|[ex ->]].
  2: { apply (grows_weaken 0); [lia | exact (grows_refl w)]. }
  set (w0 := printed w _).
  unfold bind at 1.
  pose proof (create_destination_dir_in_ends s (destination a) w0) as Hc.
  destruct (create_destination_dir_in s (destination a) w0)
    as [[] w1|ex w1|code w1|]; simpl in Hc;
    try (apply (grows_weaken K); [lia | exact Hc]); [|contradiction].
  assert (Hg1 : grows K w w1) by exact Hc.
  unfold bind at 1.
  pose proof (find_files_by_format_in_ends s (parse_file_formats (formats a))
                (source a) w1) as Hf.
  pose proof (find_files_by_format_in_length s (parse_file_formats (formats a))
                (source a) w1) as Hlen.
  destruct (find_files_by_format_in s (source a)
              (parse_file_formats (formats a)) w1)
    as [files w2|ex w2|code w2|]; simpl in Hf; [| | |contradiction].
  - specialize (Hlen files w2 eq_refl). destruct Hf as [Hr Hcw].
    assert (Hg2 : grows K w w2).
    { destruct Hg1 as (H1 & H2 & H3). split; [congruence|].
      rewrite Hr. split; [exact H2 | exact H3]. }
    assert (Hsize : size (root w2) + List.length files <= fuel).
    { destruct Hg1 as (_ & _ & H3). rewrite Hr. lia. }
    unfold bind at 1.
    pose proof (copy_and_rename_files_in_ends s fuel files (destination a) w2 Hsize)
      as Hcp.
    assert (Hadd : forall w3, grows (List.length files) w2 w3 ->
                   grows (K + size (root w) + K) w w3).
    { intros w3 Hg3. apply (grows_weaken (K + List.length files)).
      - destruct Hg1 as (_ & _ & H3). lia.
      - exact (grows_trans _ _ _ _ _ Hg2 Hg3). }
    destruct (copy_and_rename_files_in s fuel files (destination a) w2)
      as [[] w3|ex w3|code w3|]; simpl in Hcp; [| | |contradiction];
      try (now apply Hadd).
    destruct (print_in_cases s MsgDone w3) as [->|[ex ->]]; now apply Hadd.
  - destruct Hf as [Hr Hcw]. apply (grows_weaken K); [lia|].
    destruct Hg1 as (H1 & H2 & H3). split; [congruence|].
    rewrite Hr. split; [exact H2 | exact H3].
  - destruct Hf as [Hr Hcw]. apply (grows_weaken K); [lia|].
    destruct Hg1 as (H1 & H2 & H3). split; [congruence|].
    rewrite Hr. split; [exact H2 | exact H3].
Qed.

(** *** Surroundings without obstacles *)

Lemma bind_congr {A B} (m m' : M A) (k k' : A -> M B) w :
  m w = m' w ->
  (forall a w1, m' w = Ok a w1 -> k a w1 = k' a w1) ->
  bind m k w = bind m' k' w.
Proof.
  intros Hm Hk. unfold bind. rewrite Hm.
  destruct (m' w) as [a w1|ex w1|code w1|]; try reflexivity.
  now apply Hk.
Qed.

Lemma walk_seen_plain n : forall q top,
  (forall q', unlistable s q' = false) ->
  walk_seen s q top n = walk_node top n.
Proof.
  induction n as [d|es IH] using node_induction; intros q top Hl; simpl;
    [reflexivity|].
  rewrite Hl. f_equal.
  induction IH as [|[name m] es Hm Hes IHes]; simpl; [reflexivity|].
  now rewrite IHes, (Hm _ _ Hl).
Qed.

Lemma walk_depth_size n : forall q, walk_depth s q n <= size n.
Proof.
  induction n as [d|es IH] using node_induction; intros q; simpl; [lia|].
  destruct (unlistable s q); [lia|]. apply le_n_S.
  induction IH as [|[name m] es Hm Hes IHes]; simpl; [lia|].
  specialize (Hm (q ++ [name])). simpl in Hm. lia.
Qed.

(** Where every line is printed, every directory can be listed and the
    recursion limit is out of reach, the locator is the one of the first
    part. *)
Lemma find_files_by_format_in_plain source_dir file_formats w :
  accepts_all s ->
  (forall q, unlistable s q = false) ->
  size (root w) <= walk_limit s ->
  find_files_by_format_in s source_dir file_formats w =
  find_files_by_format source_dir file_formats w.
Proof.
  intros Hacc Hl Hlim.
  rewrite (find_files_by_format_in_accepts s _ _ _ Hacc).
  unfold find_files_by_format, bind, get_world, os_walk_in, os_walk,
    os_path_exists, resolve.
  destruct (canon_path w source_dir) as [q|]; [|reflexivity].
  destruct (get (root w) q) as [n|] eqn:Hn; [|reflexivity].
  pose proof (walk_depth_size n q) as Hd. apply get_size in Hn.
  destruct (Nat.ltb_spec (walk_limit s) (walk_depth s q n)) as [Hlt|_]; [lia|].
  simpl. rewrite (walk_seen_plain _ _ _ Hl).
  unfold printed, ret. simpl. now rewrite <- !app_assoc.
Qed.

(** And so is the whole run. *)
Lemma main_in_plain fuel a w :
  accepts_all s ->
  (forall q, unlistable s q = false) ->
  size (root w) + S (String.length (destination a)) <= walk_limit s ->
  main_in s fuel (Parsed a) w = main fuel a w.
Proof.
  intros Hacc Hl Hlim.
  unfold main_in, main, parse_args, ret. unfold bind at 1.
  apply bind_congr; [unfold print_in; now rewrite Hacc|].
  intros [] w0 Hw0. injection Hw0 as <-.
  apply bind_congr; [now apply create_destination_dir_in_accepts|].
  intros [] w1 Hw1.
  assert (Hs : size (root w1) <= walk_limit s).
  { destruct (create_destination_dir_outcome (destination a)
                (mkWorld (root w) (cwd w) (faults w)
                   (out w ++ [MsgBanner (source a) (destination a)
                                (parse_file_formats (formats a))])))
      as [(w1' & _ & Hc & Hs)|(e & w1' & _ & Hc)];
      rewrite Hc in Hw1; [|discriminate].
    injection Hw1 as <-. simpl in *. lia. }
  apply bind_congr; [now apply find_files_by_format_in_plain|].
  intros files w2 _.
  apply bind_congr; [now apply copy_and_rename_files_in_accepts|].
  intros [] w3 _. unfold print_in. now rewrite Hacc.
Qed.

End Run.

(** * The claims on the turns of a batch and on the surroundings *)

(** ** File Locator *)

(** C1, as stated, fails on both sides.  In the surroundings [rough_tree]
    of [demo_root] the regular file [/src/sub/d.PY], whose lower-cased
    extension is [.py], is not returned, because [/src/sub] cannot be
    listed; and [/src/a.py], which is returned, is a FIFO. *)
Lemma C1_not_exactly_the_regular_files :
  ~ (forall (s : surroundings) (w : world) (source_dir : string)
            (file_formats : list string),
        accepts_all s ->
        os_walk_in s w source_dir <> None ->
        exists found w',
          find_files_by_format_in s source_dir file_formats w = Ok found w' /\
          forall p,
            In p found <->
            exists q t cs f d,
              canon_path w source_dir = Some q /\
              get (root w) q = Some t /\
              in_tree (cs ++ [f]) t (File d) /\
              irregular s (q ++ cs ++ [f]) = false /\
              In (PyStr.lower (snd (os_path_splitext f))) file_formats /\
              p = join_all source_dir (cs ++ [f])) /\
  returned (find_files_by_format_in rough_tree "/src" [".py"] (world_of demo_root)) =
    Some ["/src/a.py"] /\
  irregular rough_tree ["src"; "a.py"] = true /\
  resolve (world_of demo_root) "/src/sub/d.PY" = Some (File "D") /\
  unlistable rough_tree ["src"; "sub"] = true.
Proof.
  split; [|repeat split; reflexivity].
  intros H.
  destruct (H rough_tree (world_of demo_root) "/src" [".py"])
    as (found & w' & Hrun & Hiff).
  - intros m. reflexivity.
  - vm_compute. discriminate.
  - vm_compute in Hrun. injection Hrun as <- _.
    assert (Hin : In "/src/sub/d.PY" ["/src/a.py"]).
    { apply Hiff. exists ["src"], demo_src, ["sub"], "d.PY", "D".
      split; [reflexivity|]. split; [reflexivity|].
      split; [|repeat split; try reflexivity; now left].
      apply (in_tree_below "sub" (Dir [("d.PY", File "D")])).
      - simpl. auto.
      - apply (in_tree_below "d.PY" (File "D")); [now left | constructor]. }
    destruct Hin as [Heq|[]]. discriminate.
Qed.

(** C1, amended: for every filter list and every tree under [source_dir],
    on a standard output that takes every line, [find_files_by_format]
    raises [RecursionError] when the tree is deeper than [os.walk] can
    descend, and otherwise returns exactly the entries that [os.walk] lists
    under [files]: an entry that is not a directory, regular file or not,
    is returned if and only if its lower-cased extension is in the filter
    and every directory on the way to it, from [source_dir] on, can be
    listed, at whatever depth [cs] the entry sits. *)
Theorem C1_located_entries_exact
    (s : surroundings) (w : world) (source_dir : string)
    (file_formats : list string)
    (Hstdout : accepts_all s) :
  match os_walk_in s w source_dir with
  | None =>
      exists w',
        find_files_by_format_in s source_dir file_formats w =
          Raised RecursionError w' /\
        root w' = root w
  | Some _ =>
      exists found w',
        find_files_by_format_in s source_dir file_formats w = Ok found w' /\
        root w' = root w /\
        forall p,
          In p found <->
          exists q t cs f d,
            canon_path w source_dir = Some q /\
            get (root w) q = Some t /\
            in_tree (cs ++ [f]) t (File d) /\
            all_listable s q cs = true /\
            In (PyStr.lower (snd (os_path_splitext f))) file_formats /\
            p = join_all source_dir (cs ++ [f])
  end.
Proof.
  rewrite (find_files_by_format_in_accepts s file_formats source_dir w Hstdout).
  unfold os_walk_in, os_path_exists, resolve.
  destruct (canon_path w source_dir) as [q|] eqn:Hq.
  - destruct (get (root w) q) as [t|] eqn:Ht; simpl.
    + destruct (walk_limit s <? walk_depth s q t).
      * eexists. split; reflexivity.
      * eexists _, _. split; [reflexivity|]. split; [reflexivity|].
        intros p. rewrite scan_walk_seen_In. split.
        -- intros (cs & f & d & H). exists q, t, cs, f, d. tauto.
        -- intros (q' & t' & cs & f & d & [= <-] & Ht' & H).
           rewrite Ht in Ht'. injection Ht' as <-. exists cs, f, d. exact H.
    + eexists _, _. split; [reflexivity|]. split; [reflexivity|].
      intros p. split; [intros []|].
      intros (q' & t' & cs & f & d & [= <-] & Ht' & _). congruence.
  - simpl. eexists _, _. split; [reflexivity|]. split; [reflexivity|].
    intros p. split; [intros []|].
    intros (q' & t' & cs & f & d & [=] & _).
Qed.

Lemma C1_located_entries_witness :
  accepts_all rough_tree /\
  exists found w',
    find_files_by_format_in rough_tree "/src" [".py"; ".js"] (world_of demo_root) =
      Ok found w' /\
    (In "/src/b.js" found <->
     exists q t cs f d,
       canon_path (world_of demo_root) "/src" = Some q /\
       get (root (world_of demo_root)) q = Some t /\
       in_tree (cs ++ [f]) t (File d) /\
       all_listable rough_tree q cs = true /\
       In (PyStr.lower (snd (os_path_splitext f))) [".py"; ".js"] /\
       "/src/b.js" = join_all "/src" (cs ++ [f])).
Proof.
  assert (Hacc : accepts_all rough_tree) by (intros m; reflexivity).
  split; [exact Hacc|].
  pose proof (C1_located_entries_exact rough_tree (world_of demo_root) "/src"
                [".py"; ".js"] Hacc) as H.
  change (os_walk_in rough_tree (world_of demo_root) "/src")
    with (Some (walk_seen rough_tree ["src"] "/src" demo_src)) in H.
  destruct H as (found & w' & Hrun & _ & Hiff).
  exists found, w'. split; [exact Hrun | apply Hiff].
Defined.

(** ** Copy-and-Rename Engine *)

(** C2: whichever file of the batch is reached, in the state [w_mid] the
    batch is in at that moment, the first name tried is the base name with
    [.txt] appended, the next ones are [{stem}_{counter}{ext}.txt] for the
    counters 1, 2, ..., and the name chosen is the first of this sequence
    that does not exist at the destination.  The sequence starts again for
    every file: the choice depends on the file and on [w_mid] only.  The
    chosen name is the one the turn uses: [shutil.copy2] is called on it,
    and it returns or raises; when it returns, the bytes of the source are
    under that name, the turn reports it and counts a copy; when it raises,
    the turn reports the failure and counts an error.  On a standard output
    that refuses lines the copy is made on the same name: a report that
    cannot be printed is counted as an error, and an error line that cannot
    be printed leaves the turn as an exception. *)
Theorem C2_first_free_candidate
    (fuel : nat) (destination_dir : string)
    (pre : list string) (file_path : string) (post : list string) (w : world)
    (Hfuel : size (root w) + List.length (pre ++ file_path :: post) <= fuel) :
  let file_name := os_path_basename file_path in
  let stem := fst (os_path_splitext file_name) in
  let ext := snd (os_path_splitext file_name) in
  candidate file_name 0 = file_name +:+ ".txt" /\
  (forall counter,
     candidate file_name (S counter) =
     stem +:+ "_" +:+ PyStr.of_nat (S counter) +:+ ext +:+ ".txt") /\
  exists c e w_mid k,
    copy_loop fuel destination_dir pre 0 0 w = Ok (c, e) w_mid /\
    copy_loop fuel destination_dir (pre ++ file_path :: post) 0 0 w =
      bind (copy_step fuel destination_dir file_path c e)
           (fun counts =>
              copy_loop fuel destination_dir post (fst counts) (snd counts))
           w_mid /\
    choose_dest fuel w_mid destination_dir file_path =
      Some (candidate file_name k,
            os_path_join destination_dir (candidate file_name k), S k) /\
    os_path_exists w_mid
      (os_path_join destination_dir (candidate file_name k)) = false /\
    (forall j, j < k ->
       os_path_exists w_mid
         (os_path_join destination_dir (candidate file_name j)) = true) /\
    let dest_file_path := os_path_join destination_dir (candidate file_name k) in
    ((exists w1, shutil_copy2 file_path dest_file_path w_mid = Ok tt w1) \/
     (exists ex w1, shutil_copy2 file_path dest_file_path w_mid = Raised ex w1)) /\
    (forall w1,
       shutil_copy2 file_path dest_file_path w_mid = Ok tt w1 ->
       copy_step fuel destination_dir file_path c e w_mid =
         Ok (c + 1, e)
            (printed w1 [MsgCopied file_name (candidate file_name k)]) /\
       exists data,
         resolve w_mid file_path = Some (File data) /\
         resolve w1 dest_file_path = Some (File data)) /\
    (forall ex w1,
       shutil_copy2 file_path dest_file_path w_mid = Raised ex w1 ->
       copy_step fuel destination_dir file_path c e w_mid =
         Ok (c, e + 1) (printed w1 [MsgCopyError file_path ex])) /\
    forall s : surroundings,
      copy_step_in s fuel destination_dir file_path c e w_mid =
      match shutil_copy2 file_path dest_file_path w_mid with
      | Ok _ w1 =>
          match refuses s (MsgCopied file_name (candidate file_name k)) with
          | None =>
              Ok (c + 1, e)
                 (printed w1 [MsgCopied file_name (candidate file_name k)])
          | Some ex =>
              match refuses s (MsgCopyError file_path ex) with
              | None => Ok (c, e + 1) (printed w1 [MsgCopyError file_path ex])
              | Some ex' => Raised ex' w1
              end
          end
      | Raised ex w1 =>
          match refuses s (MsgCopyError file_path ex) with
          | None => Ok (c, e + 1) (printed w1 [MsgCopyError file_path ex])
          | Some ex' => Raised ex' w1
          end
      | Exited code w1 => Exited code w1
      | OutOfFuel => OutOfFuel
      end.
Proof.
  intros file_name stem ext.
  split; [reflexivity|]. split; [reflexivity|].
  destruct (batch_turn fuel destination_dir pre file_path post w Hfuel)
    as (c & e & w_mid & k & w_next & m & Hpre & _ & Hk & Hfree & Hmin & _ & _ & Hrun).
  exists c, e, w_mid, k.
  split; [exact Hpre|]. split; [exact Hrun|]. split; [exact Hk|].
  split; [exact Hfree|]. split; [exact Hmin|].
  intros dest_file_path.
  pose proof (copy_step_eq fuel destination_dir file_path c e w_mid _ _ _ Hk)
    as Hstep.
  fold file_name dest_file_path in Hstep.
  split; [|split; [|split]].
  - destruct (shutil_copy2_fresh w_mid file_path _ Hfree)
      as (w1 & _ & _ & [Hcp|[ex Hcp]]); eauto.
  - intros w1 Hcp. rewrite Hcp in Hstep. split; [exact Hstep|].
    destruct (shutil_copy2_written _ _ _ _ Hfree Hcp) as (data & Hs & Hd & _).
    now exists data.
  - intros ex w1 Hcp. now rewrite Hcp in Hstep.
  - intros s.
    exact (copy_step_in_eq s fuel destination_dir file_path c e w_mid _ _ _ Hk).
Qed.

Lemma C2_first_free_candidate_witness :
  size (root (world_of taken_root)) +
    List.length (["/src/a.py"] ++ "/src/a.py" :: []) <= 8 /\
  exists c e w_mid k,
    copy_loop 8 "/dst" ["/src/a.py"] 0 0 (world_of taken_root) = Ok (c, e) w_mid /\
    choose_dest 8 w_mid "/dst" "/src/a.py" =
      Some (candidate "a.py" k, os_path_join "/dst" (candidate "a.py" k), S k) /\
    os_path_exists w_mid (os_path_join "/dst" (candidate "a.py" k)) = false /\
    ((exists w1,
        shutil_copy2 "/src/a.py" (os_path_join "/dst" (candidate "a.py" k)) w_mid =
          Ok tt w1) \/
     (exists ex w1,
        shutil_copy2 "/src/a.py" (os_path_join "/dst" (candidate "a.py" k)) w_mid =
          Raised ex w1)).
Proof.
  split; [vm_compute; lia|].
  destruct (C2_first_free_candidate 8 "/dst" ["/src/a.py"] "/src/a.py" []
              (world_of taken_root))
    as (_ & _ & c & e & w_mid & k & Hpre & _ & Hk & Hfree & _ & Hcp & _).
  - vm_compute; lia.
  - exists c, e, w_mid, k. auto.
Defined.

(** C4, as stated, fails: with [a.py.txt] at the destination, a regular
    source file [a.py] and no fault, the copy is not made under the name
    [a.py_1.py.txt], and that is not the name chosen. *)
Lemma C4_stated_name_is_not_chosen :
  ~ (forall (fuel : nat) (w : world)
            (destination_dir file_path old data : string),
        os_path_basename file_path = "a.py" ->
        resolve w (os_path_join destination_dir "a.py.txt") = Some (File old) ->
        resolve w file_path = Some (File data) ->
        faults w = [] ->
        size (root w) + 1 <= fuel ->
        (exists dest_file_path counter,
           choose_dest fuel w destination_dir file_path =
             Some ("a.py_1.py.txt", dest_file_path, counter)) \/
        (exists w',
           copy_and_rename_files fuel [file_path] destination_dir w = Ok tt w' /\
           resolve w' (os_path_join destination_dir "a.py_1.py.txt") =
             Some (File data))).
Proof.
  intros H.
  destruct (H 8 (world_of taken_root) "/dst" "/src/a.py" "old" "new")
    as [(dest_file_path & counter & Hc)|(w' & Hrun & Hres)];
    [reflexivity | reflexivity | reflexivity | reflexivity | vm_compute; lia | |].
  - vm_compute in Hc. discriminate.
  - vm_compute in Hrun. injection Hrun as <-. vm_compute in Hres. discriminate.
Qed.

(** C4, amended: if the destination directory holds a file [a.py.txt] and no
    [a_1.py.txt], the name chosen for the source file [a.py] is
    [a_1.py.txt], the stem of [a.py] being [a].  [shutil.copy2] is called on
    that name; when it returns, the source was a regular file, its bytes
    are under [a_1.py.txt], which is the name reported, one copy is counted,
    and [a.py.txt] keeps its bytes; when it raises, the failure is reported
    and counted.  Either way the batch ends normally and [a.py.txt] keeps
    its bytes.  On a standard output that refuses lines the copy is made
    on the same name. *)
Theorem C4_scenario_b
    (fuel : nat) (w : world) (destination_dir file_path old : string)
    (Hname : os_path_basename file_path = "a.py")
    (Htaken : resolve w (os_path_join destination_dir "a.py.txt") = Some (File old))
    (Hfree : os_path_exists w (os_path_join destination_dir "a_1.py.txt") = false)
    (Hfuel : size (root w) + 1 <= fuel) :
  let dest_file_path := os_path_join destination_dir "a_1.py.txt" in
  choose_dest fuel w destination_dir file_path =
    Some ("a_1.py.txt", dest_file_path, 2) /\
  (exists w',
     copy_and_rename_files fuel [file_path] destination_dir w = Ok tt w' /\
     resolve w' (os_path_join destination_dir "a.py.txt") = Some (File old)) /\
  ((exists w1, shutil_copy2 file_path dest_file_path w = Ok tt w1) \/
   (exists ex w1, shutil_copy2 file_path dest_file_path w = Raised ex w1)) /\
  (forall w1,
     shutil_copy2 file_path dest_file_path w = Ok tt w1 ->
     copy_and_rename_files fuel [file_path] destination_dir w =
       Ok tt (printed w1 [MsgCopied "a.py" "a_1.py.txt"; MsgSummary 1 0]) /\
     exists data,
       resolve w file_path = Some (File data) /\
       resolve w1 dest_file_path = Some (File data) /\
       resolve w1 (os_path_join destination_dir "a.py.txt") = Some (File old)) /\
  (forall ex w1,
     shutil_copy2 file_path dest_file_path w = Raised ex w1 ->
     copy_and_rename_files fuel [file_path] destination_dir w =
       Ok tt (printed w1 [MsgCopyError file_path ex; MsgSummary 0 1])) /\
  forall s : surroundings,
    copy_step_in s fuel destination_dir file_path 0 0 w =
    match shutil_copy2 file_path dest_file_path w with
    | Ok _ w1 =>
        match refuses s (MsgCopied "a.py" "a_1.py.txt") with
        | None => Ok (1, 0) (printed w1 [MsgCopied "a.py" "a_1.py.txt"])
        | Some ex =>
            match refuses s (MsgCopyError file_path ex) with
            | None => Ok (0, 1) (printed w1 [MsgCopyError file_path ex])
            | Some ex' => Raised ex' w1
            end
        end
    | Raised ex w1 =>
        match refuses s (MsgCopyError file_path ex) with
        | None => Ok (0, 1) (printed w1 [MsgCopyError file_path ex])
        | Some ex' => Raised ex' w1
        end
    | Exited code w1 => Exited code w1
    | OutOfFuel => OutOfFuel
    end.
Proof.
  intros dest_file_path.
  assert (Hk : choose_dest fuel w destination_dir file_path =
               Some ("a_1.py.txt", dest_file_path, 2)).
  { pose proof (size_pos (root w)) as Hpos.
    destruct fuel as [|[|fuel]]; try lia.
    unfold choose_dest. rewrite Hname.
    change ("a.py" +:+ ".txt") with "a.py.txt". cbn [free_name_loop].
    unfold os_path_exists at 1. rewrite Htaken.
    change (numbered_name "a.py" 1) with "a_1.py.txt".
    fold dest_file_path. unfold dest_file_path in *. now rewrite Hfree. }
  pose proof (copy_step_eq fuel destination_dir file_path 0 0 w _ _ _ Hk)
    as Hstep.
  rewrite Hname in Hstep.
  assert (Hrun : forall counts w2,
            copy_step fuel destination_dir file_path 0 0 w = Ok counts w2 ->
            copy_and_rename_files fuel [file_path] destination_dir w =
              Ok tt (printed w2 [MsgSummary (fst counts) (snd counts)])).
  { intros counts w2 H. unfold copy_and_rename_files, copy_loop, bind.
    rewrite H. reflexivity. }
  split; [exact Hk|]. split; [|split; [|split; [|split]]].
  - destruct (copy_and_rename_files_spec fuel [file_path] destination_dir w Hfuel)
      as (w' & log & Hr & _ & Hg & _).
    eexists. split; [exact Hr|].
    apply (resolve_file_grows 1 w); [exact Hg | exact Htaken].
  - destruct (shutil_copy2_fresh w file_path _ Hfree)
      as (w1 & _ & _ & [Hcp|[ex Hcp]]); eauto.
  - intros w1 Hcp. rewrite Hcp in Hstep. split.
    + rewrite (Hrun _ _ Hstep). unfold printed. simpl.
      now rewrite <- app_assoc.
    + destruct (shutil_copy2_written _ _ _ _ Hfree Hcp)
        as (data & Hs & Hd & Hg & _).
      exists data. split; [exact Hs|]. split; [exact Hd|].
      apply (resolve_file_grows 1 w); [exact Hg | exact Htaken].
  - intros ex w1 Hcp. rewrite Hcp in Hstep.
    rewrite (Hrun _ _ Hstep). unfold printed. simpl. now rewrite <- app_assoc.
  - intros s.
    pose proof (copy_step_in_eq s fuel destination_dir file_path 0 0 w _ _ _ Hk)
      as Hin.
    now rewrite Hname in Hin.
Qed.

Lemma C4_scenario_b_witness :
  os_path_basename "/src/a.py" = "a.py" /\
  resolve (world_of taken_root) (os_path_join "/dst" "a.py.txt") =
    Some (File "old") /\
  os_path_exists (world_of taken_root) (os_path_join "/dst" "a_1.py.txt") = false /\
  size (root (world_of taken_root)) + 1 <= 8 /\
  choose_dest 8 (world_of taken_root) "/dst" "/src/a.py" =
    Some ("a_1.py.txt", os_path_join "/dst" "a_1.py.txt", 2) /\
  exists w1,
    shutil_copy2 "/src/a.py" (os_path_join "/dst" "a_1.py.txt")
      (world_of taken_root) = Ok tt w1 /\
    copy_and_rename_files 8 ["/src/a.py"] "/dst" (world_of taken_root) =
      Ok tt (printed w1 [MsgCopied "a.py" "a_1.py.txt"; MsgSummary 1 0]) /\
    resolve w1 (os_path_join "/dst" "a_1.py.txt") = Some (File "new") /\
    resolve w1 (os_path_join "/dst" "a.py.txt") = Some (File "old").
Proof.
  split; [reflexivity|]. split; [reflexivity|]. split; [reflexivity|].
  split; [vm_compute; lia|].
  destruct (C4_scenario_b 8 (world_of taken_root) "/dst" "/src/a.py" "old")
    as (Hk & _ & _ & Hcopied & _); try reflexivity; [vm_compute; lia|].
  split; [exact Hk|].
  exists (world_of
            (Dir [("src", Dir [("a.py", File "new")]);
                  ("dst", Dir [("a.py.txt", File "old");
                               ("a_1.py.txt", File "new")])])).
  split; [reflexivity|].
  split; [|split; reflexivity].
  destruct (Hcopied _ eq_refl) as [Hrun _]. exact Hrun.
Defined.

(** C6, as stated, fails: the handler of a failed copy prints the path, and
    a path that standard output cannot take raises there, outside any
    [try].  With a standard output in KOI8-R and a missing source called
    [caf\233.py] the batch stops at that item: the exception leaves
    [copy_and_rename_files], the item after it is never tried and no
    summary is printed. *)
Lemma C6_unprintable_error_stops_the_batch :
  ~ (forall (s : surroundings) (fuel : nat) (files_list : list string)
            (destination_dir : string) (w : world),
        size (root w) + List.length files_list <= fuel ->
        exists c e w',
          copy_loop_in s fuel destination_dir files_list 0 0 w = Ok (c, e) w' /\
          c + e = List.length files_list) /\
  copy_and_rename_files_in koi8r_stdout 12
    ["/src/a.py"; "/src/" +:+ cafe_py; "/src/b.js"] "/dst"
    (world_of demo_root) =
  Raised UnicodeEncodeError
    (mkWorld (Dir [("src", demo_src); ("dst", Dir [("a.py.txt", File "A")])])
             [] [] [MsgCopied "a.py" "a.py.txt"]).
Proof.
  split; [|reflexivity].
  intros H.
  destruct (H koi8r_stdout 12 ["/src/a.py"; "/src/" +:+ cafe_py; "/src/b.js"]
              "/dst" (world_of demo_root))
    as (c & e & w' & Hrun & _); [vm_compute; lia|].
  vm_compute in Hrun. discriminate.
Qed.

(** C6, amended: as long as standard output takes the error line of every
    item, the summary and the nothing-to-copy line, the batch tries every
    item.  Each item adds one line to the log, a copy or a failure, and
    moves the matching counter, so the two counters the summary prints add
    up to the length of the list.  Whichever item is reached,
    [shutil.copy2] is called on the name chosen for it and returns or
    raises: when it raises, the failure is reported and the error counter
    moves; when it returns, the copy is reported and the copy counter
    moves, unless the report cannot be printed, which is counted as an
    error.  Either way the batch goes on.  For the empty list the only
    line printed is the nothing-to-copy one, nothing else changes, and
    nothing is raised. *)
Theorem C6_every_item_is_counted
    (s : surroundings) (fuel : nat) (files_list : list string)
    (destination_dir : string) (w : world)
    (Herr : forall f ex, In f files_list -> refuses s (MsgCopyError f ex) = None)
    (Hsum : forall c e, refuses s (MsgSummary c e) = None)
    (Hnone : refuses s MsgNothingToCopy = None)
    (Hfuel : size (root w) + List.length files_list <= fuel) :
  (exists w' log,
     copy_loop_in s fuel destination_dir files_list 0 0 w =
       Ok (count_copied log, count_errors log) w' /\
     out w' = out w ++ log /\
     List.length log = List.length files_list /\
     count_copied log + count_errors log = List.length files_list /\
     copy_and_rename_files_in s fuel files_list destination_dir w =
       match files_list with
       | [] => Ok tt (printed w [MsgNothingToCopy])
       | _ => Ok tt (printed w' [MsgSummary (count_copied log) (count_errors log)])
       end) /\
  forall pre file_path post,
    files_list = pre ++ file_path :: post ->
    exists c e w_mid k,
      copy_loop_in s fuel destination_dir pre 0 0 w = Ok (c, e) w_mid /\
      let file_name := os_path_basename file_path in
      let dest_file_path := os_path_join destination_dir (candidate file_name k) in
      let copied := MsgCopied file_name (candidate file_name k) in
      choose_dest fuel w_mid destination_dir file_path =
        Some (candidate file_name k, dest_file_path, S k) /\
      ((exists w1, shutil_copy2 file_path dest_file_path w_mid = Ok tt w1) \/
       (exists ex w1, shutil_copy2 file_path dest_file_path w_mid = Raised ex w1)) /\
      (forall ex w1,
         shutil_copy2 file_path dest_file_path w_mid = Raised ex w1 ->
         copy_step_in s fuel destination_dir file_path c e w_mid =
           Ok (c, e + 1) (printed w1 [MsgCopyError file_path ex])) /\
      (forall w1,
         shutil_copy2 file_path dest_file_path w_mid = Ok tt w1 ->
         refuses s copied = None ->
         copy_step_in s fuel destination_dir file_path c e w_mid =
           Ok (c + 1, e) (printed w1 [copied])) /\
      (forall w1 ex,
         shutil_copy2 file_path dest_file_path w_mid = Ok tt w1 ->
         refuses s copied = Some ex ->
         copy_step_in s fuel destination_dir file_path c e w_mid =
           Ok (c, e + 1) (printed w1 [MsgCopyError file_path ex])).
Proof.
  split.
  - destruct (copy_loop_in_counts s fuel destination_dir files_list 0 0 w Herr Hfuel)
      as (w' & log & Hrun & _ & Ho & Hlen & Hcount).
    simpl in Hrun. exists w', log.
    repeat (split; [assumption|]).
    destruct files_list as [|f files].
    + simpl. now apply print_in_accepts.
    + unfold copy_and_rename_files_in, bind. rewrite Hrun. cbn [fst snd].
      now apply print_in_accepts.
  - intros pre file_path post ->.
    rewrite length_app in Hfuel. simpl in Hfuel.
    destruct (copy_loop_in_counts s fuel destination_dir pre 0 0 w)
      as (w_mid & log & Hrun & Hg & _); [|lia|].
    { intros f ex Hin. apply Herr, in_or_app. now left. }
    simpl in Hrun.
    assert (Hsize : size (root w_mid) < fuel).
    { destruct Hg as (_ & _ & Hs). lia. }
    destruct (turn_copy fuel destination_dir file_path w_mid Hsize)
      as (k & w1 & Hk & _ & _ & _ & _ & Hcp).
    exists (count_copied log), (count_errors log), w_mid, k.
    split; [exact Hrun|]. intros file_name dest_file_path copied.
    split; [exact Hk|].
    pose proof (copy_step_in_eq s fuel destination_dir file_path
                  (count_copied log) (count_errors log) w_mid _ _ _ Hk) as Hstep.
    fold file_name dest_file_path copied in Hstep.
    assert (Hline : forall ex, refuses s (MsgCopyError file_path ex) = None).
    { intros ex. apply Herr, in_or_app. right. now left. }
    split; [destruct Hcp as [Hcp|[ex Hcp]]; eauto|].
    split; [|split].
    + intros ex w2 H. now rewrite H, Hline in Hstep.
    + intros w2 H Hacc. now rewrite H, Hacc in Hstep.
    + intros w2 ex H Href. now rewrite H, Href, Hline in Hstep.
Qed.

Lemma C6_every_item_witness :
  (forall f ex, In f ["/src/a.py"; "/src/gone.py"; "/src/b.js"] ->
                refuses koi8r_stdout (MsgCopyError f ex) = None) /\
  size (root (world_of demo_root)) +
    List.length ["/src/a.py"; "/src/gone.py"; "/src/b.js"] <= 12 /\
  exists w' log,
    copy_loop_in koi8r_stdout 12 "/dst"
      ["/src/a.py"; "/src/gone.py"; "/src/b.js"] 0 0
      (world_of demo_root) = Ok (count_copied log, count_errors log) w' /\
    count_copied log + count_errors log = 3.
Proof.
  assert (Herr : forall f ex, In f ["/src/a.py"; "/src/gone.py"; "/src/b.js"] ->
                 refuses koi8r_stdout (MsgCopyError f ex) = None).
  { intros f ex [<-|[<-|[<-|[]]]]; reflexivity. }
  split; [exact Herr|].
  split; [vm_compute; lia|].
  destruct (C6_every_item_is_counted koi8r_stdout 12
              ["/src/a.py"; "/src/gone.py"; "/src/b.js"] "/dst"
              (world_of demo_root) Herr)
    as [(w' & log & Hloop & _ & _ & Hcount & _) _].
  - reflexivity.
  - reflexivity.
  - vm_compute; lia.
  - exists w', log. split; [exact Hloop | exact Hcount].
Defined.

(** ** The whole run *)

(** C8, as stated, fails: a run also ends with a non-zero status when the
    destination directory could be created or was never asked for.  A
    script started in a working directory that is gone ends at line 17,
    status 1; a command line that argparse rejects ends the run with
    status 2 at line 157; on a standard output in KOI8-R the run on
    [cafe_root] creates nothing new at [/dst], writes the copy and ends
    with the [UnicodeEncodeError] of the error line, status 1; and with a
    recursion limit that lets [os.walk] list one level the run on
    [demo_root] ends with a [RecursionError], status 1. *)
Lemma C8_other_ways_to_a_non_zero_status :
  ~ (forall (s : surroundings) (fuel : nat) (cmd : command_line) (w : world),
        (forall a, cmd = Parsed a -> main_fuel (destination a) w <= fuel) ->
        exists code,
          exit_status (script_in s fuel cmd w) = Some code /\
          (code <> 0 <->
           exists a e w1,
             cmd = Parsed a /\
             os_makedirs (destination a)
               (printed w [MsgBanner (source a) (destination a)
                                     (parse_file_formats (formats a))]) =
               Raised e w1)) /\
  exit_status (script_in (plain_surroundings 1000) 40 (Rejected 2)
                 (world_of demo_root)) = Some 2 /\
  (returned (os_makedirs "/dst"
               (printed lost_cwd [MsgBanner "/src" "/dst" [".py"]])) = Some tt /\
   script_in (plain_surroundings 1000) 40 (Parsed demo_args) lost_cwd =
     Raised FileNotFoundError lost_cwd) /\
  (returned (os_makedirs "/dst"
               (printed (world_of cafe_root)
                  [MsgBanner "/src" "/dst" [".py"]])) = Some tt /\
   exit_status (script_in koi8r_stdout 40 (Parsed demo_args)
                  (world_of cafe_root)) = Some 1 /\
   ends_in (fun w' => resolve w' ("/dst/" +:+ cafe_py +:+ ".txt") = Some (File "C"))
           (script_in koi8r_stdout 40 (Parsed demo_args) (world_of cafe_root))) /\
  (returned (os_makedirs "/dst"
               (printed (world_of demo_root)
                  [MsgBanner "/src" "/dst" [".py"]])) = Some tt /\
   script_in shallow_walk 40 (Parsed demo_args) (world_of demo_root) =
     Raised RecursionError
       (printed (world_of demo_root)
          [MsgBanner "/src" "/dst" [".py"]; MsgDestReady "/dst";
           MsgSearching "/src"; MsgFormats [".py"]])).
Proof.
  split; [|repeat split; reflexivity].
  intros H.
  destruct (H (plain_surroundings 1000) 40 (Rejected 2) (world_of demo_root))
    as (code & Hcode & Hiff).
  - intros a [=].
  - injection Hcode as <-.
    destruct Hiff as [Hfrom _].
    destruct Hfrom as (a & e & w1 & [=] & _). discriminate.
Qed.

(** C8, amended: a script started in a working directory that is gone ends
    with status 1 when it is loaded, and a command line that the argument
    parser rejects ends the run with the status of the parser; in both
    cases nothing is printed or created.  Otherwise, on a standard output
    that takes every line and with enough fuel for the collision loops, a
    run ends with exit status 1 when [os.makedirs] fails on the destination
    or when [os.walk] runs into the recursion limit on the source tree, and
    with exit status 0 in every other run, whatever happens to the single
    copies. *)
Theorem C8_exit_status
    (s : surroundings) (fuel : nat) (cmd : command_line) (w : world)
    (Hstdout : accepts_all s)
    (Hfuel : forall a, cmd = Parsed a -> main_fuel (destination a) w <= fuel) :
  if is_dir (get (root w) (cwd w)) then
    match cmd with
    | Rejected status =>
        script_in s fuel cmd w = Exited status w /\
        exit_status (script_in s fuel cmd w) = Some status
    | Parsed a =>
        let w0 := printed w [MsgBanner (source a) (destination a)
                                       (parse_file_formats (formats a))] in
        exists code,
          exit_status (script_in s fuel cmd w) = Some code /\
          (code = 0 \/ code = 1) /\
          (code <> 0 <->
           (exists e w1, os_makedirs (destination a) w0 = Raised e w1) \/
           (exists w1,
              os_makedirs (destination a) w0 = Ok tt w1 /\
              os_walk_in s w1 (source a) = None)) /\
          (code = 0 -> exists w', script_in s fuel cmd w = Ok tt w')
    end
  else
    script_in s fuel cmd w = Raised FileNotFoundError w /\
    exit_status (script_in s fuel cmd w) = Some 1.
Proof.
  assert (Hscript : script_in s fuel cmd w =
            if is_dir (get (root w) (cwd w)) then main_in s fuel cmd w
            else Raised FileNotFoundError w).
  { unfold script_in, bind, os_getcwd.
    now destruct (is_dir (get (root w) (cwd w))). }
  rewrite Hscript. clear Hscript.
  destruct (is_dir (get (root w) (cwd w))); [|split; reflexivity].
  destruct cmd as [a|status]; [|split; reflexivity].
  intros w0.
  destruct (main_in_outcome s fuel a w Hstdout (Hfuel a eq_refl))
    as [(w1 & w' & Hmk & Hwalk & Hrun)|
        [(w1 & w' & Hmk & Hwalk & Hrun)|(e & w1 & Hmk & Hrun)]];
    fold w0 in Hmk.
  - exists 0. rewrite Hrun.
    split; [reflexivity|]. split; [now left|]. split.
    + split; [congruence|].
      intros [(e & w1' & He)|(w1' & Hmk' & Hnone)]; [congruence|].
      rewrite Hmk in Hmk'. injection Hmk' as <-. contradiction.
    + intros _. now exists w'.
  - exists 1. rewrite Hrun.
    split; [reflexivity|]. split; [now right|]. split.
    + split; [intros _; right; eauto | discriminate].
    + discriminate.
  - exists 1. rewrite Hrun.
    split; [reflexivity|]. split; [now right|]. split.
    + split; [intros _; left; eauto | discriminate].
    + discriminate.
Qed.

Lemma C8_exit_status_witness :
  accepts_all (plain_surroundings 1000) /\
  (forall a, Parsed blocked_args = Parsed a ->
             main_fuel (destination a) (world_of taken_root) <= 40) /\
  let w0 := printed (world_of taken_root)
              [MsgBanner (source blocked_args) (destination blocked_args)
                         (parse_file_formats (formats blocked_args))] in
  exists code,
    exit_status (script_in (plain_surroundings 1000) 40 (Parsed blocked_args)
                   (world_of taken_root)) = Some code /\
    (code = 0 \/ code = 1) /\
    (code <> 0 <->
     (exists e w1, os_makedirs (destination blocked_args) w0 = Raised e w1) \/
     (exists w1,
        os_makedirs (destination blocked_args) w0 = Ok tt w1 /\
        os_walk_in (plain_surroundings 1000) w1 (source blocked_args) = None)) /\
    (code = 0 ->
     exists w', script_in (plain_surroundings 1000) 40 (Parsed blocked_args)
                  (world_of taken_root) = Ok tt w').
Proof.
  assert (Hacc : accepts_all (plain_surroundings 1000)) by (intros m; reflexivity).
  assert (Hfuel : forall a, Parsed blocked_args = Parsed a ->
                  main_fuel (destination a) (world_of taken_root) <= 40).
  { intros a [= <-]. vm_compute. lia. }
  split; [exact Hacc|]. split; [exact Hfuel|].
  exact (C8_exit_status (plain_surroundings 1000) 40 (Parsed blocked_args)
           (world_of taken_root) Hacc Hfuel).
Defined.

(** ** What a run keeps *)

(** X14: every run of [main] with enough fuel ends: normally, with an
    exit, or with an exception that nothing catches.  Whatever the command
    line, the faults and the lines that standard output refuses, in the
    world the run ends in every file that existed keeps its bytes and every
    directory is still a directory; this includes what [os.makedirs] made
    before it failed. *)
Theorem X14_main_keeps_what_exists
    (s : surroundings) (fuel : nat) (cmd : command_line) (w : world)
    (Hfuel : forall a, cmd = Parsed a -> main_fuel (destination a) w <= fuel) :
  ends_in
    (fun w' =>
       (forall p data, resolve w p = Some (File data) ->
                       resolve w' p = Some (File data)) /\
       (forall p, os_path_isdir w p = true -> os_path_isdir w' p = true))
    (main_in s fuel cmd w).
Proof.
  destruct (main_in_ends s fuel cmd w Hfuel) as [k Hends].
  apply (ends_in_weaken (grows k w)); [|exact Hends].
  intros w' Hg. split.
  - intros p data. now apply (resolve_file_grows k w).
  - intros p. now apply (resolve_dir_grows k w).
Qed.

Lemma X14_main_keeps_witness :
  (forall a, Parsed demo_args = Parsed a ->
             main_fuel (destination a) (world_of cafe_root) <= 40) /\
  ends_in
    (fun w' =>
       (forall p data, resolve (world_of cafe_root) p = Some (File data) ->
                       resolve w' p = Some (File data)) /\
       (forall p, os_path_isdir (world_of cafe_root) p = true ->
                  os_path_isdir w' p = true))
    (main_in koi8r_stdout 40 (Parsed demo_args) (world_of cafe_root)).
Proof.
  assert (Hfuel : forall a, Parsed demo_args = Parsed a ->
                  main_fuel (destination a) (world_of cafe_root) <= 40).
  { intros a [= <-]. vm_compute. lia. }
  split; [exact Hfuel|].
  exact (X14_main_keeps_what_exists koi8r_stdout 40 (Parsed demo_args)
           (world_of cafe_root) Hfuel).
Defined.
